(** * Worksection -> Supabase user synchronisation: a shallow embedding

    The development follows the JavaScript sources of the repository:

    - [utils/retry.js]            -> Module [Retry]
    - [utils/progress-tracker.js] -> Module [Tracker]
    - [config/sync-config.js]     -> Module [Config]
    - [sync/user-create.js]       -> Module [UserCreate]
    - [sync/user-delete.js]       -> Module [UserDelete]
    - [scripts/compare-users.js]  -> Module [Compare]
    - [sync/sync-manager.js]      -> Module [SyncManager] (plan filters)

    Strings are byte strings holding the UTF-8 encoding of the JavaScript
    string; JavaScript numbers that are counters, indices and delays are
    [nat] or [Z].  A falsy string field ([undefined], [null], empty) is the
    empty string unless the record says otherwise. *)

From Stdlib Require Import ZArith List String Ascii Lia.
From stdpp Require Import base option list gmap strings.

Open Scope string_scope.
Open Scope list_scope.
Open Scope stdpp_scope.

(** ** JavaScript string primitives used by the sources *)

Module JS.

(** [s.includes(sub)] *)
Fixpoint includes (s sub : string) : bool :=
  String.prefix sub s ||
  match s with
  | EmptyString => false
  | String _ s' => includes s' sub
  end.

(** [s.split(' ')]: never empty, [''.split(' ')] is [['']]. *)
Fixpoint split_space (s : string) : list string :=
  match s with
  | EmptyString => [EmptyString]
  | String c s' =>
      if Ascii.eqb c " "%char then EmptyString :: split_space s'
      else match split_space s' with
           | t :: ts => String c t :: ts
           | [] => [String c EmptyString]
           end
  end.

(** [arr[i] || ''] for an array of strings *)
Definition at_or_empty (arr : list string) (i : nat) : string :=
  nth i arr EmptyString.

(** [x || dflt] for a string [x] *)
Definition or_default (x dflt : string) : string :=
  if String.eqb x EmptyString then dflt else x.

(** [!x] for a string *)
Definition falsy (x : string) : bool := String.eqb x EmptyString.

(** The property names every plain object inherits from
    [Object.prototype]: its methods, and the accessor [__proto__]. *)
Definition object_prototype_names : list string :=
  ["constructor"; "hasOwnProperty"; "isPrototypeOf"; "propertyIsEnumerable";
   "toLocaleString"; "toString"; "valueOf";
   "__defineGetter__"; "__defineSetter__";
   "__lookupGetter__"; "__lookupSetter__"; "__proto__"].

Definition inherited (k : string) : bool :=
  existsb (String.eqb k) object_prototype_names.

(** What [o[k]] evaluates to on a plain object [o] filled by assignments
    [o[name] = value], with [Object.prototype] as the runtime ships it:
    the value under the own key; failing that, for a name of
    [Object.prototype], the member inherited under that name (a
    function, or for [__proto__] the prototype object: truthy, and
    without any of the properties the sources read from a value);
    [undefined] otherwise. *)
Inductive Member (A : Type) :=
| Own (v : A)
| Inherited (name : string)
| Undefined.
Arguments Own {A} v.
Arguments Inherited {A} name.
Arguments Undefined {A}.

Definition get {A} (o : gmap string A) (k : string) : Member A :=
  match o !! k with
  | Some v => Own v
  | None => if inherited k then Inherited k else Undefined
  end.

(** White space as [String.prototype.trim] sees it, on UTF-8 bytes:
    TAB LF VT FF CR SP, U+00A0, U+1680, U+2000..U+200A, U+2028, U+2029,
    U+202F, U+205F, U+3000, U+FEFF. *)
Fixpoint all_space (l : list N) : bool :=
  match l with
  | [] => true
  | b :: r =>
      if ((9 <=? b) && (b <=? 13))%N || (b =? 32)%N then all_space r
      else match r with
           | b1 :: r1 =>
               if (b =? 194)%N && (b1 =? 160)%N then all_space r1
               else match r1 with
                    | b2 :: r2 =>
                        if ((b =? 225) && (b1 =? 154) && (b2 =? 128))%N
                           || ((b =? 226) && (b1 =? 128) &&
                               (((128 <=? b2) && (b2 <=? 138))
                                || (b2 =? 168) || (b2 =? 169) || (b2 =? 175)))%N
                           || ((b =? 226) && (b1 =? 129) && (b2 =? 159))%N
                           || ((b =? 227) && (b1 =? 128) && (b2 =? 128))%N
                           || ((b =? 239) && (b1 =? 187) && (b2 =? 191))%N
                        then all_space r2
                        else false
                    | [] => false
                    end
           | [] => false
           end
  end.

(** [s.trim() === ''] *)
Definition trim_is_empty (s : string) : bool :=
  all_space (map N_of_ascii (list_ascii_of_string s)).

(** ASCII lower-casing: what [toLowerCase] does on strings whose
    non-ASCII letters are already lower case. *)
Definition ascii_lower (c : ascii) : ascii :=
  let n := N_of_ascii c in
  if ((65 <=? n) && (n <=? 90))%N then ascii_of_N (n + 32) else c.

Fixpoint lower_ascii (s : string) : string :=
  match s with
  | EmptyString => EmptyString
  | String c s' => String (ascii_lower c) (lower_ascii s')
  end.

End JS.

(** ** utils/retry.js *)

Module Retry.

(** The [options] argument; an absent field takes its default in the
    destructuring at the top of [retry].  [operationName] only feeds the
    log lines. *)
Record options := {
  maxRetries : option nat;
  baseDelay : option Z;
  maxDelay : option Z
}.

Definition no_options : options :=
  {| maxRetries := None; baseDelay := None; maxDelay := None |}.

Definition maxRetries_of (o : options) : nat := default 3 (maxRetries o).
Definition baseDelay_of (o : options) : Z := default 1000%Z (baseDelay o).
Definition maxDelay_of (o : options) : Z := default 10000%Z (maxDelay o).

(** What an observer sees of a run: calls of [fn] and timer waits. *)
Inductive event :=
| Attempt (k : nat)
| Wait (ms : Z).

(** [Math.min(baseDelay * Math.pow(2, attempt - 1), maxDelay)] *)
Definition backoff (o : options) (attempt : nat) : Z :=
  Z.min (baseDelay_of o * 2 ^ Z.of_nat (attempt - 1)) (maxDelay_of o).

(** The values a thunk may reject with.  Both log lines of the [catch]
    block evaluate [`${error.message}`] before anything else is done with
    the error; [unreadable error] is what that evaluation throws, if it
    throws: a [TypeError] when [error] is [undefined] or [null]. *)
Class Rejection (E : Type) := unreadable : E -> option E.

(** Rejection values told apart by what [retry] does with them. *)
Inductive Reason :=
| Nothing                    (* [undefined] or [null] *)
| Failure (message : string) (* an [Error] with its message *)
| MessageOfNothing.          (* the [TypeError] of [error.message] on [undefined] or [null] *)

#[global] Instance reason_rejection : Rejection Reason := fun error =>
  match error with
  | Nothing => Some MessageOfNothing
  | Failure _ | MessageOfNothing => None
  end.

Section retry.
Context {W V E : Type} `{!Rejection E}.

(** A thunk runs on the world and returns a value or throws. *)
Definition thunk := W -> (V + E) * W.

(** Outcome of [retry]: a value, or a thrown error; [inr None] is
    [throw lastError] with [lastError] still undefined. *)
Definition outcome : Type := (V + option E) * W * list event.

(** The [for (attempt = 1; attempt <= maxRetries; attempt++)] loop;
    [fuel] is the number of iterations left.  A rejection whose message
    cannot be read leaves the [catch] block, and [retry], with what the
    reading throws. *)
Fixpoint retry_loop (fn : thunk) (o : options) (fuel attempt : nat)
  (lastError : option E) (w : W) (tr : list event) : outcome :=
  match fuel with
  | O => (inr lastError, w, tr)
  | S fuel' =>
      match fn w with
      | (inl v, w') => (inl v, w', tr ++ [Attempt attempt])
      | (inr e, w') =>
          match unreadable e with
          | Some t => (inr (Some t), w', tr ++ [Attempt attempt])
          | None =>
              if Nat.eqb attempt (maxRetries_of o)
              then (inr (Some e), w', tr ++ [Attempt attempt])
              else retry_loop fn o fuel' (S attempt) (Some e) w'
                     (tr ++ [Attempt attempt; Wait (backoff o attempt)])
          end
      end
  end.

Definition retry (fn : thunk) (o : options) (w : W) : outcome :=
  retry_loop fn o (maxRetries_of o) 1 None w [].

(** The [k]-th call of the thunk when it is called over and over from
    [w] ([k >= 1]). *)
Fixpoint nth_call (fn : thunk) (w : W) (k : nat) : option ((V + E) * W) :=
  match k with
  | O => None
  | S O => Some (fn w)
  | S k' => nth_call fn (snd (fn w)) k'
  end.

End retry.

(** The schedule the documentation promises for [n] attempts:
    attempt 1, then for each later attempt [k] the wait and the attempt. *)
Definition schedule (o : options) (n : nat) : list event :=
  match n with
  | O => []
  | S m =>
      Attempt 1 ::
      flat_map (fun k => [Wait (Z.min (baseDelay_of o * 2 ^ (Z.of_nat k - 2))
                                      (maxDelay_of o));
                          Attempt k])
               (seq 2 m)
  end.

(** Events of a loop that enters with [attempt] and runs [m] iterations. *)
Definition loop_events (o : options) (attempt m : nat) : list event :=
  match m with
  | O => []
  | S m' =>
      Attempt attempt ::
      flat_map (fun k => [Wait (backoff o (k - 1)); Attempt k])
               (seq (S attempt) m')
  end.

End Retry.

(** ** config/sync-config.js *)

Module Config.

(** The [sync] block.  [batchSize] and the delay are numbers in the
    source; the shipped values are naturals. *)
Record sync := {
  dryRun : bool;
  batchSize : nat;
  delayBetweenBatches : nat;
  continueOnError : bool
}.

Definition shipped : sync :=
  {| dryRun := true; batchSize := 10; delayBetweenBatches := 1000;
     continueOnError := false |}.

Definition DELETED_DEPARTMENT : string := "Удалены".
Definition TEAM_SUFFIX : string := " - Общая".

Definition getTeamName (departmentName : string) : string :=
  departmentName +:+ " - Общая".

Definition password : string := "enecaworkPass".
Definition workFormat : string := "В офисе".
Definition employmentRate : nat := 1.
Definition salary : nat := 0.
Definition isHourly : bool := true.

End Config.

(** ** Records exchanged between the modules *)

Module Data.

(** An entry of [stats.missing_in_supabase]; the create phase receives
    these as [usersToCreate]. *)
Record MissingUser := {
  mu_email : string;
  mu_first_name : string;
  mu_last_name : string;
  mu_name : string;
  mu_department : string;
  mu_ws_group : string;
  mu_ws_title : string
}.

(** An entry of [stats.deleted_from_ws]; the soft-delete phase receives
    these as [usersToDelete]. *)
Record DeletedUser := {
  du_user_id : string;
  du_email : string;
  du_first_name : string;
  du_last_name : string;
  du_name : string;
  du_departmentName : string;
  du_supa_department : string;
  du_team_name : option string;
  du_position_name : option string;
  du_category_name : option string
}.

(** [refData] of sync-helpers.js, as the two phases read it. *)
Record RefData := {
  subdivisionId : string;
  departmentMap : gmap string string;
  teamMap : gmap string string;
  deletedDepartmentId : string;
  deletedTeamId : string;
  positionId : string;
  categoryId : string;
  roleId : string
}.

(** The fields shared by [user_metadata] and the [profiles] row.
    [p_department_id] is whatever [refData.departmentMap[departmentName]]
    evaluates to, [p_team_id] what [refData.teamMap[...]] does. *)
Record Profile := {
  p_first_name : string;
  p_last_name : string;
  p_subdivision_id : string;
  p_department_id : JS.Member string;
  p_team_id : option string;
  p_position_id : string;
  p_category_id : string;
  p_work_format : string;
  p_employment_rate : nat;
  p_salary : nat;
  p_is_hourly : bool
}.

(** One line of [stats.details]. *)
Inductive Status :=
| Created (userId : string)
| Failed (error : string)
| ValidationError (error : string)
| MovedToDeleted.

Record Detail := {
  d_email : string;
  d_department : string;
  d_status : Status
}.

End Data.

(** ** utils/progress-tracker.js: the ledger record *)

Module Ledger.

Record Counters := {
  created : nat;
  deleted : nat;
  errors : nat
}.

Record Progress := {
  startTime : option nat;
  lastUpdate : option nat;
  phase : option string;
  processedEmails : list string;
  stats : Counters
}.

Definition zero : Counters := {| created := 0; deleted := 0; errors := 0 |}.

(** The value of [this.progress] set by the constructor and by [clear]. *)
Definition blank : Progress :=
  {| startTime := None; lastUpdate := None; phase := None;
     processedEmails := []; stats := zero |}.

End Ledger.

(** ** The world the two phases run in

    What the phases touch outside their arguments: the ledger file, the
    tracker singleton, the identities of the remote store, the clock, and
    the chronological list of the remote calls, file operations and timer
    waits they issue. *)

Module Sys.
Import Data Ledger.

Inductive Event :=
| AuthCreateUser (email password : string) (user_metadata : Profile)
| ProfileUpsert (user_id email : string) (row : Profile)
| RoleInsert (user_id role_id : string)
| AuthDeleteUser (user_id : string)
| ProfileUpdate (user_id department_id team_id : string)
| Mkdir
| ReadFile
| WriteFile (content : Progress)
| Unlink
| Sleep (ms : nat).

(** What a remote call answers: a result without error (carrying the
    id of the identity, read only after [AuthCreateUser]), a result with
    its [error] field set, or a rejected promise. *)
Inductive Response :=
| Ok (id : string)
| Err (message : string)
| Throw (message : string).

(** The remote store seen from the client: the answer may depend on
    everything issued so far. *)
Definition Remote := list Event -> Event -> Response.

Record World := {
  fs_file : option Progress;
  tracker : Progress;
  auth_users : gset string;
  clock : nat;
  trace : list Event
}.

Definition M (A : Type) : Type := World -> A * World.

Definition ret {A} (a : A) : M A := fun w => (a, w).

Definition bind {A B} (m : M A) (k : A -> M B) : M B :=
  fun w => let (a, w') := m w in k a w'.

Definition emit (e : Event) : M unit := fun w =>
  (tt, {| fs_file := fs_file w; tracker := tracker w;
          auth_users := auth_users w; clock := clock w;
          trace := trace w ++ [e] |}).

Definition set_tracker (p : Progress) : M unit := fun w =>
  (tt, {| fs_file := fs_file w; tracker := p;
          auth_users := auth_users w; clock := clock w;
          trace := trace w |}).

Definition set_file (f : option Progress) : M unit := fun w =>
  (tt, {| fs_file := f; tracker := tracker w;
          auth_users := auth_users w; clock := clock w;
          trace := trace w |}).

Definition get_tracker : M Progress := fun w => (tracker w, w).
Definition get_file : M (option Progress) := fun w => (fs_file w, w).
Definition now : M nat := fun w => (clock w, w).

(** [await new Promise(resolve => setTimeout(resolve, ms))] *)
Definition sleep (ms : nat) : M unit := fun w =>
  (tt, {| fs_file := fs_file w; tracker := tracker w;
          auth_users := auth_users w; clock := clock w + ms;
          trace := trace w ++ [Sleep ms] |}).

(** Effect of an answered call on the identities of the store. *)
Definition store_after (users : gset string) (e : Event) (r : Response)
  : gset string :=
  match e, r with
  | AuthCreateUser _ _ _, Ok id => {[ id ]} ∪ users
  | AuthDeleteUser id, Ok _ => users ∖ {[ id ]}
  | _, _ => users
  end.

(** Issue a remote call and await its answer. *)
Definition call (remote : Remote) (e : Event) : M Response := fun w =>
  let r := remote (trace w) e in
  (r, {| fs_file := fs_file w; tracker := tracker w;
         auth_users := store_after (auth_users w) e r; clock := clock w;
         trace := trace w ++ [e] |}).

Definition is_remote (e : Event) : bool :=
  match e with
  | AuthCreateUser _ _ _ | ProfileUpsert _ _ _ | RoleInsert _ _
  | AuthDeleteUser _ | ProfileUpdate _ _ _ => true
  | _ => false
  end.

Definition is_file_change (e : Event) : bool :=
  match e with
  | Mkdir | WriteFile _ | Unlink => true
  | _ => false
  end.

End Sys.

Notation "x <- m ;; k" := (Sys.bind m (fun x => k))
  (at level 100, m at next level, right associativity).
Notation "m ;;; k" := (Sys.bind m (fun _ => k))
  (at level 100, right associativity).

(** ** utils/progress-tracker.js: the operations *)

Module Tracker.
Import Ledger Sys.

Definition ensureDir : M unit := emit Mkdir.

(** [save]: stamp [lastUpdate] and write the whole ledger. *)
Definition save : M unit :=
  ensureDir ;;;
  p <- get_tracker ;;
  t <- now ;;
  let p' := {| startTime := startTime p; lastUpdate := Some t;
               phase := phase p; processedEmails := processedEmails p;
               stats := stats p |} in
  set_tracker p' ;;;
  emit (WriteFile p') ;;;
  set_file (Some p').

Definition init (ph : string) : M unit :=
  t <- now ;;
  set_tracker {| startTime := Some t; lastUpdate := Some t;
                 phase := Some ph; processedEmails := []; stats := zero |} ;;;
  ensureDir ;;;
  save.

(** [load]: [true] when a ledger file was found. *)
Definition load : M bool :=
  emit ReadFile ;;;
  f <- get_file ;;
  match f with
  | Some p => set_tracker p ;;; ret true
  | None => ret false
  end.

Definition count (success : bool) (ph : option string) (c : Counters)
  : Counters :=
  if success then
    if bool_decide (ph = Some "create") then
      {| created := S (created c); deleted := deleted c; errors := errors c |}
    else if bool_decide (ph = Some "delete") then
      {| created := created c; deleted := S (deleted c); errors := errors c |}
    else c
  else {| created := created c; deleted := deleted c; errors := S (errors c) |}.

Definition addProcessed (email : string) (success : bool) : M unit :=
  p <- get_tracker ;;
  let p' := {| startTime := startTime p; lastUpdate := lastUpdate p;
               phase := phase p;
               processedEmails := processedEmails p ++ [email];
               stats := count success (phase p) (stats p) |} in
  set_tracker p' ;;;
  if Nat.eqb (length (processedEmails p') mod 10) 0 then save else ret tt.

(** [processedEmails.includes(email)] *)
Definition isProcessed (p : Progress) (email : string) : bool :=
  existsb (String.eqb email) (processedEmails p).

Definition filterUnprocessed (p : Progress) (users : list Data.MissingUser)
  : list Data.MissingUser :=
  List.filter (fun user => negb (isProcessed p (Data.mu_email user))) users.

Definition clear : M unit :=
  emit Unlink ;;;
  set_file None ;;;
  set_tracker blank.

End Tracker.

(** ** sync/user-create.js *)

Module UserCreate.
Import Data Sys.

Definition quote : string := String (ascii_of_nat 34) EmptyString.

Definition department_not_found (department : string) : string :=
  "Отдел " +:+ quote +:+ department +:+ quote +:+ " не найден в базе данных".

(** [validateUser]: the list of error messages, empty when valid.
    [!refData.departmentMap[user.department]] holds for an id that is
    missing or empty; a department named like a member of
    [Object.prototype] passes the test. *)
Definition validateUser (user : MissingUser) (refData : RefData)
  : list string :=
  (if JS.falsy (mu_email user) then ["Email отсутствует"]
   else if negb (JS.includes (mu_email user) "@")
        then ["Email имеет неверный формат"] else [])
  ++
  (if JS.falsy (mu_name user) || JS.trim_is_empty (mu_name user)
   then ["Имя отсутствует или пустое"] else [])
  ++
  (if JS.falsy (mu_department user) then ["Отдел отсутствует"]
   else match JS.get (departmentMap refData) (mu_department user) with
        | JS.Own id =>
            if JS.falsy id
            then [department_not_found (mu_department user)]
            else []
        | JS.Inherited _ => []
        | JS.Undefined => [department_not_found (mu_department user)]
        end).

Definition valid (user : MissingUser) (refData : RefData) : bool :=
  Nat.eqb (length (validateUser user refData)) 0.

(** [errors.join(sep)] *)
Fixpoint join (sep : string) (l : list string) : string :=
  match l with
  | [] => EmptyString
  | [x] => x
  | x :: r => x +:+ sep +:+ join sep r
  end.

(** The argument of [createUser]. *)
Record WsUser := {
  email : string;
  first_name : string;
  last_name : string
}.

Record Result := {
  success : bool;
  userId : option string;
  error : option string
}.

Definition failure (message : string) : Result :=
  {| success := false; userId := None; error := Some message |}.

(** The profile sent for a user.  The key read in [teamMap] ends in the
    team suffix, which no name of [Object.prototype] does: that lookup
    gives the own value or [undefined]. *)
Definition profile_of (wsUser : WsUser) (departmentName : string)
  (refData : RefData) : Profile :=
  {| p_first_name := first_name wsUser;
     p_last_name := last_name wsUser;
     p_subdivision_id := subdivisionId refData;
     p_department_id := JS.get (departmentMap refData) departmentName;
     p_team_id := teamMap refData !! Config.getTeamName departmentName;
     p_position_id := positionId refData;
     p_category_id := categoryId refData;
     p_work_format := Config.workFormat;
     p_employment_rate := Config.employmentRate;
     p_salary := Config.salary;
     p_is_hourly := Config.isHourly |}.

Section remote.
Variable remote : Remote.

(** The inner [try] block of [createUser]: profile, then role.
    [inr message] is the error it throws. *)
Definition profile_and_role (wsUser : WsUser) (departmentName : string)
  (refData : RefData) (uid : string) : M (unit + string) :=
  p <- call remote (ProfileUpsert uid (email wsUser)
                      (profile_of wsUser departmentName refData)) ;;
  match p with
  | Throw m => ret (inr m)
  | Err m => ret (inr ("Profile error: " +:+ m))
  | Ok _ =>
      r <- call remote (RoleInsert uid (roleId refData)) ;;
      match r with
      | Throw m => ret (inr m)
      | Err m =>
          if JS.includes m "duplicate" then ret (inl tt)
          else ret (inr ("Role error: " +:+ m))
      | Ok _ => ret (inl tt)
      end
  end.

(** The inner [catch]: delete the identity, then rethrow.  The answer
    of [deleteUser] is awaited and not looked at; a rejection leaves the
    handler with the rejection instead of the caught error. *)
Definition rollback (uid : string) (caught : string) : M string :=
  d <- call remote (AuthDeleteUser uid) ;;
  match d with
  | Throw m => ret m
  | _ => ret caught
  end.

Definition createUser (wsUser : WsUser) (departmentName : string)
  (refData : RefData) : M Result :=
  a <- call remote (AuthCreateUser (email wsUser) Config.password
                      (profile_of wsUser departmentName refData)) ;;
  match a with
  | Throw m => ret (failure m)
  | Err m => ret (failure ("Auth error: " +:+ m))
  | Ok uid =>
      body <- profile_and_role wsUser departmentName refData uid ;;
      match body with
      | inl _ => ret {| success := true; userId := Some uid; error := None |}
      | inr caught =>
          thrown <- rollback uid caught ;;
          ret (failure thrown)
      end
  end.

Record Stats := {
  created : nat;
  errors : nat;
  details : list Detail
}.

Definition no_stats : Stats := {| created := 0; errors := 0; details := [] |}.

(** The [forEach] that splits the unprocessed users: valid ones are
    kept, each invalid one bumps [errors] and leaves a detail line. *)
Definition validate_step (refData : RefData)
  (acc : list MissingUser * Stats) (user : MissingUser)
  : list MissingUser * Stats :=
  let (validUsers, st) := acc in
  let errs := validateUser user refData in
  if Nat.eqb (length errs) 0 then (validUsers ++ [user], st)
  else (validUsers,
        {| created := created st; errors := S (errors st);
           details := details st ++
             [{| d_email := JS.or_default (mu_email user) "unknown";
                 d_department := JS.or_default (mu_department user) "unknown";
                 d_status := ValidationError (join "; " errs) |}] |}).

Definition validate_all (refData : RefData) (users : list MissingUser)
  : list MissingUser * Stats :=
  fold_left (validate_step refData) users ([], no_stats).

(** The argument built for [createUser] in the loop. *)
Definition ws_user_of (user : MissingUser) : WsUser :=
  {| email := mu_email user;
     first_name := JS.at_or_empty (JS.split_space (mu_name user)) 0;
     last_name := JS.at_or_empty (JS.split_space (mu_name user)) 1 |}.

(** [i < n - 1 && i % batchSize === 0]; [i % 0] is [NaN]. *)
Definition pause_due (cfg : Config.sync) (n i : nat) : bool :=
  Nat.ltb i (n - 1) && negb (Nat.eqb (Config.batchSize cfg) 0)
  && Nat.eqb (i mod Config.batchSize cfg) 0.

Definition pace (cfg : Config.sync) (n i : nat) : M unit :=
  if pause_due cfg n i then sleep (Config.delayBetweenBatches cfg)
  else ret tt.

(** The [for (let i = 0; i < validUsers.length; i++)] loop from index
    [i] on; [n] is [validUsers.length], [users] the elements from [i]. *)
Fixpoint create_loop (cfg : Config.sync) (refData : RefData) (n i : nat)
  (users : list MissingUser) (st : Stats) : M Stats :=
  match users with
  | [] => ret st
  | user :: rest =>
      result <- createUser (ws_user_of user) (mu_department user) refData ;;
      if success result then
        let st' :=
          {| created := S (created st); errors := errors st;
             details := details st ++
               [{| d_email := mu_email user;
                   d_department := mu_department user;
                   d_status := Created (default EmptyString (userId result)) |}] |} in
        Tracker.addProcessed (mu_email user) true ;;;
        pace cfg n i ;;;
        create_loop cfg refData n (S i) rest st'
      else
        let st' :=
          {| created := created st; errors := S (errors st);
             details := details st ++
               [{| d_email := mu_email user;
                   d_department := mu_department user;
                   d_status := Failed (default EmptyString (error result)) |}] |} in
        Tracker.addProcessed (mu_email user) false ;;;
        if negb (Config.continueOnError cfg) then
          Tracker.save ;;; ret st'
        else
          pace cfg n i ;;;
          create_loop cfg refData n (S i) rest st'
  end.

Definition createUsers (cfg : Config.sync) (usersToCreate : list MissingUser)
  (refData : RefData) : M Stats :=
  hasProgress <- Tracker.load ;;
  (if hasProgress then ret tt else Tracker.init "create") ;;;
  p <- get_tracker ;;
  let unprocessedUsers := Tracker.filterUnprocessed p usersToCreate in
  if Nat.eqb (length unprocessedUsers) 0 then
    Tracker.clear ;;; ret no_stats
  else
    let (validUsers, st) := validate_all refData unprocessedUsers in
    if Nat.eqb (length validUsers) 0 then ret st
    else if Config.dryRun cfg then ret st
    else
      st' <- create_loop cfg refData (length validUsers) 0 validUsers st ;;
      Tracker.clear ;;;
      ret st'.

End remote.
End UserCreate.

(** ** sync/user-delete.js *)

Module UserDelete.
Import Data Sys.

Record Result := {
  success : bool;
  error : option string
}.

Record Stats := {
  deleted : nat;
  errors : nat;
  details : list Detail
}.

Definition no_stats : Stats := {| deleted := 0; errors := 0; details := [] |}.

Section remote.
Variable remote : Remote.

Definition softDeleteUser (user : DeletedUser) (refData : RefData)
  : M Result :=
  r <- call remote (ProfileUpdate (du_user_id user)
                      (deletedDepartmentId refData) (deletedTeamId refData)) ;;
  match r with
  | Ok _ => ret {| success := true; error := None |}
  | Err m => ret {| success := false; error := Some ("Update error: " +:+ m) |}
  | Throw m => ret {| success := false; error := Some m |}
  end.

(** The [for] loop of [softDeleteUsers] from index [i] on. *)
Fixpoint delete_loop (cfg : Config.sync) (refData : RefData) (n i : nat)
  (users : list DeletedUser) (st : Stats) : M Stats :=
  match users with
  | [] => ret st
  | user :: rest =>
      result <- softDeleteUser user refData ;;
      if success result then
        let st' :=
          {| deleted := S (deleted st); errors := errors st;
             details := details st ++
               [{| d_email := du_email user;
                   d_department := du_supa_department user;
                   d_status := MovedToDeleted |}] |} in
        UserCreate.pace cfg n i ;;;
        delete_loop cfg refData n (S i) rest st'
      else
        let st' :=
          {| deleted := deleted st; errors := S (errors st);
             details := details st ++
               [{| d_email := du_email user;
                   d_department := du_supa_department user;
                   d_status := Failed (default EmptyString (error result)) |}] |} in
        if negb (Config.continueOnError cfg) then ret st'
        else
          UserCreate.pace cfg n i ;;;
          delete_loop cfg refData n (S i) rest st'
  end.

Definition softDeleteUsers (cfg : Config.sync)
  (usersToDelete : list DeletedUser) (refData : RefData) : M Stats :=
  if Config.dryRun cfg then ret no_stats
  else delete_loop cfg refData (length usersToDelete) 0 usersToDelete no_stats.

End remote.
End UserDelete.

(** ** scripts/compare-users.js *)

Module Compare.
Import Data.

(** A user as [ws.getUsers()] returns it. *)
Record SourceUser := {
  ws_email : string;
  ws_first_name : string;
  ws_last_name : string;
  ws_group : string;
  ws_title : string
}.

(** A user as [supabase.getUsers()] returns it; the name fields are
    [null] when the joined row is missing. *)
Record SupaUser := {
  su_user_id : string;
  su_email : string;
  su_first_name : string;
  su_last_name : string;
  su_department_name : option string;
  su_team_name : option string;
  su_position_name : option string;
  su_category_name : option string
}.

Record DeptMissing := {
  dm_email : string;
  dm_name : string;
  dm_ws_title : string
}.

Record DeptExtra := {
  de_email : string;
  de_name : string
}.

Record Difference := {
  df_email : string;
  df_name : string;
  df_ws_expected : string;
  df_supa_actual : option string;
  df_ws_title : string
}.

Record DeptStats := {
  ws_count : nat;
  supa_count : nat;
  dept_missing_in_supabase : list DeptMissing;
  extra_in_supabase : list DeptExtra;
  department_differences : list Difference
}.

Record Stats := {
  ws_total : nat;
  supa_total : nat;
  matched : nat;
  missing_in_supabase : list MissingUser;
  deleted_from_ws : list DeletedUser;
  by_department : gmap string DeptStats
}.

Definition DEKRET : string := "Декрет".

Definition empty_dept : DeptStats :=
  {| ws_count := 0; supa_count := 0; dept_missing_in_supabase := [];
     extra_in_supabase := []; department_differences := [] |}.

(** [`${first_name} ${last_name}`] *)
Definition full_name (first last : string) : string :=
  first +:+ " " +:+ last.

Definition set_by_department (m : gmap string DeptStats) (st : Stats) : Stats :=
  {| ws_total := ws_total st; supa_total := supa_total st;
     matched := matched st; missing_in_supabase := missing_in_supabase st;
     deleted_from_ws := deleted_from_ws st; by_department := m |}.

(** [stats.by_department[d].list.push(entry)]: the entry of an own key
    is updated.  The property access throws when [stats.by_department[d]]
    is [undefined], and so does the call of [push] when it is a member of
    [Object.prototype], which has no such list; the [catch] of
    [compareUsers] then ends the process: [None]. *)
Definition with_dept (d : string) (f : DeptStats -> DeptStats) (st : Stats)
  : option Stats :=
  match JS.get (by_department st) d with
  | JS.Own ds => Some (set_by_department (<[d := f ds]> (by_department st)) st)
  | JS.Inherited _ | JS.Undefined => None
  end.

(** [stats.by_department[d].ws_count++]: the counter of an own key is
    incremented.  On a member of [Object.prototype] the increment sets a
    property of that member and changes nothing in the statistics; on
    [undefined] the property access throws. *)
Definition count_dept (d : string) (f : DeptStats -> DeptStats) (st : Stats)
  : option Stats :=
  match JS.get (by_department st) d with
  | JS.Own ds => Some (set_by_department (<[d := f ds]> (by_department st)) st)
  | JS.Inherited _ => Some st
  | JS.Undefined => None
  end.

Definition incr_ws (ds : DeptStats) : DeptStats :=
  {| ws_count := S (ws_count ds); supa_count := supa_count ds;
     dept_missing_in_supabase := dept_missing_in_supabase ds;
     extra_in_supabase := extra_in_supabase ds;
     department_differences := department_differences ds |}.

Definition incr_supa (ds : DeptStats) : DeptStats :=
  {| ws_count := ws_count ds; supa_count := S (supa_count ds);
     dept_missing_in_supabase := dept_missing_in_supabase ds;
     extra_in_supabase := extra_in_supabase ds;
     department_differences := department_differences ds |}.

Definition push_missing (x : DeptMissing) (ds : DeptStats) : DeptStats :=
  {| ws_count := ws_count ds; supa_count := supa_count ds;
     dept_missing_in_supabase := dept_missing_in_supabase ds ++ [x];
     extra_in_supabase := extra_in_supabase ds;
     department_differences := department_differences ds |}.

Definition push_extra (x : DeptExtra) (ds : DeptStats) : DeptStats :=
  {| ws_count := ws_count ds; supa_count := supa_count ds;
     dept_missing_in_supabase := dept_missing_in_supabase ds;
     extra_in_supabase := extra_in_supabase ds ++ [x];
     department_differences := department_differences ds |}.

Definition push_difference (x : Difference) (ds : DeptStats) : DeptStats :=
  {| ws_count := ws_count ds; supa_count := supa_count ds;
     dept_missing_in_supabase := dept_missing_in_supabase ds;
     extra_in_supabase := extra_in_supabase ds;
     department_differences := department_differences ds ++ [x] |}.

Definition push_global_missing (x : MissingUser) (st : Stats) : Stats :=
  {| ws_total := ws_total st; supa_total := supa_total st;
     matched := matched st;
     missing_in_supabase := missing_in_supabase st ++ [x];
     deleted_from_ws := deleted_from_ws st;
     by_department := by_department st |}.

Definition push_global_deleted (x : DeletedUser) (st : Stats) : Stats :=
  {| ws_total := ws_total st; supa_total := supa_total st;
     matched := matched st;
     missing_in_supabase := missing_in_supabase st;
     deleted_from_ws := deleted_from_ws st ++ [x];
     by_department := by_department st |}.

Definition incr_matched (st : Stats) : Stats :=
  {| ws_total := ws_total st; supa_total := supa_total st;
     matched := S (matched st);
     missing_in_supabase := missing_in_supabase st;
     deleted_from_ws := deleted_from_ws st;
     by_department := by_department st |}.

Section compare.

(** [String.prototype.toLowerCase]: any function on strings. *)
Variable toLowerCase : string -> string.

(** Modelled from the spec: config/department-mapping.js is not among
    the sources.  [mapDepartment] is the unit-resolution function of the
    Comparator: from a source group label to a tracked unit name, or
    [null] for an unmapped label; [None] stands for that falsy result.
    [mappedDepartments] is what [getSupabaseDepartments()] returns, the
    tracked unit names.  Neither a listed name nor an answer of
    [mapDepartment] is taken to be [__proto__]: assigned to, that name
    creates no key of [stats.by_department], and the [ws_count++] of the
    source loop on what it finds would add a property to
    [Object.prototype] itself. *)
Variable mapDepartment : string -> option string.
Variable mappedDepartments : list string.

Definition isMaternityLeave (title : string) : bool :=
  if JS.falsy title then false
  else
    let titleLower := toLowerCase title in
    JS.includes titleLower "декрет" || JS.includes titleLower "дектрет".

(** [new Map()] filled by [forEach(u => map.set(key(u).toLowerCase(), u))]:
    a later record replaces an earlier one under the same key. *)
Definition index_by_email {A} (key : A -> string) (l : list A)
  : gmap string A :=
  fold_left (fun m u => <[toLowerCase (key u) := u]> m) l ∅.

(** The statistics before the loops: an empty entry for every mapped
    department, then one for the leave department. *)
Definition initial_departments : gmap string DeptStats :=
  <[DEKRET := empty_dept]>
    (fold_left (fun m dept => <[dept := empty_dept]> m) mappedDepartments ∅).

Definition initial (wsUsers : list SourceUser) (supaUsers : list SupaUser)
  : Stats :=
  {| ws_total := length wsUsers; supa_total := length supaUsers;
     matched := 0; missing_in_supabase := []; deleted_from_ws := [];
     by_department := initial_departments |}.

(** The department a source user is expected in: the mapped group,
    replaced by the leave department when the title says so; [None] when
    [!expectedDepartment] holds, also for an empty name. *)
Definition expectedDepartment (wsUser : SourceUser) : option string :=
  if isMaternityLeave (ws_title wsUser) then Some DEKRET
  else match mapDepartment (ws_group wsUser) with
       | Some d => if JS.falsy d then None else Some d
       | None => None
       end.

Definition missing_entry (wsUser : SourceUser) (d : string) : MissingUser :=
  {| mu_email := ws_email wsUser;
     mu_first_name := ws_first_name wsUser;
     mu_last_name := ws_last_name wsUser;
     mu_name := full_name (ws_first_name wsUser) (ws_last_name wsUser);
     mu_department := d;
     mu_ws_group := JS.or_default (ws_group wsUser) "(нет)";
     mu_ws_title := JS.or_default (ws_title wsUser) "(нет)" |}.

Definition dept_missing_entry (wsUser : SourceUser) : DeptMissing :=
  {| dm_email := ws_email wsUser;
     dm_name := full_name (ws_first_name wsUser) (ws_last_name wsUser);
     dm_ws_title := JS.or_default (ws_title wsUser) "(нет)" |}.

Definition difference_entry (wsUser : SourceUser) (d : string)
  (supaUser : SupaUser) : Difference :=
  {| df_email := ws_email wsUser;
     df_name := full_name (ws_first_name wsUser) (ws_last_name wsUser);
     df_ws_expected := d;
     df_supa_actual := su_department_name supaUser;
     df_ws_title := JS.or_default (ws_title wsUser) "(нет)" |}.

Definition deleted_entry (supaUser : SupaUser) (d : string) : DeletedUser :=
  {| du_user_id := su_user_id supaUser;
     du_email := su_email supaUser;
     du_first_name := su_first_name supaUser;
     du_last_name := su_last_name supaUser;
     du_name := full_name (su_first_name supaUser) (su_last_name supaUser);
     du_departmentName := d;
     du_supa_department := d;
     du_team_name := su_team_name supaUser;
     du_position_name := su_position_name supaUser;
     du_category_name := su_category_name supaUser |}.

Definition extra_entry (supaUser : SupaUser) : DeptExtra :=
  {| de_email := su_email supaUser;
     de_name := full_name (su_first_name supaUser) (su_last_name supaUser) |}.

(** One iteration of [for (const wsUser of wsUsers)]. *)
Definition ws_step (supaUsersByEmail : gmap string SupaUser) (st : Stats)
  (wsUser : SourceUser) : option Stats :=
  match expectedDepartment wsUser with
  | None => Some st
  | Some d =>
      match count_dept d incr_ws st with
      | None => None
      | Some st1 =>
          match supaUsersByEmail !! toLowerCase (ws_email wsUser) with
          | None =>
              with_dept d (push_missing (dept_missing_entry wsUser))
                (push_global_missing (missing_entry wsUser d) st1)
          | Some supaUser =>
              let st2 := incr_matched st1 in
              if bool_decide (su_department_name supaUser = Some d)
              then Some st2
              else with_dept d
                     (push_difference (difference_entry wsUser d supaUser)) st2
          end
      end
  end.

Fixpoint ws_loop (supaUsersByEmail : gmap string SupaUser) (st : Stats)
  (wsUsers : list SourceUser) : option Stats :=
  match wsUsers with
  | [] => Some st
  | wsUser :: rest =>
      match ws_step supaUsersByEmail st wsUser with
      | Some st' => ws_loop supaUsersByEmail st' rest
      | None => None
      end
  end.

(** One iteration of [for (const supaUser of supaUsers)].  A department
    that [stats.by_department] does not have is skipped; one that finds a
    member of [Object.prototype] passes the test, its [supa_count++]
    changes no statistics, and for a user the source does not have the
    [push] on [extra_in_supabase] throws. *)
Definition supa_step (wsUsersByEmail : gmap string SourceUser) (st : Stats)
  (supaUser : SupaUser) : option Stats :=
  match su_department_name supaUser with
  | None => Some st
  | Some d =>
      if JS.falsy d then Some st
      else match JS.get (by_department st) d with
           | JS.Undefined => Some st
           | JS.Inherited _ =>
               match wsUsersByEmail !! toLowerCase (su_email supaUser) with
               | Some _ => Some st
               | None => None
               end
           | JS.Own ds =>
               let st1 :=
                 set_by_department (<[d := incr_supa ds]> (by_department st)) st in
               match wsUsersByEmail !! toLowerCase (su_email supaUser) with
               | Some _ => Some st1
               | None =>
                   Some
                     (set_by_department
                        (<[d := push_extra (extra_entry supaUser) (incr_supa ds)]>
                           (by_department st))
                        (push_global_deleted (deleted_entry supaUser d) st1))
               end
           end
  end.

Fixpoint supa_loop (wsUsersByEmail : gmap string SourceUser) (st : Stats)
  (supaUsers : list SupaUser) : option Stats :=
  match supaUsers with
  | [] => Some st
  | supaUser :: rest =>
      match supa_step wsUsersByEmail st supaUser with
      | Some st' => supa_loop wsUsersByEmail st' rest
      | None => None
      end
  end.

(** [compareUsers] on the two fetched lists; [None] when the run ends in
    the [catch] block. *)
Definition compareUsers (wsUsers : list SourceUser)
  (supaUsers : list SupaUser) : option Stats :=
  let supaUsersByEmail := index_by_email su_email supaUsers in
  let wsUsersByEmail := index_by_email ws_email wsUsers in
  match ws_loop supaUsersByEmail (initial wsUsers supaUsers) wsUsers with
  | Some st => supa_loop wsUsersByEmail st supaUsers
  | None => None
  end.

End compare.
End Compare.

(** ** sync/sync-manager.js: what is handed to the two phases *)

Module SyncManager.
Import Data.

(** [missing_in_supabase.filter(user => user.department !== 'Декрет')] *)
Definition usersToCreate (compareStats : Compare.Stats) : list MissingUser :=
  List.filter (fun user => negb (String.eqb (mu_department user) Compare.DEKRET))
    (Compare.missing_in_supabase compareStats).

(** [deleted_from_ws.filter(user => user.departmentName !== 'Декрет')] *)
Definition usersToDelete (compareStats : Compare.Stats) : list DeletedUser :=
  List.filter
    (fun user => negb (String.eqb (du_departmentName user) Compare.DEKRET))
    (Compare.deleted_from_ws compareStats).

End SyncManager.

(** * The loader, the coordinator, the configuration and the schedule

    - [sync/sync-helpers.js]       -> Module [Loader]
    - [sync/sync-manager.js]       -> Module [Manager] (the whole run)
    - [config/env.js]              -> Module [Env]
    - [scripts/scheduled-sync.js]  -> Module [Scheduled] *)

From Stdlib Require Import DecimalString.

(** ** sync/sync-helpers.js: loading the reference data *)

Module Loader.
Import Data.

(** Constants of config/sync-config.js that only the loader reads. *)
Definition PRODUCTION_SUBDIVISION : string := "Производственные отделы".
Definition positionName : string := "Без должности".
Definition categoryName : string := "Не применяется".
Definition roleName : string := "user".

(** A plain object filled by assignments, its keys in insertion order
    (the names are not array indices).  The loader writes it from the
    rows it asked for and reads it under the listed production names,
    the deleted department and their team names; these names are taken
    not to be names of [Object.prototype], so that an assignment creates
    the key and a lookup finds the own value or nothing. *)
Definition Obj : Type := list (string * string).

(** [o[k] = v] *)
Fixpoint obj_set (k v : string) (o : Obj) : Obj :=
  match o with
  | [] => [(k, v)]
  | (k', v') :: r =>
      if String.eqb k' k then (k, v) :: r else (k', v') :: obj_set k v r
  end.

(** [o[k]] *)
Fixpoint obj_get (k : string) (o : Obj) : option string :=
  match o with
  | [] => None
  | (k', v) :: r => if String.eqb k' k then Some v else obj_get k r
  end.

(** [!o[k]] *)
Definition obj_lacks (o : Obj) (k : string) : bool :=
  match obj_get k o with
  | Some v => JS.falsy v
  | None => true
  end.

(** [Object.values(o)] *)
Definition obj_values (o : Obj) : list string := map snd o.

(** The object as the two phases read it. *)
Definition obj_map (o : Obj) : gmap string string := list_to_map o.

(** A row of a queried table: its id, its name and, for a department,
    its subdivision, for a team, its department. *)
Record Row := {
  row_id : string;
  row_name : string;
  row_parent : string
}.

(** What an awaited query resolves to: [{ data, error }]. *)
Record Answer (A : Type) := {
  data : option A;
  error : option string
}.
Arguments data {A} _.
Arguments error {A} _.

Inductive Query :=
| Subdivision (subdivision_name : string)
| Departments (department_names : list string)
| Teams (department_ids : list string)
| Position (position_name : string)
| Category (category_name : string)
| Role (role_name : string).

(** The database seen from the client: given the queries issued so far,
    a query resolves to an answer or its promise is rejected.  [one]
    answers the [.single()] queries, [many] the others. *)
Record Store := {
  one : list Query -> Query -> Answer Row + string;
  many : list Query -> Query -> Answer (list Row) + string
}.

(** What [loadReferenceData] may throw: an [Error] it builds, the last
    rejection [retry] rethrows ([None]: [undefined]), or the [TypeError]
    of a method call on a [null] [data]. *)
Inductive Thrown :=
| Error (message : string)
| Rejected (reason : option string)
| TypeError.

(** The queries issued so far, and the attempts and waits of the
    [retry] runs. *)
Definition State : Type := list Query * list Retry.event.

Definition L (A : Type) : Type := State -> (A + Thrown) * State.

#[global] Instance L_ret : MRet L := fun A a s => (inl a, s).

#[global] Instance L_bind : MBind L := fun A B k m s =>
  match m s with
  | (inl a, s') => k a s'
  | (inr t, s') => (inr t, s')
  end.

Definition throw {A} (t : Thrown) : L A := fun s => (inr t, s).

(** [{ maxRetries: 3, operationName }] *)
Definition options : Retry.options :=
  {| Retry.maxRetries := Some 3; Retry.baseDelay := None;
     Retry.maxDelay := None |}.

(** The client rejects a query with an [Error]; the model keeps its
    message, which the log lines of [retry] can always read. *)
#[global] Instance message_rejection : Retry.Rejection string := fun _ => None.

(** [await retry(() => <query>, { maxRetries: 3, ... })] *)
Definition query {A} (ask : list Query -> Query -> Answer A + string)
  (q : Query) : L (Answer A) := fun s =>
  match Retry.retry (fun log => (ask log q, log ++ [q])) options s.1 with
  | (inl a, log, tr) => (inl a, (log, s.2 ++ tr))
  | (inr e, log, tr) => (inr (Rejected e), (log, s.2 ++ tr))
  end.

Definition quoted (s : string) : string :=
  UserCreate.quote +:+ s +:+ UserCreate.quote.

Definition newline : string := String (ascii_of_nat 10) EmptyString.

(** A number in a template string. *)
Definition show (n : nat) : string := NilZero.string_of_uint (Nat.to_uint n).

(** A [.single()] query followed by [if (error || !data) throw ...]. *)
Definition found (st : Store) (q : Query) (message : string) : L Row :=
  a ← query (one st) q;
  match error a, data a with
  | None, Some row => mret row
  | _, _ => throw (Error message)
  end.

Definition ensureTeamsExist (productionDepartments : list string)
  (teamMap : Obj) : L unit :=
  let missingTeams :=
    List.filter (obj_lacks teamMap)
      (map Config.getTeamName productionDepartments) in
  if Nat.ltb 0 (length missingTeams) then
    throw (Error
      ("Не найдены команды в базе данных (" +:+ show (length missingTeams)
       +:+ "): " +:+ UserCreate.join ", " (map quoted missingTeams)
       +:+ newline +:+ newline
       +:+ "Пожалуйста, создайте эти команды вручную в таблице teams с правильными department_id."))
  else mret tt.

(** [loadDefaultValues]: the ids of the default position, category and
    role. *)
Definition loadDefaultValues (st : Store) : L (string * string * string) :=
  position ← found st (Position positionName)
    ("Не найдена должность " +:+ quoted positionName);
  category ← found st (Category categoryName)
    ("Не найдена категория " +:+ quoted categoryName);
  role ← found st (Role roleName)
    ("Не найдена роль " +:+ quoted roleName);
  mret (row_id position, row_id category, row_id role).

(** The department is of another subdivision than the production one
    and is not the deleted department. *)
Definition wrong_subdivision (subdivisionId : string) (dept : Row) : bool :=
  negb (String.eqb (row_name dept) Config.DELETED_DEPARTMENT)
  && negb (String.eqb (row_parent dept) subdivisionId).

(** [rows.forEach(row => { map[row.name] = row.id })] *)
Definition fill (rows : list Row) : Obj :=
  fold_left (fun o row => obj_set (row_name row) (row_id row) o) rows [].

(** Modelled from the spec: [productionDepartments] is what
    [getSupabaseDepartments()] of config/department-mapping.js returns,
    the tracked unit names. *)
Definition loadReferenceData (st : Store) (productionDepartments : list string)
  : L RefData :=
  subdivision ← found st (Subdivision PRODUCTION_SUBDIVISION)
    ("Не найдено подразделение " +:+ quoted PRODUCTION_SUBDIVISION);
  let subdivisionId := row_id subdivision in
  let neededDepartments :=
    productionDepartments ++ [Config.DELETED_DEPARTMENT] in
  departments ← query (many st) (Departments neededDepartments);
  match error departments, data departments with
  | Some message, _ => throw (Error ("Ошибка загрузки отделов: " +:+ message))
  | None, None => throw TypeError
  | None, Some departments =>
      let wrongSubdivision :=
        List.filter (wrong_subdivision subdivisionId) departments in
      if Nat.ltb 0 (length wrongSubdivision) then
        throw (Error
          ("Отделы имеют неправильный subdivision_id (ожидается "
           +:+ subdivisionId +:+ "): "
           +:+ UserCreate.join ", " (map row_name wrongSubdivision)))
      else
        let departmentMap := fill departments in
        let missingDepartments :=
          List.filter (obj_lacks departmentMap) neededDepartments in
        if Nat.ltb 0 (length missingDepartments) then
          throw (Error ("Не найдены отделы в базе: "
                        +:+ UserCreate.join ", " missingDepartments))
        else
          teams ← query (many st) (Teams (obj_values departmentMap));
          match error teams, data teams with
          | Some message, _ =>
              throw (Error ("Ошибка загрузки команд: " +:+ message))
          | None, None => throw TypeError
          | None, Some teams =>
              let teamMap := fill teams in
              _ ← ensureTeamsExist productionDepartments teamMap;
              let deletedTeamName :=
                Config.getTeamName Config.DELETED_DEPARTMENT in
              if obj_lacks teamMap deletedTeamName then
                throw (Error ("Не найдена команда " +:+ quoted deletedTeamName))
              else
                defaults ← loadDefaultValues st;
                mret {| subdivisionId := subdivisionId;
                        departmentMap := obj_map departmentMap;
                        teamMap := obj_map teamMap;
                        deletedDepartmentId :=
                          default EmptyString
                            (obj_get Config.DELETED_DEPARTMENT departmentMap);
                        deletedTeamId :=
                          default EmptyString (obj_get deletedTeamName teamMap);
                        positionId := defaults.1.1;
                        categoryId := defaults.1.2;
                        roleId := defaults.2 |}
          end
  end.

End Loader.

(** ** sync/sync-manager.js: the coordinator *)

Module Manager.
Import Data Sys.

(** What [getDbCounts] returns; JavaScript numbers. *)
Record Counts := {
  profiles : Z;
  departments : Z;
  teams : Z;
  total : Z
}.

(** The lines of the report sent to Telegram. *)
Record CreatedLine := {
  cl_email : string;
  cl_first_name : string;
  cl_last_name : string;
  cl_department : string;
  cl_wsGroup : string;
  cl_wsTitle : string
}.

Record DeletedLine := {
  dl_email : string;
  dl_first_name : string;
  dl_last_name : string;
  dl_department : string;
  dl_team : string;
  dl_position : string;
  dl_category : string
}.

Record Mismatch := {
  mm_email : string;
  mm_first_name : string;
  mm_last_name : string;
  mm_wsDepartment : string;
  mm_supabaseDepartment : option string;
  mm_wsTitle : string
}.

(** [finalStats.users]; [unchanged] is a difference of two counts. *)
Record Users := {
  created : nat;
  deleted : nat;
  updated : nat;
  unchanged : Z;
  errors : nat
}.

(** [finalStats]; [details.errors] is never written and left out. *)
Record FinalStats := {
  duration : nat;
  users : Users;
  details_created : list Detail;
  details_deleted : list Detail;
  details_updated : list Compare.Difference;
  deletedUsers : list DeletedLine;
  createdUsers : list CreatedLine;
  departmentMismatches : list Mismatch;
  departmentStats : option (gmap string Compare.DeptStats)
}.

Definition no_users : Users :=
  {| created := 0; deleted := 0; updated := 0; unchanged := 0%Z; errors := 0 |}.

Definition initial_stats : FinalStats :=
  {| duration := 0; users := no_users; details_created := [];
     details_deleted := []; details_updated := []; deletedUsers := [];
     createdUsers := []; departmentMismatches := []; departmentStats := None |}.

(** [x || 'N/A'] for a field that may be [null] *)
Definition or_na (x : option string) : string :=
  match x with
  | Some s => JS.or_default s "N/A"
  | None => "N/A"
  end.

(** [name.split(' ').slice(1).join(' ')] *)
Definition rest_of_name (name : string) : string :=
  UserCreate.join " " (tl (JS.split_space name)).

Definition created_line (user : MissingUser) : CreatedLine :=
  {| cl_email := mu_email user;
     cl_first_name := mu_first_name user;
     cl_last_name := mu_last_name user;
     cl_department := JS.or_default (mu_department user) "N/A";
     cl_wsGroup := JS.or_default (mu_ws_group user) "N/A";
     cl_wsTitle := JS.or_default (mu_ws_title user) "N/A" |}.

Definition deleted_line (user : DeletedUser) : DeletedLine :=
  {| dl_email := du_email user;
     dl_first_name :=
       JS.or_default (du_first_name user)
         (JS.at_or_empty (JS.split_space (du_name user)) 0);
     dl_last_name :=
       JS.or_default (du_last_name user) (rest_of_name (du_name user));
     dl_department := JS.or_default (du_departmentName user) "N/A";
     dl_team := or_na (du_team_name user);
     dl_position := or_na (du_position_name user);
     dl_category := or_na (du_category_name user) |}.

Definition mismatch_line (user : Compare.Difference) : Mismatch :=
  {| mm_email := Compare.df_email user;
     mm_first_name := JS.at_or_empty (JS.split_space (Compare.df_name user)) 0;
     mm_last_name := rest_of_name (Compare.df_name user);
     mm_wsDepartment := Compare.df_ws_expected user;
     mm_supabaseDepartment := Compare.df_supa_actual user;
     mm_wsTitle := JS.or_default (Compare.df_ws_title user) "N/A" |}.

(** [createResult.details.filter(d => d.status === 'created')
      .map(d => d.email)] *)
Definition createdEmails (details : list Detail) : list string :=
  map d_email
    (List.filter (fun d => match d_status d with
                           | Created _ => true
                           | _ => false
                           end) details).

(** The [createdUsers] of a run: the whole plan in a dry run, else the
    items whose address is among the created ones. *)
Definition created_lines (cfg : Config.sync) (usersToCreate : list MissingUser)
  (createResult : UserCreate.Stats) : list CreatedLine :=
  if Config.dryRun cfg then map created_line usersToCreate
  else
    map created_line
      (List.filter
         (fun user =>
            existsb (String.eqb (mu_email user))
              (createdEmails (UserCreate.details createResult)))
         usersToCreate).

(** The keys of an object filled key by key, in the order of
    [for (const dept in ...)]: every key once, where it was first set
    (the names are not array indices). *)
Fixpoint insertion_order (seen l : list string) : list string :=
  match l with
  | [] => []
  | k :: r =>
      if existsb (String.eqb k) seen then insertion_order seen r
      else k :: insertion_order (k :: seen) r
  end.

(** What is outside the world of the two phases: the counts read
    before and after a notified run ([None] when a read is rejected),
    what [loadReferenceData] returns or throws, and the two lists
    [compareUsers] fetches ([None] when a fetch is rejected). *)
Record Outside := {
  countBefore : option Counts;
  reference : RefData + Loader.Thrown;
  fetched : option (list Compare.SourceUser * list Compare.SupaUser);
  countAfter : option Counts
}.

Section sync.
Variable remote : Remote.
Variable cfg : Config.sync.
Variable toLowerCase : string -> string.
Variable mapDepartment : string -> option string.
Variable mappedDepartments : list string.

Definition department_order : list string :=
  insertion_order [] (mappedDepartments ++ [Compare.DEKRET]).

(** The difference lists of the report, department after department. *)
Definition differences_in_order (by_department : gmap string Compare.DeptStats)
  : list Compare.Difference :=
  flat_map (fun dept => match by_department !! dept with
                        | Some deptStats =>
                            Compare.department_differences deptStats
                        | None => []
                        end) department_order.

(** [totalDifferences += deptStats.department_differences.length] over
    the departments. *)
Definition totalDifferences (by_department : gmap string Compare.DeptStats)
  : nat :=
  fold_left (fun total dept =>
               match by_department !! dept with
               | Some deptStats =>
                   total + length (Compare.department_differences deptStats)
               | None => total
               end) department_order 0.

(** The [catch] block: the duration, one more error, and the statistics
    as far as they were filled. *)
Definition bump (elapsed : nat) (st : FinalStats) : FinalStats :=
  {| duration := elapsed;
     users := {| created := created (users st);
                 deleted := deleted (users st);
                 updated := updated (users st);
                 unchanged := unchanged (users st);
                 errors := S (errors (users st)) |};
     details_created := details_created st;
     details_deleted := details_deleted st;
     details_updated := details_updated st;
     deletedUsers := deletedUsers st;
     createdUsers := createdUsers st;
     departmentMismatches := departmentMismatches st;
     departmentStats := departmentStats st |}.

Definition caught (startTime : nat) (st : FinalStats) : M (option FinalStats) :=
  endTime <- now ;;
  ret (Some (bump (endTime - startTime) st)).

(** Step 3, when the create plan is not empty. *)
Definition create_step (usersToCreate : list MissingUser) (refData : RefData)
  : M (nat * nat * list Detail * list CreatedLine) :=
  if Nat.ltb 0 (length usersToCreate) then
    createResult <- UserCreate.createUsers remote cfg usersToCreate refData ;;
    ret (UserCreate.created createResult, UserCreate.errors createResult,
         UserCreate.details createResult,
         created_lines cfg usersToCreate createResult)
  else ret (0, 0, [], []).

(** Step 5, when the soft-delete plan is not empty. *)
Definition delete_step (usersToDelete : list DeletedUser) (refData : RefData)
  : M (nat * nat * list Detail * list DeletedLine) :=
  if Nat.ltb 0 (length usersToDelete) then
    deleteResult <- UserDelete.softDeleteUsers remote cfg usersToDelete refData ;;
    ret (UserDelete.deleted deleteResult, UserDelete.errors deleteResult,
         UserDelete.details deleteResult, map deleted_line usersToDelete)
  else ret (0, 0, [], []).

(** [finalStats] once the five steps are done: [c] is what step 3 left,
    [d] what step 5 left. *)
Definition report (elapsed : nat) (compareStats : Compare.Stats)
  (c : nat * nat * list Detail * list CreatedLine)
  (d : nat * nat * list Detail * list DeletedLine) : FinalStats :=
  let total := totalDifferences (Compare.by_department compareStats) in
  let differences :=
    if Nat.ltb 0 total
    then differences_in_order (Compare.by_department compareStats)
    else [] in
  {| duration := elapsed;
     users :=
       {| created := c.1.1.1;
          deleted := d.1.1.1;
          updated := total;
          unchanged := Z.of_nat (Compare.matched compareStats) - Z.of_nat total;
          errors := c.1.1.2 + d.1.1.2 |};
     details_created := c.1.2;
     details_deleted := d.1.2;
     details_updated := differences;
     deletedUsers := d.2;
     createdUsers := c.2;
     departmentMismatches := map mismatch_line differences;
     departmentStats := Some (Compare.by_department compareStats) |}.

(** [syncUsers(sendNotifications)].  [None]: the process was ended by
    the [catch] block of [compareUsers].  The messages sent to Telegram
    and the console output are not part of the world. *)
Definition syncUsers (sendNotifications : bool) (out : Outside)
  : M (option FinalStats) :=
  startTime <- now ;;
  if sendNotifications && negb (bool_decide (is_Some (countBefore out)))
  then caught startTime initial_stats
  else
    match reference out with
    | inr _ => caught startTime initial_stats
    | inl refData =>
        match fetched out with
        | None => ret None
        | Some (wsUsers, supaUsers) =>
            match Compare.compareUsers toLowerCase mapDepartment
                    mappedDepartments wsUsers supaUsers with
            | None => ret None
            | Some compareStats =>
                c <- create_step (SyncManager.usersToCreate compareStats)
                       refData ;;
                d <- delete_step (SyncManager.usersToDelete compareStats)
                       refData ;;
                endTime <- now ;;
                let finalStats :=
                  report (endTime - startTime) compareStats c d in
                if sendNotifications
                   && negb (bool_decide (is_Some (countAfter out)))
                then caught startTime finalStats
                else ret (Some finalStats)
            end
        end
    end.

End sync.
End Manager.

(** ** config/env.js: the configuration and its validation *)

Module Env.

(** The environment variables the configuration reads; [None] is
    [undefined]. *)
Record Vars := {
  SUPABASE_URL : option string;
  SUPABASE_SERVICE_ROLE_KEY : option string;
  WORKSECTION_DOMAIN : option string;
  WORKSECTION_HASH : option string;
  TELEGRAM_BOT_TOKEN : option string;
  TELEGRAM_CHAT_ID : option string;
  TELEGRAM_CHAT_ID_2 : option string
}.

(** [!!x] for a variable *)
Definition truthy (x : option string) : bool :=
  match x with
  | Some s => negb (JS.falsy s)
  | None => false
  end.

Record Telegram := {
  enabled : bool;
  botToken : option string;
  chatId : option string;
  chatId2 : option string
}.

(** The part of [config] that [validateConfig] reads. *)
Record Config := {
  supabase_url : option string;
  supabase_key : option string;
  worksection_domain : option string;
  worksection_hash : option string;
  telegram : Telegram
}.

Definition config (env : Vars) : Config :=
  {| supabase_url := SUPABASE_URL env;
     supabase_key := SUPABASE_SERVICE_ROLE_KEY env;
     worksection_domain := WORKSECTION_DOMAIN env;
     worksection_hash := WORKSECTION_HASH env;
     telegram :=
       {| enabled := truthy (TELEGRAM_BOT_TOKEN env)
                     && truthy (TELEGRAM_CHAT_ID env);
          botToken := TELEGRAM_BOT_TOKEN env;
          chatId := TELEGRAM_CHAT_ID env;
          chatId2 := TELEGRAM_CHAT_ID_2 env |} |}.

Section validate.

(** [isNaN(parseInt(s))] for a string: any predicate on strings. *)
Variable isNaN_parseInt : string -> bool.

Definition required (c : Config) : list (string * option string) :=
  [("SUPABASE_URL", supabase_url c);
   ("SUPABASE_ANON_KEY", supabase_key c);
   ("WORKSECTION_DOMAIN", worksection_domain c);
   ("WORKSECTION_HASH", worksection_hash c)].

(** [validateConfig]: [None] when it returns, [Some message] when it
    throws [Error(message)]. *)
Definition validateConfig (c : Config) : option string :=
  let missing := List.filter (fun r => negb (truthy r.2)) (required c) in
  if Nat.ltb 0 (length missing) then
    Some ("Missing required environment variables: "
          +:+ UserCreate.join ", " (map fst missing))
  else if enabled (telegram c) then
    if negb (truthy (botToken (telegram c))) then
      Some "TELEGRAM_BOT_TOKEN is required when Telegram is enabled"
    else if negb (truthy (chatId (telegram c))) then
      Some "TELEGRAM_CHAT_ID is required when Telegram is enabled"
    else if isNaN_parseInt (default EmptyString (chatId (telegram c))) then
      Some "TELEGRAM_CHAT_ID must be a valid number"
    else if truthy (chatId2 (telegram c))
            && isNaN_parseInt (default EmptyString (chatId2 (telegram c)))
    then Some "TELEGRAM_CHAT_ID_2 must be a valid number"
    else None
  else None.

End validate.
End Env.

(** ** scripts/scheduled-sync.js *)

Module Scheduled.
Import Sys.

Definition SYNC_HOURS : list nat := [8; 11; 14; 17].

(** [shouldRunSync] for the hour that [parseInt] reads off the clock. *)
Definition shouldRunSync (currentHour : nat) : bool :=
  existsb (Nat.eqb currentHour) SYNC_HOURS.

(** [SYNC_HOURS.find(h => h > currentHour) || SYNC_HOURS[0]] *)
Definition nextHour (currentHour : nat) : nat :=
  match List.find (fun h => Nat.ltb currentHour h) SYNC_HOURS with
  | Some h => if Nat.eqb h 0 then hd 0 SYNC_HOURS else h
  | None => hd 0 SYNC_HOURS
  end.

(** What [main] does: it announces the next run and exits with code 0,
    or runs the synchronisation and exits with a code. *)
Inductive Outcome :=
| Skipped (next : nat) (tomorrow : bool)
| Ran (exit_code : nat).

Section main.
Variable remote : Remote.
Variable cfg : Config.sync.
Variable toLowerCase : string -> string.
Variable mapDepartment : string -> option string.
Variable mappedDepartments : list string.

(** [currentHour] is the hour [main] reads, [checkedHour] the one
    [shouldRunSync] reads from a clock of its own. *)
Definition main (currentHour checkedHour : nat) (out : Manager.Outside)
  : M Outcome :=
  if negb (shouldRunSync checkedHour) then
    ret (Skipped (nextHour currentHour)
           (Nat.leb (nextHour currentHour) currentHour))
  else
    result <- Manager.syncUsers remote cfg toLowerCase mapDepartment
                mappedDepartments true out ;;
    match result with
    | Some finalStats =>
        if Nat.eqb (Manager.errors (Manager.users finalStats)) 0
        then ret (Ran 0) else ret (Ran 1)
    | None => ret (Ran 1)
    end.

End main.
End Scheduled.

(** * Vocabulary of the statements *)

(** ** Runs of the two phases *)

Module Run.
Import Data Ledger Sys UserCreate.

(** [w'] is [w] after some more events, all of them satisfying [P]. *)
Definition extends_with (P : Event -> Prop) (w w' : World) : Prop :=
  exists new, trace w' = trace w ++ new /\ Forall P new.

(** A computation whose every run only adds events satisfying [P]. *)
Definition emits {A} (P : Event -> Prop) (m : M A) : Prop :=
  forall w, extends_with P w (m w).2.

(** Events that are neither remote calls nor timer waits. *)
Definition local_event (e : Event) : Prop :=
  match e with
  | Mkdir | ReadFile | WriteFile _ | Unlink => True
  | _ => False
  end.

(** The remote store only changes through remote calls. *)
Definition keeps_store {A} (m : M A) : Prop :=
  forall w, auth_users (m w).2 = auth_users w.

(** The keys the persisted ledger holds when a phase starts. *)
Definition recorded (w : World) : list string :=
  match fs_file w with
  | Some p => processedEmails p
  | None => []
  end.

(** The world once [createUsers] has loaded or initialised the ledger. *)
Definition start_world (w : World) : World :=
  ((hasProgress <- Tracker.load ;;
    if hasProgress then ret tt else Tracker.init "create") w).2.

(** No identity or profile call for an address the ledger holds. *)
Definition spares (keys : list string) (e : Event) : Prop :=
  match e with
  | AuthCreateUser em _ _ | ProfileUpsert _ em _ => ~ In em keys
  | _ => True
  end.

(** The display name [name] is the tokens [tokens], none of which holds
    a space, written one after the other with one space between two
    neighbours (a token may be empty: two spaces in a row). *)
Definition spelled (name : string) (tokens : list string) : Prop :=
  tokens <> []
  /\ Forall (fun t => JS.includes t " " = false) tokens
  /\ name = join " " tokens.

(** An identity or a profile row carries the first token of the display
    name of its item as first name and the second token as last name,
    the empty string when the name has one token only. *)
Definition names_sent (items : list MissingUser) (e : Event) : Prop :=
  match e with
  | AuthCreateUser em _ md | ProfileUpsert _ em md =>
      exists u, In u items /\ em = mu_email u /\
        forall tokens, spelled (mu_name u) tokens ->
          p_first_name md = nth 0 tokens EmptyString /\
          p_last_name md = nth 1 tokens EmptyString
  | _ => True
  end.

(** Addresses of the identity-creation calls of a trace, in order. *)
Fixpoint auth_emails (tr : list Event) : list string :=
  match tr with
  | [] => []
  | AuthCreateUser em _ _ :: r => em :: auth_emails r
  | _ :: r => auth_emails r
  end.

(** Any event but an identity creation. *)
Definition not_creation (e : Event) : Prop :=
  match e with
  | AuthCreateUser _ _ _ => False
  | _ => True
  end.

(** Detail lines with status [created] and [validation_error]. *)
Definition is_created (d : Detail) : bool :=
  match d_status d with Created _ => true | _ => false end.

Definition is_validation_error (d : Detail) : bool :=
  match d_status d with ValidationError _ => true | _ => false end.

Section remote.
Variable remote : Remote.
Variable rd : RefData.

(** The detail line left for an item that fails validation. *)
Definition validation_detail (user : MissingUser) : Detail :=
  {| d_email := JS.or_default (mu_email user) "unknown";
     d_department := JS.or_default (mu_department user) "unknown";
     d_status := ValidationError (join "; " (validateUser user rd)) |}.

(** What the create phase may emit when its items satisfy [Q]: identity
    and profile calls carry the address of such an item and the names
    built from its display name; no profile is reassigned. *)
Definition create_event_of (Q : MissingUser -> Prop) (e : Event) : Prop :=
  match e with
  | AuthCreateUser em pw md =>
      exists u, Q u /\ em = mu_email u /\ pw = Config.password /\
                md = profile_of (ws_user_of u) (mu_department u) rd
  | ProfileUpsert _ em row =>
      exists u, Q u /\ em = mu_email u /\
                row = profile_of (ws_user_of u) (mu_department u) rd
  | ProfileUpdate _ _ _ => False
  | _ => True
  end.

(** A store on which every call succeeds. *)
Definition always_ok : Prop := forall h e, exists id, remote h e = Ok id.

End remote.
End Run.

(** ** Reports of the Comparator *)

Module Report.
Import Data Compare.

(** What the source loop reads of the target index: whether the key is
    there, and the department of the record found. *)
Definition dept_view (idx : gmap string SupaUser) (k : string)
  : option (option string) :=
  su_department_name <$> idx !! k.

Definition counted_in (d : string) (s : SupaUser) : bool :=
  bool_decide (su_department_name s = Some d) && negb (JS.falsy d).

(** Two reports with the same counts and the same collections up to the
    order of their entries. *)
Definition dept_equiv (a b : DeptStats) : Prop :=
  ws_count a = ws_count b /\ supa_count a = supa_count b /\
  dept_missing_in_supabase a ≡ₚ dept_missing_in_supabase b /\
  extra_in_supabase a ≡ₚ extra_in_supabase b /\
  department_differences a ≡ₚ department_differences b.

Definition stats_equiv (a b : Stats) : Prop :=
  ws_total a = ws_total b /\ supa_total a = supa_total b /\
  matched a = matched b /\
  missing_in_supabase a ≡ₚ missing_in_supabase b /\
  deleted_from_ws a ≡ₚ deleted_from_ws b /\
  forall d, option_Forall2 dept_equiv (by_department a !! d)
                                      (by_department b !! d).

(** The part of a department entry that the source loop writes. *)
Definition source_part (ds : DeptStats)
  : nat * list DeptMissing * list Difference :=
  (ws_count ds, dept_missing_in_supabase ds, department_differences ds).

Section compare.
Variable toLowerCase : string -> string.
Variable mapDepartment : string -> option string.

Abbreviation expectedDepartment :=
  (Compare.expectedDepartment toLowerCase mapDepartment).

(** Target records under one key agree on the department. *)
Definition key_determines_department (supa : list SupaUser) : Prop :=
  forall s1 s2, In s1 supa -> In s2 supa ->
    toLowerCase (su_email s1) = toLowerCase (su_email s2) ->
    su_department_name s1 = su_department_name s2.

(** The keys of the two indices. *)
Definition key_ws (u : SourceUser) : string := toLowerCase (ws_email u).

Definition key_su (s : SupaUser) : string := toLowerCase (su_email s).

Definition in_dept (d : string) (u : SourceUser) : bool :=
  bool_decide (expectedDepartment u = Some d).

Definition is_matched (idx : gmap string SupaUser) (u : SourceUser) : bool :=
  match expectedDepartment u, idx !! key_ws u with
  | Some _, Some _ => true
  | _, _ => false
  end.

Definition missing_of (idx : gmap string SupaUser) (u : SourceUser)
  : option MissingUser :=
  match expectedDepartment u, idx !! key_ws u with
  | Some d, None => Some (missing_entry u d)
  | _, _ => None
  end.

Definition dept_missing_of (idx : gmap string SupaUser) (d : string)
  (u : SourceUser) : option DeptMissing :=
  if in_dept d u then
    match idx !! key_ws u with
    | None => Some (dept_missing_entry u)
    | Some _ => None
    end
  else None.

Definition difference_of (idx : gmap string SupaUser) (d : string)
  (u : SourceUser) : option Difference :=
  if in_dept d u then
    match idx !! key_ws u with
    | Some s =>
        if bool_decide (su_department_name s = Some d) then None
        else Some (difference_entry u d s)
    | None => None
    end
  else None.

Definition apply_ws (idx : gmap string SupaUser) (l : list SourceUser)
  (d : string) (ds : DeptStats) : DeptStats :=
  {| ws_count := ws_count ds + length (List.filter (in_dept d) l);
     supa_count := supa_count ds;
     dept_missing_in_supabase :=
       dept_missing_in_supabase ds ++ omap (dept_missing_of idx d) l;
     extra_in_supabase := extra_in_supabase ds;
     department_differences :=
       department_differences ds ++ omap (difference_of idx d) l |}.

Definition ws_closed (idx : gmap string SupaUser) (st : Stats)
  (l : list SourceUser) : Stats :=
  {| ws_total := ws_total st; supa_total := supa_total st;
     matched := matched st + length (List.filter (is_matched idx) l);
     missing_in_supabase := missing_in_supabase st ++ omap (missing_of idx) l;
     deleted_from_ws := deleted_from_ws st;
     by_department :=
       map_imap (fun d ds => Some (apply_ws idx l d ds)) (by_department st) |}.

(** A source user whose iteration does not throw: a user without a
    department; one whose department has an entry; one whose department
    finds a member of [Object.prototype], when the target has the user
    under that very department, so that nothing is pushed. *)
Definition resolvable (idx : gmap string SupaUser) (m : gmap string DeptStats)
  (u : SourceUser) : bool :=
  match expectedDepartment u with
  | Some d =>
      match JS.get m d with
      | JS.Own _ => true
      | JS.Inherited _ =>
          match idx !! key_ws u with
          | Some s => bool_decide (su_department_name s = Some d)
          | None => false
          end
      | JS.Undefined => false
      end
  | None => true
  end.

Definition extra_of (idx : gmap string SourceUser) (d : string)
  (s : SupaUser) : option DeptExtra :=
  if counted_in d s then
    match idx !! key_su s with
    | None => Some (extra_entry s)
    | Some _ => None
    end
  else None.

Definition deleted_of (idx : gmap string SourceUser)
  (m : gmap string DeptStats) (s : SupaUser) : option DeletedUser :=
  match su_department_name s with
  | Some d =>
      if JS.falsy d then None
      else match m !! d, idx !! key_su s with
           | Some _, None => Some (deleted_entry s d)
           | _, _ => None
           end
  | None => None
  end.

(** A target user whose iteration does not throw: any but one whose
    department finds a member of [Object.prototype] while the source
    does not have the user. *)
Definition admissible (idx : gmap string SourceUser) (m : gmap string DeptStats)
  (s : SupaUser) : bool :=
  match su_department_name s with
  | Some d =>
      if JS.falsy d then true
      else match JS.get m d with
           | JS.Inherited _ => bool_decide (is_Some (idx !! key_su s))
           | JS.Own _ | JS.Undefined => true
           end
  | None => true
  end.

Definition apply_supa (idx : gmap string SourceUser) (l : list SupaUser)
  (d : string) (ds : DeptStats) : DeptStats :=
  {| ws_count := ws_count ds;
     supa_count := supa_count ds + length (List.filter (counted_in d) l);
     dept_missing_in_supabase := dept_missing_in_supabase ds;
     extra_in_supabase := extra_in_supabase ds ++ omap (extra_of idx d) l;
     department_differences := department_differences ds |}.

(** A list of entries without those that bear the key [k]. *)
Definition without_key {A} (email : A -> string) (k : string) (l : list A)
  : list A :=
  List.filter (fun e => negb (bool_decide (toLowerCase (email e) = k))) l.

(** The report [a] of a run with one more source record, of key [k],
    than the run that gave [b], when the record is skipped: [ws_total]
    counts it, and the target records under [k], which now have a source
    record, are not listed as deleted or extra; everything else is the
    same. *)
Definition dept_skips (k : string) (a b : DeptStats) : Prop :=
  ws_count a = ws_count b /\ supa_count a = supa_count b /\
  dept_missing_in_supabase a = dept_missing_in_supabase b /\
  department_differences a = department_differences b /\
  extra_in_supabase a = without_key de_email k (extra_in_supabase b).

Definition skips (k : string) (a b : Stats) : Prop :=
  ws_total a = S (ws_total b) /\ supa_total a = supa_total b /\
  matched a = matched b /\
  missing_in_supabase a = missing_in_supabase b /\
  deleted_from_ws a = without_key du_email k (deleted_from_ws b) /\
  forall d, option_Forall2 (dept_skips k) (by_department a !! d)
                                          (by_department b !! d).

Definition supa_closed (idx : gmap string SourceUser) (st : Stats)
  (l : list SupaUser) : Stats :=
  {| ws_total := ws_total st; supa_total := supa_total st;
     matched := matched st;
     missing_in_supabase := missing_in_supabase st;
     deleted_from_ws :=
       deleted_from_ws st ++ omap (deleted_of idx (by_department st)) l;
     by_department :=
       map_imap (fun d ds => Some (apply_supa idx l d ds)) (by_department st) |}.

End compare.
End Report.

(** ** Concrete data *)

Module Scenario.
Import Data Ledger Sys.

(** A rejection with an [Error], and a thunk that rejects with
    [undefined] whatever the state. *)
Definition down : Retry.Reason := Retry.Failure "fetch failed".

Definition rejects_with_undefined : @Retry.thunk nat unit Retry.Reason :=
  fun w => (inr Retry.Nothing, S w).

Definition refData : RefData :=
  {| subdivisionId := "sub-1";
     departmentMap := <["Design" := "dep-1"]> (<["Удалены" := "dep-deleted"]> ∅);
     teamMap := <["Design - Общая" := "team-1"]>
                  (<["Удалены - Общая" := "team-deleted"]> ∅);
     deletedDepartmentId := "dep-deleted";
     deletedTeamId := "team-deleted";
     positionId := "pos-1";
     categoryId := "cat-1";
     roleId := "role-user" |}.

(** A fresh process and no ledger file. *)
Definition fresh : World :=
  {| fs_file := None; tracker := blank; auth_users := ∅; clock := 0;
     trace := [] |}.

(** The [k]-th create item: addresses [a@eneca.work], [b@eneca.work], ... *)
Definition item (k : nat) : MissingUser :=
  {| mu_email := String (ascii_of_nat (97 + k)) "@eneca.work";
     mu_first_name := "Ivan"; mu_last_name := "Petrov";
     mu_name := "Ivan Petrov"; mu_department := "Design";
     mu_ws_group := "Design"; mu_ws_title := "(нет)" |}.

(** An item with a malformed address. *)
Definition bad_item : MissingUser :=
  {| mu_email := "nobody"; mu_first_name := "No"; mu_last_name := "Body";
     mu_name := "No Body"; mu_department := "Design";
     mu_ws_group := "Design"; mu_ws_title := "(нет)" |}.

Definition ditem (k : nat) : DeletedUser :=
  {| du_user_id := String (ascii_of_nat (97 + k)) "-uid";
     du_email := String (ascii_of_nat (97 + k)) "@old.eneca.work";
     du_first_name := "Petr"; du_last_name := "Ivanov";
     du_name := "Petr Ivanov"; du_departmentName := "Design";
     du_supa_department := "Design"; du_team_name := Some "Design - Общая";
     du_position_name := None; du_category_name := None |}.

(** The configuration of a real run with the shipped batch settings. *)
Definition live : Config.sync :=
  {| Config.dryRun := false; Config.batchSize := 10;
     Config.delayBetweenBatches := 1000; Config.continueOnError := false |}.

(** A store where every call succeeds; new identities get an id made
    from the address. *)
Definition accepting : Remote := fun _ e =>
  match e with
  | AuthCreateUser em _ _ => Ok ("uid:" +:+ em)
  | _ => Ok "done"
  end.

(** A store that answers every call with an error. *)
Definition refusing : Remote := fun _ _ => Err "service unavailable".

(** Identity creation works, the profile write fails; the three stores
    differ in what [deleteUser] does. *)
Definition profile_fails (on_delete : Response) : Remote := fun _ e =>
  match e with
  | AuthCreateUser _ _ _ => Ok "uid-1"
  | ProfileUpsert _ _ _ => Err "boom"
  | AuthDeleteUser _ => on_delete
  | _ => Ok "done"
  end.

(** For every timer wait of a trace, the number of items started
    before it. *)
Fixpoint pauses_after (started : nat) (tr : list Event) : list nat :=
  match tr with
  | [] => []
  | Sleep _ :: r => started :: pauses_after started r
  | AuthCreateUser _ _ _ :: r => pauses_after (S started) r
  | ProfileUpdate _ _ _ :: r => pauses_after (S started) r
  | _ :: r => pauses_after started r
  end.

(** A mapping with one tracked department. *)
Definition mapDepartment (group : string) : option string :=
  if String.eqb group "Дизайн" then Some "Design" else None.

Definition tracked : list string := ["Design"].

Definition source (email group title : string) : Compare.SourceUser :=
  {| Compare.ws_email := email; Compare.ws_first_name := "Anna";
     Compare.ws_last_name := "Sidorova"; Compare.ws_group := group;
     Compare.ws_title := title |}.

Definition target (id email : string) (department : option string)
  : Compare.SupaUser :=
  {| Compare.su_user_id := id; Compare.su_email := email;
     Compare.su_first_name := "Anna"; Compare.su_last_name := "Sidorova";
     Compare.su_department_name := department;
     Compare.su_team_name := None; Compare.su_position_name := None;
     Compare.su_category_name := None |}.

Definition compare :=
  Compare.compareUsers JS.lower_ascii mapDepartment tracked.

(** The difference list of a department in a report. *)
Definition differences_in (r : option Compare.Stats) (d : string)
  : option (list Compare.Difference) :=
  match r with
  | Some st => Compare.department_differences <$> Compare.by_department st !! d
  | None => None
  end.

End Scenario.

(** ** Sequences of ledger updates and the calls a phase may make *)

Module Trail.
Import Data Ledger Sys UserCreate Run.

(** [addProcessed] called for each pair of a list in turn. *)
Fixpoint add_all (l : list (string * bool)) : M unit :=
  match l with
  | [] => ret tt
  | (email, ok) :: rest => Tracker.addProcessed email ok ;;; add_all rest
  end.

Definition successes (l : list (string * bool)) : nat :=
  length (List.filter snd l).

Definition failures (l : list (string * bool)) : nat :=
  length (List.filter (fun x => negb (snd x)) l).

(** The file holds the keys of the tracker up to the last multiple of
    ten. *)
Definition file_lags (w : World) : Prop :=
  exists p, fs_file w = Some p /\
    processedEmails p
    = take (10 * (length (processedEmails (tracker w)) / 10))
        (processedEmails (tracker w)).

(** The timer waits of a [retry] trace, in order. *)
Fixpoint waits (tr : list Retry.event) : list Z :=
  match tr with
  | [] => []
  | Retry.Wait ms :: r => ms :: waits r
  | Retry.Attempt _ :: r => waits r
  end.

(** What the create phase may send for the items it was given: identity
    and profile calls are made for an item that passes validation, and
    carry as department id what the name of its department finds in
    [departmentMap]: an id of the map that is not empty or, for a
    department that is not a key of the map and bears the name of a
    member of [Object.prototype], that member. *)
Definition validated_event (rd : RefData) (items : list MissingUser)
  (e : Event) : Prop :=
  match e with
  | AuthCreateUser em _ md | ProfileUpsert _ em md =>
      exists u, In u items /\ valid u rd = true /\ em = mu_email u /\
        match p_department_id md with
        | JS.Own id =>
            departmentMap rd !! mu_department u = Some id /\ id <> EmptyString
        | JS.Inherited name =>
            name = mu_department u /\ JS.inherited name = true
            /\ departmentMap rd !! name = None
        | JS.Undefined => False
        end
  | ProfileUpdate _ _ _ => False
  | _ => True
  end.

(** What the soft-delete phase may send: a reassignment of one of its
    items to the deleted department and team, or a pacing wait. *)
Definition reassignment_of (rd : RefData) (cfg : Config.sync)
  (items : list DeletedUser) (e : Event) : Prop :=
  match e with
  | ProfileUpdate uid d t =>
      (exists u, In u items /\ uid = du_user_id u) /\
      d = deletedDepartmentId rd /\ t = deletedTeamId rd
  | Sleep ms => ms = Config.delayBetweenBatches cfg
  | _ => False
  end.

(** The profiles reassigned by a trace, in order. *)
Definition reassigned (tr : list Event) : list string :=
  omap (fun e => match e with
                 | ProfileUpdate uid _ _ => Some uid
                 | _ => None
                 end) tr.

(** The items of a create plan whose address the persisted ledger does
    not hold. *)
Definition pending (w : World) (items : list MissingUser) : list MissingUser :=
  List.filter
    (fun u => negb (existsb (String.eqb (mu_email u)) (recorded w))) items.

End Trail.

(** ** Runs of the loader *)

Module LoaderRun.
Import Data Loader.

(** The time a [retry] trace spends waiting, in milliseconds. *)
Definition total_wait (tr : list Retry.event) : Z :=
  fold_right Z.add 0%Z (Trail.waits tr).

(** A computation of the loader that issues at most [3 * n] queries and
    waits at most [3000 * n] milliseconds. *)
Definition bounded {A} (n : nat) (m : L A) : Prop :=
  forall s,
    (exists new, (m s).2.1 = s.1 ++ new /\ length new <= 3 * n)
    /\ (total_wait (m s).2.2 <= total_wait s.2 + 3000 * Z.of_nat n)%Z.

(** The ids the departments query answers with when it is issued second
    after the log [log]. *)
Definition department_ids (st : Store) (production : list string)
  (log : list Query) : list string :=
  match many st (log ++ [Subdivision PRODUCTION_SUBDIVISION])
          (Departments (production ++ [Config.DELETED_DEPARTMENT])) with
  | inl a => obj_values (fill (default [] (data a)))
  | inr _ => []
  end.

(** The six queries of a complete load. *)
Definition plan (production ids : list string) : list Query :=
  [Subdivision PRODUCTION_SUBDIVISION;
   Departments (production ++ [Config.DELETED_DEPARTMENT]);
   Teams ids;
   Position positionName;
   Category categoryName;
   Role roleName].

End LoaderRun.

(** ** Runs of the coordinator *)

Module SyncRun.
Import Data Sys.

Section compare.
Variable toLowerCase : string -> string.
Variable mapDepartment : string -> option string.

(** What a synchronisation may send, given the reference bundle and the
    two fetched lists: identities and profiles are created only for a
    source record of a department other than the leave department whose
    lower-cased address no target record bears, with the id of that
    department; a profile is reassigned, to the deleted department and
    team, only when it is the profile of a target record of a department
    other than the leave department whose lower-cased address no source
    record bears. *)
Definition touches_only_differences (rd : RefData)
  (ws : list Compare.SourceUser) (supa : list Compare.SupaUser) (e : Event)
  : Prop :=
  match e with
  | AuthCreateUser em _ md | ProfileUpsert _ em md =>
      exists u d,
        In u ws /\ em = Compare.ws_email u
        /\ Compare.expectedDepartment toLowerCase mapDepartment u = Some d
        /\ d <> Compare.DEKRET
        /\ p_department_id md = JS.get (departmentMap rd) d
        /\ Forall (fun s => toLowerCase (Compare.su_email s)
                            <> toLowerCase (Compare.ws_email u)) supa
  | ProfileUpdate uid dep team =>
      dep = deletedDepartmentId rd /\ team = deletedTeamId rd
      /\ exists s d,
           In s supa /\ uid = Compare.su_user_id s
           /\ Compare.su_department_name s = Some d
           /\ d <> Compare.DEKRET
           /\ Forall (fun u => toLowerCase (Compare.ws_email u)
                               <> toLowerCase (Compare.su_email s)) ws
  | _ => True
  end.

End compare.
End SyncRun.

(** ** A small comparison *)

Module Sample.
Import Data.

(** Two source records of the tracked group, one of them known to the
    target under another department; one target record of the tracked
    department that the source does not have. *)
Definition ws : list Compare.SourceUser :=
  [Scenario.source "new@eneca.work" "Дизайн" "Designer";
   Scenario.source "Moved@eneca.work" "Дизайн" "Designer"].

Definition supa : list Compare.SupaUser :=
  [Scenario.target "id-1" "moved@eneca.work" (Some "Sales");
   Scenario.target "id-2" "gone@eneca.work" (Some "Design")].

Definition report : Compare.Stats :=
  default (Compare.initial Scenario.tracked ws supa) (Scenario.compare ws supa).

Definition design : Compare.DeptStats :=
  default Compare.empty_dept (Compare.by_department report !! "Design").

(** A database that answers every query: the departments asked for,
    all of the production subdivision, and the two teams. *)
Definition store : Loader.Store :=
  {| Loader.one := fun _ q =>
       inl {| Loader.data :=
                Some {| Loader.row_id :=
                          match q with
                          | Loader.Subdivision _ => "sub-1"
                          | Loader.Position _ => "pos-1"
                          | Loader.Category _ => "cat-1"
                          | _ => "role-user"
                          end;
                        Loader.row_name := EmptyString;
                        Loader.row_parent := EmptyString |};
              Loader.error := None |};
     Loader.many := fun _ q =>
       inl {| Loader.data :=
                Some match q with
                     | Loader.Departments names =>
                         map (fun n => {| Loader.row_id := "dep:" +:+ n;
                                          Loader.row_name := n;
                                          Loader.row_parent := "sub-1" |}) names
                     | _ =>
                         [{| Loader.row_id := "team-1";
                             Loader.row_name := "Design - Общая";
                             Loader.row_parent := "dep:Design" |};
                          {| Loader.row_id := "team-deleted";
                             Loader.row_name := "Удалены - Общая";
                             Loader.row_parent := "dep:Удалены" |}]
                     end;
              Loader.error := None |} |}.

(** The bundle loaded from that database. *)
Definition loaded : RefData :=
  match (Loader.loadReferenceData store Scenario.tracked ([], [])).1 with
  | inl rd => rd
  | inr _ => Scenario.refData
  end.

(** What is outside a run over the small comparison, without
    notifications. *)
Definition outside : Manager.Outside :=
  {| Manager.countBefore := None;
     Manager.reference := inl Scenario.refData;
     Manager.fetched := Some (ws, supa);
     Manager.countAfter := None |}.

End Sample.

(** * Properties *)

Import Run Report.

(** ** Retry wrapper *)

Section RetryFacts.
Import Retry.
Context {W V E : Type} `{!Rejection E}.
Implicit Types (fn : @thunk W V E) (o : options).

Lemma loop_events_one_more o attempt m :
  1 <= m ->
  [Attempt attempt; Wait (backoff o attempt)] ++ loop_events o (S attempt) m
  = loop_events o attempt (S m).
Proof.
  destruct m as [|m']; [lia|]. intros _. simpl.
  replace (attempt - 0) with attempt by lia. reflexivity.
Qed.

Lemma backoff_formula o k :
  2 <= k ->
  backoff o (k - 1)
  = Z.min (baseDelay_of o * 2 ^ (Z.of_nat k - 2)) (maxDelay_of o).
Proof.
  intros Hk. unfold backoff.
  replace (Z.of_nat (k - 1 - 1)) with (Z.of_nat k - 2)%Z by lia.
  reflexivity.
Qed.

Lemma loop_events_schedule o n : loop_events o 1 n = schedule o n.
Proof.
  destruct n as [|m]; [reflexivity|]. unfold loop_events, schedule.
  f_equal.
  assert (Hgen : forall a, 2 <= a ->
            flat_map (fun k => [Wait (backoff o (k - 1)); Attempt k]) (seq a m)
            = flat_map (fun k => [Wait (Z.min (baseDelay_of o * 2 ^ (Z.of_nat k - 2))
                                              (maxDelay_of o)); Attempt k])
                       (seq a m)).
  { induction m as [|m IH]; intros a Ha; simpl; [reflexivity|].
    rewrite backoff_formula by lia. rewrite IH by lia. reflexivity. }
  apply Hgen. lia.
Qed.

Lemma nth_call_succ fn (w : W) k :
  1 <= k -> nth_call fn w (S k) = nth_call fn (snd (fn w)) k.
Proof. destruct k; [lia|reflexivity]. Qed.

(** What the loop does from any iteration on: [m] calls, the events of
    [m] attempts, every call before the last rejected with a readable
    error; then a value, or the readable error of the last allowed
    attempt, or what reading the error of the [m]-th call threw. *)
Lemma retry_loop_spec fn o :
  forall fuel attempt last (w : W) tr,
    attempt + fuel = S (maxRetries_of o) ->
    exists m,
      m <= fuel /\
      (retry_loop fn o fuel attempt last w tr).2 = tr ++ loop_events o attempt m /\
      (forall j, 1 <= j < m ->
         exists e w', nth_call fn w j = Some (inr e, w') /\ unreadable e = None) /\
      match (retry_loop fn o fuel attempt last w tr).1.1 with
      | inl v =>
          1 <= m /\
          nth_call fn w m
          = Some (inl v, (retry_loop fn o fuel attempt last w tr).1.2)
      | inr oe =>
          match m with
          | O => fuel = 0 /\ oe = last /\
                 (retry_loop fn o fuel attempt last w tr).1.2 = w
          | S _ =>
              exists e,
                nth_call fn w m
                = Some (inr e, (retry_loop fn o fuel attempt last w tr).1.2)
                /\ match unreadable e with
                   | Some t => oe = Some t
                   | None => m = fuel /\ oe = Some e
                   end
          end
      end.
Proof.
  induction fuel as [|fuel IH]; intros attempt last w tr Hsum.
  - exists 0. simpl. rewrite app_nil_r. repeat split; auto. intros j Hj; lia.
  - simpl. destruct (fn w) as [[v|e] w'] eqn:Hfn.
    + exists 1. simpl. rewrite Hfn.
      split; [lia|]. split; [reflexivity|]. split; [intros j Hj; lia|].
      split; [lia|reflexivity].
    + destruct (unreadable e) as [t|] eqn:Hread.
      { exists 1. simpl. rewrite Hfn.
        split; [lia|]. split; [reflexivity|]. split; [intros j Hj; lia|].
        exists e. split; [reflexivity|]. rewrite Hread. reflexivity. }
      destruct (Nat.eqb_spec attempt (maxRetries_of o)) as [Heq|Hne].
      * exists 1. simpl. rewrite Hfn.
        assert (fuel = 0) by lia. subst fuel.
        split; [lia|]. split; [reflexivity|]. split; [intros j Hj; lia|].
        exists e. split; [reflexivity|]. rewrite Hread. split; reflexivity.
      * destruct (IH (S attempt) (Some e) w'
                    (tr ++ [Attempt attempt; Wait (backoff o attempt)]))
          as (m & Hm & Htr & Hfail & Hres); [lia|].
        assert (Hm1 : 1 <= m).
        { destruct (retry_loop fn o fuel (S attempt) (Some e) w' _).1.1;
            [tauto|]. destruct m; [|lia]. destruct Hres as [-> _]. lia. }
        assert (Hw' : w' = snd (fn w)) by (rewrite Hfn; reflexivity).
        exists (S m). split; [lia|]. split.
        { rewrite Htr, <- app_assoc, loop_events_one_more by lia.
          reflexivity. }
        split.
        { intros j Hj. destruct (decide (j = 1)) as [->|Hj1].
          - simpl. rewrite Hfn. eauto.
          - destruct j as [|j]; [lia|].
            rewrite nth_call_succ by lia. rewrite <- Hw'.
            apply Hfail. lia. }
        rewrite nth_call_succ by lia. rewrite <- Hw'.
        destruct (retry_loop fn o fuel (S attempt) (Some e) w' _).1.1.
        { destruct Hres as [_ Hres]. split; [lia|exact Hres]. }
        destruct m as [|m']; [lia|].
        destruct Hres as (e' & Hcall & Hout). exists e'.
        split; [exact Hcall|].
        destruct (unreadable e'); [exact Hout|].
        destruct Hout as [-> ->]. split; reflexivity.
Qed.

(** The loop when the [k]-th call from here is the first whose error
    cannot be read. *)
Lemma retry_loop_unreadable fn o k : forall fuel attempt last (w : W) tr e w' t,
  1 <= k <= fuel ->
  attempt + fuel = S (maxRetries_of o) ->
  (forall j, 1 <= j < k ->
     exists e0 w0, nth_call fn w j = Some (inr e0, w0) /\ unreadable e0 = None) ->
  nth_call fn w k = Some (inr e, w') ->
  unreadable e = Some t ->
  retry_loop fn o fuel attempt last w tr
  = (inr (Some t), w', tr ++ loop_events o attempt k).
Proof.
  induction k as [|k IH]; intros fuel attempt last w tr e w' t Hk Hsum Hbefore
    Hcall Hread; [lia|].
  destruct fuel as [|fuel]; [lia|].
  destruct (decide (k = 0)) as [->|Hk0].
  - cbn [nth_call] in Hcall. injection Hcall as Hfn.
    cbn [retry_loop]. rewrite Hfn, Hread. reflexivity.
  - destruct (Hbefore 1) as (e0 & w0 & Hfirst & Hread0); [lia|].
    cbn [nth_call] in Hfirst. injection Hfirst as Hfn.
    cbn [retry_loop]. rewrite Hfn, Hread0.
    destruct (Nat.eqb_spec attempt (maxRetries_of o)) as [Heq|_]; [lia|].
    rewrite nth_call_succ in Hcall by lia. rewrite Hfn in Hcall.
    cbn [snd] in Hcall.
    rewrite (IH fuel (S attempt) (Some e0) w0
               (tr ++ [Attempt attempt; Wait (backoff o attempt)]) e w' t);
      [|lia|lia| |exact Hcall|exact Hread].
    + rewrite <- app_assoc, loop_events_one_more by lia. reflexivity.
    + intros j Hj. specialize (Hbefore (S j)).
      rewrite nth_call_succ in Hbefore by lia. rewrite Hfn in Hbefore.
      apply Hbefore. lia.
Qed.

(** X1.  [retry] makes [n <= maxRetries] calls of the thunk and its
    observable events are exactly the documented schedule for [n]
    attempts: attempt 1, and before every attempt [k >= 2] one wait of
    [min (baseDelay * 2^(k-2)) maxDelay] milliseconds (options left out
    default to 3 attempts, 1000 ms, 10000 ms).  Every call before the
    [n]-th was rejected with an error whose message could be read; a
    returned value is the value of the [n]-th call; a thrown error whose
    message can be read means all [maxRetries] attempts were made and is
    the error of the last one; otherwise what is thrown is what reading
    the message of the [n]-th error threw. *)
Theorem readable_failures_follow_the_schedule fn o (w : W) :
  maxRetries_of no_options = 3 /\
  baseDelay_of no_options = 1000%Z /\
  maxDelay_of no_options = 10000%Z /\
  exists n,
    n <= maxRetries_of o /\
    (retry fn o w).2 = schedule o n /\
    (forall k, 1 <= k < n ->
       exists e w', nth_call fn w k = Some (inr e, w') /\ unreadable e = None) /\
    match (retry fn o w).1.1 with
    | inl v => 1 <= n /\ nth_call fn w n = Some (inl v, (retry fn o w).1.2)
    | inr oe =>
        match n with
        | O => maxRetries_of o = 0 /\ oe = None /\ (retry fn o w).1.2 = w
        | S _ =>
            exists e,
              nth_call fn w n = Some (inr e, (retry fn o w).1.2) /\
              match unreadable e with
              | Some t => oe = Some t
              | None => n = maxRetries_of o /\ oe = Some e
              end
        end
    end.
Proof.
  repeat (split; [reflexivity|]).
  unfold retry.
  destruct (retry_loop_spec fn o (maxRetries_of o) 1 None w [])
    as (m & Hm & Htr & Hfail & Hres); [lia|].
  exists m. split; [exact Hm|]. split.
  { rewrite Htr. simpl. apply loop_events_schedule. }
  split; [exact Hfail|].
  destruct (retry_loop fn o (maxRetries_of o) 1 None w []).1.1 as [v|oe];
    [exact Hres|].
  destruct m as [|m']; [exact Hres|].
  destruct Hres as (e & Hcall & Hout). exists e. split; [exact Hcall|].
  destruct (unreadable e); exact Hout.
Qed.

(** C8.  A rejection whose message cannot be read ends [retry] at once:
    when the calls before the [k]-th were rejected with readable errors
    and the [k]-th is rejected with [undefined] or [null] (or any value
    on which [error.message] throws), [retry] makes no further attempt
    and waits no more, whatever [maxRetries] allows beyond [k], and what
    it throws is the error of the reading, not the rejection of the
    thunk. *)
Theorem unreadable_rejection_ends_retry fn o (w : W) (k : nat)
  (e : E) (w' : W) (t : E) :
  1 <= k <= maxRetries_of o ->
  (forall j, 1 <= j < k ->
     exists e0 w0, nth_call fn w j = Some (inr e0, w0) /\ unreadable e0 = None) ->
  nth_call fn w k = Some (inr e, w') ->
  unreadable e = Some t ->
  retry fn o w = (inr (Some t), w', schedule o k).
Proof.
  intros Hk Hbefore Hcall Hread. unfold retry.
  rewrite (retry_loop_unreadable fn o k (maxRetries_of o) 1 None w [] e w' t);
    [|exact Hk|lia|exact Hbefore|exact Hcall|exact Hread].
  cbn [app]. rewrite loop_events_schedule. reflexivity.
Qed.

End RetryFacts.

(** ** Running the phases: how the world evolves *)

Section WorldFacts.
Import Data Ledger Sys.

Lemma extends_refl P w : extends_with P w w.
Proof. exists []. split; [symmetry; apply app_nil_r|constructor]. Qed.

Lemma extends_same_trace P w w' : trace w' = trace w -> extends_with P w w'.
Proof.
  intros H. exists []. split; [rewrite H; symmetry; apply app_nil_r|constructor].
Qed.

Lemma extends_trans P w1 w2 w3 :
  extends_with P w1 w2 -> extends_with P w2 w3 -> extends_with P w1 w3.
Proof.
  intros (n1 & H1 & F1) (n2 & H2 & F2). exists (n1 ++ n2). split.
  - rewrite H2, H1, app_assoc. reflexivity.
  - apply Forall_app; auto.
Qed.

Lemma extends_weaken (P Q : Event -> Prop) w w' :
  (forall e, P e -> Q e) -> extends_with P w w' -> extends_with Q w w'.
Proof.
  intros HPQ (new & H & F). exists new. split; [exact H|].
  eapply Forall_impl; eauto.
Qed.

Lemma extends_one (P : Event -> Prop) w w' e :
  trace w' = trace w ++ [e] -> P e -> extends_with P w w'.
Proof. intros H HP. exists [e]. split; [exact H|]. repeat constructor. exact HP. Qed.

Lemma emits_ret {A} P (a : A) : emits P (ret a).
Proof. intros w. apply extends_refl. Qed.

Lemma emits_bind {A B} P (m : M A) (k : A -> M B) :
  emits P m -> (forall a, emits P (k a)) -> emits P (bind m k).
Proof.
  intros Hm Hk w. unfold bind. specialize (Hm w).
  destruct (m w) as [a w1]. simpl in Hm.
  eapply extends_trans; [exact Hm|apply Hk].
Qed.

Lemma emits_emit (P : Event -> Prop) e : P e -> emits P (emit e).
Proof. intros HP w. eapply extends_one; [reflexivity|exact HP]. Qed.

Lemma emits_sleep (P : Event -> Prop) ms : P (Sleep ms) -> emits P (sleep ms).
Proof. intros HP w. eapply extends_one; [reflexivity|exact HP]. Qed.

Lemma emits_call (P : Event -> Prop) remote e : P e -> emits P (call remote e).
Proof. intros HP w. eapply extends_one; [reflexivity|exact HP]. Qed.

Lemma emits_set_tracker P p : emits P (set_tracker p).
Proof. intros w. apply extends_same_trace. reflexivity. Qed.

Lemma emits_set_file P f : emits P (set_file f).
Proof. intros w. apply extends_same_trace. reflexivity. Qed.

Lemma emits_get_tracker P : emits P get_tracker.
Proof. intros w. apply extends_refl. Qed.

Lemma emits_get_file P : emits P get_file.
Proof. intros w. apply extends_refl. Qed.

Lemma emits_now P : emits P now.
Proof. intros w. apply extends_refl. Qed.

Section tracker.
Variable P : Event -> Prop.
Hypothesis P_local : forall e, local_event e -> P e.

Lemma emits_save : emits P Tracker.save.
Proof.
  unfold Tracker.save, Tracker.ensureDir.
  apply emits_bind; [apply emits_emit, P_local; exact I|intros _].
  apply emits_bind; [apply emits_get_tracker|intros p].
  apply emits_bind; [apply emits_now|intros t].
  apply emits_bind; [apply emits_set_tracker|intros _].
  apply emits_bind; [apply emits_emit, P_local; exact I|intros _].
  apply emits_set_file.
Qed.

Lemma emits_init ph : emits P (Tracker.init ph).
Proof.
  unfold Tracker.init, Tracker.ensureDir.
  apply emits_bind; [apply emits_now|intros t].
  apply emits_bind; [apply emits_set_tracker|intros _].
  apply emits_bind; [apply emits_emit, P_local; exact I|intros _].
  apply emits_save.
Qed.

Lemma emits_load : emits P Tracker.load.
Proof.
  unfold Tracker.load.
  apply emits_bind; [apply emits_emit, P_local; exact I|intros _].
  apply emits_bind; [apply emits_get_file|intros [p|]].
  - apply emits_bind; [apply emits_set_tracker|intros _]. apply emits_ret.
  - apply emits_ret.
Qed.

Lemma emits_addProcessed email ok : emits P (Tracker.addProcessed email ok).
Proof.
  unfold Tracker.addProcessed.
  apply emits_bind; [apply emits_get_tracker|intros p].
  apply emits_bind; [apply emits_set_tracker|intros _].
  destruct (Nat.eqb _ 0); [apply emits_save|apply emits_ret].
Qed.

Lemma emits_clear : emits P Tracker.clear.
Proof.
  unfold Tracker.clear.
  apply emits_bind; [apply emits_emit, P_local; exact I|intros _].
  apply emits_bind; [apply emits_set_file|intros _].
  apply emits_set_tracker.
Qed.

End tracker.

Lemma keeps_ret {A} (a : A) : keeps_store (ret a).
Proof. intros w. reflexivity. Qed.

Lemma keeps_bind {A B} (m : M A) (k : A -> M B) :
  keeps_store m -> (forall a, keeps_store (k a)) -> keeps_store (bind m k).
Proof.
  intros Hm Hk w. unfold bind. specialize (Hm w).
  destruct (m w) as [a w1]. simpl in Hm. rewrite Hk. exact Hm.
Qed.

Lemma keeps_save : keeps_store Tracker.save.
Proof. intros w. reflexivity. Qed.

Lemma keeps_init ph : keeps_store (Tracker.init ph).
Proof. intros w. reflexivity. Qed.

Lemma keeps_load : keeps_store Tracker.load.
Proof. intros w. unfold Tracker.load, bind, emit, get_file. simpl.
  destruct (fs_file w); reflexivity. Qed.

Lemma keeps_clear : keeps_store Tracker.clear.
Proof. intros w. reflexivity. Qed.

Lemma keeps_addProcessed email ok : keeps_store (Tracker.addProcessed email ok).
Proof.
  intros w. unfold Tracker.addProcessed, bind, get_tracker, set_tracker.
  destruct (Nat.eqb _ 0); reflexivity.
Qed.

End WorldFacts.

(** ** Create phase *)

Section CreateFacts.
Import Data Ledger Sys UserCreate.
Variable remote : Remote.
Variable rd : RefData.

Abbreviation validation_detail := (Run.validation_detail rd).
Abbreviation create_event_of := (Run.create_event_of rd).

Lemma start_world_found w p :
  fs_file w = Some p ->
  start_world w
  = {| fs_file := Some p; tracker := p; auth_users := auth_users w;
       clock := clock w; trace := trace w ++ [ReadFile] |}.
Proof.
  intros Hf. unfold start_world, Tracker.load, bind, emit, get_file. simpl.
  rewrite Hf. reflexivity.
Qed.

Lemma start_world_recorded w :
  processedEmails (tracker (start_world w)) = recorded w.
Proof.
  unfold recorded. destruct (fs_file w) as [p|] eqn:Hf.
  - rewrite (start_world_found w p Hf). reflexivity.
  - unfold start_world, Tracker.load, bind, emit, get_file. simpl.
    rewrite Hf. reflexivity.
Qed.

Lemma start_world_store w : auth_users (start_world w) = auth_users w.
Proof.
  unfold start_world.
  apply (keeps_bind Tracker.load
           (fun has : bool => if has then ret tt else Tracker.init "create")).
  - apply keeps_load.
  - intros [|]; [apply keeps_ret|apply keeps_init].
Qed.

Lemma start_world_extends P w :
  (forall e, local_event e -> P e) -> extends_with P w (start_world w).
Proof.
  intros HP. unfold start_world.
  apply (emits_bind P Tracker.load
           (fun has : bool => if has then ret tt else Tracker.init "create")).
  - apply emits_load, HP.
  - intros [|]; [apply emits_ret|apply emits_init, HP].
Qed.

(** [createUsers], read from the point where the ledger is in memory. *)
Lemma createUsers_run cfg items w :
  createUsers remote cfg items rd w
  = let w2 := start_world w in
    let unprocessed := Tracker.filterUnprocessed (tracker w2) items in
    if Nat.eqb (length unprocessed) 0
    then (no_stats, (Tracker.clear w2).2)
    else
      if Nat.eqb (length (validate_all rd unprocessed).1) 0
      then ((validate_all rd unprocessed).2, w2)
      else if Config.dryRun cfg then ((validate_all rd unprocessed).2, w2)
      else
        let r := create_loop remote cfg rd
                   (length (validate_all rd unprocessed).1) 0
                   (validate_all rd unprocessed).1
                   (validate_all rd unprocessed).2 w2 in
        (r.1, (Tracker.clear r.2).2).
Proof.
  unfold createUsers, start_world. unfold bind.
  destruct (Tracker.load w) as [has w1].
  destruct ((if has then ret tt else Tracker.init "create") w1) as [[] w2].
  cbn [snd]. unfold get_tracker.
  destruct (Nat.eqb (length (Tracker.filterUnprocessed (tracker w2) items)) 0).
  - destruct (Tracker.clear w2) as [[] w3]. reflexivity.
  - destruct (validate_all rd _) as [validUsers st]. cbn [fst snd].
    destruct (Nat.eqb (length validUsers) 0); [reflexivity|].
    destruct (Config.dryRun cfg); [reflexivity|].
    destruct (create_loop remote cfg rd (length validUsers) 0 validUsers st w2)
      as [st' w3].
    cbn [fst snd]. destruct (Tracker.clear w3) as [[] w4]. reflexivity.
Qed.

(** *** Validation *)

Lemma validate_step_valid acc st u :
  validate_step rd (acc, st) u
  = if valid u rd then (acc ++ [u], st)
    else (acc, {| created := created st; errors := S (errors st);
                  details := details st ++ [validation_detail u] |}).
Proof. reflexivity. Qed.

Lemma validate_fold users : forall acc st,
  fold_left (validate_step rd) users (acc, st)
  = (acc ++ List.filter (fun u => valid u rd) users,
     {| created := created st;
        errors := errors st
                  + length (List.filter (fun u => negb (valid u rd)) users);
        details := details st
                   ++ map validation_detail
                        (List.filter (fun u => negb (valid u rd)) users) |}).
Proof.
  induction users as [|u users IH]; intros acc st.
  - cbn [fold_left List.filter length map].
    rewrite !app_nil_r, Nat.add_0_r. destruct st; reflexivity.
  - cbn [fold_left List.filter]. rewrite validate_step_valid.
    destruct (valid u rd); cbn [negb]; rewrite IH.
    + rewrite <- app_assoc. reflexivity.
    + cbn [created errors details length map].
      rewrite <- app_assoc. cbn [app]. f_equal. f_equal. lia.
Qed.

Lemma validate_all_spec users :
  validate_all rd users
  = (List.filter (fun u => valid u rd) users,
     {| created := 0;
        errors := length (List.filter (fun u => negb (valid u rd)) users);
        details := map validation_detail
                     (List.filter (fun u => negb (valid u rd)) users) |}).
Proof. unfold validate_all. rewrite validate_fold. reflexivity. Qed.

(** *** Events of the create phase *)

Lemma create_event_local Q e : local_event e -> create_event_of Q e.
Proof. destruct e; simpl; tauto. Qed.

Lemma create_event_mono (Q Q' : MissingUser -> Prop) e :
  (forall u, Q u -> Q' u) -> create_event_of Q e -> create_event_of Q' e.
Proof.
  intros HQ. destruct e; simpl; auto.
  - intros (u & Hu & H). exists u. split; auto.
  - intros (u & Hu & H). exists u. split; auto.
Qed.

Lemma emits_createUser Q u :
  Q u ->
  emits (create_event_of Q)
    (createUser remote (ws_user_of u) (mu_department u) rd).
Proof.
  intros HQ. unfold createUser.
  apply emits_bind.
  { apply emits_call. simpl. exists u. auto. }
  intros [uid|m|m]; try apply emits_ret.
  apply emits_bind.
  { unfold profile_and_role. apply emits_bind.
    { apply emits_call. simpl. exists u. auto. }
    intros [?|m|m]; try apply emits_ret.
    apply emits_bind; [apply emits_call; exact I|].
    intros [?|m|m]; try apply emits_ret.
    destruct (JS.includes m "duplicate"); apply emits_ret. }
  intros [[]|caught]; [apply emits_ret|].
  apply emits_bind; [|intros; apply emits_ret].
  unfold rollback. apply emits_bind; [apply emits_call; exact I|].
  intros [?|?|?]; apply emits_ret.
Qed.

Lemma emits_pace (P : Event -> Prop) cfg n i :
  (forall ms, P (Sleep ms)) -> emits P (pace cfg n i).
Proof.
  intros HP. unfold pace.
  destruct (pause_due cfg n i); [apply emits_sleep, HP|apply emits_ret].
Qed.

Lemma emits_create_loop Q cfg n users :
  Forall Q users ->
  forall i st, emits (create_event_of Q) (create_loop remote cfg rd n i users st).
Proof.
  induction 1 as [|u users Hu Hrest IH]; intros i st.
  - apply emits_ret.
  - cbn [create_loop]. apply emits_bind; [apply emits_createUser, Hu|].
    intros res. destruct (success res).
    + apply emits_bind; [apply emits_addProcessed, create_event_local|intros _].
      apply emits_bind; [apply emits_pace; intros; exact I|intros _].
      apply IH.
    + apply emits_bind; [apply emits_addProcessed, create_event_local|intros _].
      destruct (negb (Config.continueOnError cfg)).
      * apply emits_bind; [apply emits_save, create_event_local|intros _].
        apply emits_ret.
      * apply emits_bind; [apply emits_pace; intros; exact I|intros _].
        apply IH.
Qed.

Lemma isProcessed_recorded w email :
  Tracker.isProcessed (tracker (start_world w)) email
  = existsb (String.eqb email) (recorded w).
Proof. unfold Tracker.isProcessed. rewrite start_world_recorded. reflexivity. Qed.

(** Every remote call of [createUsers] is made for an item it was given
    whose address the ledger does not hold. *)
Lemma createUsers_extends cfg items w :
  extends_with
    (create_event_of
       (fun u => In u items /\ existsb (String.eqb (mu_email u)) (recorded w) = false))
    w (createUsers remote cfg items rd w).2.
Proof.
  set (Q := fun u => In u items /\ _).
  rewrite createUsers_run. cbv zeta.
  pose proof (start_world_extends (create_event_of Q) w
                (create_event_local Q)) as Hstart.
  set (w2 := start_world w) in *.
  set (unprocessed := Tracker.filterUnprocessed (tracker w2) items).
  assert (HQ : Forall Q unprocessed).
  { apply List.Forall_forall. intros u Hu. unfold unprocessed in Hu.
    apply filter_In in Hu. destruct Hu as [Hin Hnp]. split; [exact Hin|].
    unfold w2 in Hnp. rewrite isProcessed_recorded in Hnp.
    apply negb_true_iff in Hnp. exact Hnp. }
  destruct (Nat.eqb (length unprocessed) 0).
  { cbn [snd]. eapply extends_trans; [exact Hstart|].
    apply emits_clear, create_event_local. }
  rewrite validate_all_spec. cbn [fst snd].
  destruct (Nat.eqb _ 0); [exact Hstart|].
  destruct (Config.dryRun cfg); [exact Hstart|].
  cbn [snd]. eapply extends_trans; [exact Hstart|].
  eapply extends_trans; [|apply emits_clear, create_event_local].
  apply emits_create_loop.
  apply List.Forall_forall. intros u Hu. apply filter_In in Hu.
  rewrite List.Forall_forall in HQ. apply HQ. tauto.
Qed.

End CreateFacts.

(** ** Tokens of a display name *)

Section SplitFacts.

Lemma split_space_nonempty s : JS.split_space s <> [].
Proof.
  destruct s as [|c s]; simpl; [discriminate|].
  destruct (Ascii.eqb c " "); [discriminate|].
  destruct (JS.split_space s); discriminate.
Qed.

Lemma split_space_app a b :
  JS.split_space (a +:+ String " " b) = JS.split_space a ++ JS.split_space b.
Proof.
  induction a as [|c a IH]; [reflexivity|].
  change (String c a +:+ String " " b) with (String c (a +:+ String " " b)).
  cbn [JS.split_space]. rewrite IH.
  destruct (Ascii.eqb c " "); [reflexivity|].
  pose proof (split_space_nonempty a) as Hne.
  destruct (JS.split_space a) as [|t ts]; [congruence|reflexivity].
Qed.

Lemma includes_space_cons c s :
  JS.includes (String c s) " " = false ->
  Ascii.eqb c " " = false /\ JS.includes s " " = false.
Proof.
  cbn [JS.includes String.prefix]. intros H.
  apply orb_false_iff in H. destruct H as [Hp Hs]. split; [|exact Hs].
  destruct (ascii_dec " " c) as [<-|Hne]; [destruct s; discriminate|].
  apply Ascii.eqb_neq. congruence.
Qed.

Lemma split_no_space s :
  JS.includes s " " = false -> JS.split_space s = [s].
Proof.
  induction s as [|c s IH]; [reflexivity|].
  intros H. apply includes_space_cons in H. destruct H as [Hc Hs].
  cbn [JS.split_space]. rewrite Hc, (IH Hs). reflexivity.
Qed.

Lemma join_cons sep x y r :
  UserCreate.join sep (x :: y :: r) = x +:+ sep +:+ UserCreate.join sep (y :: r).
Proof. reflexivity. Qed.

(** [s.split(' ').join(' ')] gives [s] back. *)
Lemma join_split_space s : UserCreate.join " " (JS.split_space s) = s.
Proof.
  induction s as [|c s IH]; [reflexivity|].
  cbn [JS.split_space].
  pose proof (split_space_nonempty s) as Hne.
  destruct (Ascii.eqb_spec c " ") as [->|Hc].
  - destruct (JS.split_space s) as [|t ts]; [congruence|].
    rewrite join_cons, IH. reflexivity.
  - destruct (JS.split_space s) as [|t ts]; [congruence|].
    destruct ts as [|t' ts].
    + cbn [UserCreate.join] in *. rewrite IH. reflexivity.
    + rewrite join_cons in *. rewrite <- IH. reflexivity.
Qed.

(** A name spelled by space-free tokens splits into those tokens. *)
Lemma split_join tokens :
  tokens <> [] ->
  Forall (fun t => JS.includes t " " = false) tokens ->
  JS.split_space (UserCreate.join " " tokens) = tokens.
Proof.
  induction tokens as [|t tokens IH]; [congruence|].
  intros _ Hall. inversion Hall as [|? ? Ht Hrest]; subst.
  destruct tokens as [|t' r].
  - cbn [UserCreate.join]. apply split_no_space, Ht.
  - rewrite join_cons.
    change (t +:+ " " +:+ UserCreate.join " " (t' :: r))
      with (t +:+ String " " (UserCreate.join " " (t' :: r))).
    rewrite split_space_app, (split_no_space t Ht), IH;
      [reflexivity|discriminate|exact Hrest].
Qed.

Lemma split_space_tokens s :
  Forall (fun t => JS.includes t " " = false) (JS.split_space s).
Proof.
  induction s as [|c s IH]; [repeat constructor|].
  cbn [JS.split_space].
  destruct (Ascii.eqb_spec c " ") as [->|Hc].
  - constructor; [reflexivity|exact IH].
  - pose proof (split_space_nonempty s) as Hne.
    destruct (JS.split_space s) as [|t ts]; [congruence|].
    inversion IH as [|? ? Ht Hts]; subst. constructor; [|exact Hts].
    cbn [JS.includes String.prefix]. rewrite Ht.
    destruct (ascii_dec " " c) as [<-|Hne']; [congruence|].
    rewrite orb_false_r. reflexivity.
Qed.

End SplitFacts.

(** ** The create phase as a whole *)

Section CreatePhase.
Import Data Ledger Sys UserCreate.
Variable remote : Remote.
Variable rd : RefData.

Lemma existsb_eqb_false (k : string) keys :
  existsb (String.eqb k) keys = false -> ~ In k keys.
Proof.
  intros H Hin. apply Bool.not_true_iff_false in H. apply H.
  apply existsb_exists. exists k. split; [exact Hin|apply String.eqb_refl].
Qed.


(** C10.  Every identity the create phase sends to the remote store, and
    every profile row, belongs to one of the items and carries as given
    name the first space-separated token of the item's display name and
    as family name the second token, the empty string when there is
    none: for a name [t0 t1 t2 ...] the names sent are [t0] and [t1], and
    [t2] and what follows reach neither.  Every display name is spelled
    by exactly one list of tokens. *)
Theorem identity_names_are_first_two_tokens (cfg : Config.sync)
  (items : list MissingUser) (w : World) :
  extends_with (names_sent items) w (createUsers remote cfg items rd w).2
  /\ (forall name : string,
        exists tokens, spelled name tokens
          /\ forall tokens', spelled name tokens' -> tokens' = tokens)
  /\ (forall (u : MissingUser) (t0 t1 : string) (rest : list string),
        spelled (mu_name u) (t0 :: t1 :: rest) ->
        first_name (ws_user_of u) = t0 /\ last_name (ws_user_of u) = t1)
  /\ (forall (u : MissingUser) (t0 : string),
        spelled (mu_name u) [t0] ->
        first_name (ws_user_of u) = t0
        /\ last_name (ws_user_of u) = EmptyString).
Proof.
  assert (Hunique : forall name tokens,
            spelled name tokens -> JS.split_space name = tokens).
  { intros name tokens (Hne & Hall & ->). apply split_join; assumption. }
  split; [|split; [|split]].
  - eapply extends_weaken; [|apply createUsers_extends].
    intros [em pw md|uid em row| | | | | | | |]; simpl; auto.
    + intros (u & [Hu _] & -> & _ & ->). exists u.
      split; [exact Hu|]. split; [reflexivity|].
      intros tokens Hsp. apply Hunique in Hsp.
      cbn [p_first_name p_last_name profile_of first_name last_name ws_user_of].
      unfold JS.at_or_empty. rewrite Hsp. split; reflexivity.
    + intros (u & [Hu _] & -> & ->). exists u.
      split; [exact Hu|]. split; [reflexivity|].
      intros tokens Hsp. apply Hunique in Hsp.
      cbn [p_first_name p_last_name profile_of first_name last_name ws_user_of].
      unfold JS.at_or_empty. rewrite Hsp. split; reflexivity.
  - intros name. exists (JS.split_space name). split.
    + split; [apply split_space_nonempty|].
      split; [apply split_space_tokens|].
      symmetry. apply join_split_space.
    + intros tokens' Hsp. symmetry. apply Hunique, Hsp.
  - intros u t0 t1 rest Hsp. apply Hunique in Hsp.
    cbn [first_name last_name ws_user_of]. unfold JS.at_or_empty.
    rewrite Hsp. split; reflexivity.
  - intros u t0 Hsp. apply Hunique in Hsp.
    cbn [first_name last_name ws_user_of]. unfold JS.at_or_empty.
    rewrite Hsp. split; reflexivity.
Qed.

(** C5 (amended).  In dry-run mode neither phase issues a remote call
    or waits, and the identities of the store stay as they were.  The
    soft-delete phase does nothing at all and returns zero statistics.
    The create phase returns [created = 0]; its [errors] counts the
    unprocessed items that fail validation; it reads the ledger before
    the dry-run test and leaves the file as found when a ledger exists
    and some item is not yet recorded in it. *)
Theorem dry_run_effects (cfg : Config.sync) (toCreate : list MissingUser)
  (toDelete : list DeletedUser) (w : World) :
  Config.dryRun cfg = true ->
  UserDelete.softDeleteUsers remote cfg toDelete rd w
  = (UserDelete.no_stats, w)
  /\ extends_with local_event w (createUsers remote cfg toCreate rd w).2
  /\ auth_users (createUsers remote cfg toCreate rd w).2 = auth_users w
  /\ created (createUsers remote cfg toCreate rd w).1 = 0
  /\ errors (createUsers remote cfg toCreate rd w).1
     = length (List.filter (fun u => negb (valid u rd))
                 (List.filter
                    (fun u => negb (existsb (String.eqb (mu_email u)) (recorded w)))
                    toCreate))
  /\ (forall p,
        fs_file w = Some p ->
        Exists (fun u => existsb (String.eqb (mu_email u)) (processedEmails p) = false)
          toCreate ->
        fs_file (createUsers remote cfg toCreate rd w).2 = Some p
        /\ trace (createUsers remote cfg toCreate rd w).2 = trace w ++ [ReadFile]).
Proof.
  intros Hdry.
  split. { unfold UserDelete.softDeleteUsers. rewrite Hdry. reflexivity. }
  rewrite createUsers_run. cbv zeta. rewrite Hdry.
  assert (Hunp : Tracker.filterUnprocessed (tracker (start_world w)) toCreate
                 = List.filter
                     (fun u => negb (existsb (String.eqb (mu_email u)) (recorded w)))
                     toCreate).
  { unfold Tracker.filterUnprocessed. apply filter_ext. intros u.
    rewrite isProcessed_recorded. reflexivity. }
  rewrite Hunp. set (unprocessed := List.filter _ toCreate) in *.
  rewrite validate_all_spec. cbn [fst snd].
  pose proof (start_world_extends local_event w (fun e H => H)) as Hext.
  pose proof (start_world_store w) as Hstore.
  destruct (Nat.eqb (length unprocessed) 0) eqn:Hlen.
  - apply Nat.eqb_eq in Hlen. apply length_zero_iff_nil in Hlen.
    rewrite Hlen in *. cbn [fst snd created errors no_stats List.filter length].
    split. { eapply extends_trans; [exact Hext|]. apply emits_clear. auto. }
    split. { rewrite keeps_clear. exact Hstore. }
    split; [reflexivity|]. split; [reflexivity|].
    intros p Hp Hex. exfalso. apply List.Exists_exists in Hex.
    destruct Hex as (u & Hin & Hu).
    assert (Hin' : In u unprocessed).
    { unfold unprocessed. apply filter_In. split; [exact Hin|].
      unfold recorded. rewrite Hp, Hu. reflexivity. }
    rewrite Hlen in Hin'. exact Hin'.
  - assert (Hres : forall b : bool,
              (if b then ({| created := 0;
                             errors := length (List.filter (fun u => negb (valid u rd)) unprocessed);
                             details := map (validation_detail rd)
                                          (List.filter (fun u => negb (valid u rd)) unprocessed) |},
                          start_world w)
               else ({| created := 0;
                        errors := length (List.filter (fun u => negb (valid u rd)) unprocessed);
                        details := map (validation_detail rd)
                                     (List.filter (fun u => negb (valid u rd)) unprocessed) |},
                     start_world w))
              = ({| created := 0;
                    errors := length (List.filter (fun u => negb (valid u rd)) unprocessed);
                    details := map (validation_detail rd)
                                 (List.filter (fun u => negb (valid u rd)) unprocessed) |},
                 start_world w)) by (intros []; reflexivity).
    rewrite Hres. cbn [fst snd created errors].
    split; [exact Hext|]. split; [exact Hstore|].
    split; [reflexivity|]. split; [reflexivity|].
    intros p Hp _. rewrite (start_world_found w p Hp). split; reflexivity.
Qed.

End CreatePhase.

(** ** One item: creation, rollback, stopping *)

Section ItemFacts.
Import Data Ledger Sys UserCreate.
Variable remote : Remote.
Variable rd : RefData.

Lemma profile_and_role_store wsUser dept uid :
  keeps_store (profile_and_role remote wsUser dept rd uid).
Proof.
  intros w. unfold profile_and_role, bind, call. cbn [store_after].
  destruct (remote (trace w) _) as [?|m|m]; try reflexivity.
  cbn [trace]. destruct (remote _ (RoleInsert uid (roleId rd))) as [?|m|m];
    try reflexivity.
  destruct (JS.includes m "duplicate"); reflexivity.
Qed.

Lemma createUser_rollback_run (wsUser : WsUser) (dept : string)
  (w w2 : World) (uid caught : string) :
  remote (trace w)
    (AuthCreateUser (email wsUser) Config.password (profile_of wsUser dept rd))
  = Ok uid ->
  profile_and_role remote wsUser dept rd uid
    (call remote
       (AuthCreateUser (email wsUser) Config.password
          (profile_of wsUser dept rd)) w).2
  = (inr caught, w2) ->
  createUser remote wsUser dept rd w
  = (failure match remote (trace w2) (AuthDeleteUser uid) with
             | Throw m => m
             | _ => caught
             end,
     (call remote (AuthDeleteUser uid) w2).2).
Proof.
  intros Hauth Hbody. unfold createUser. unfold bind at 1.
  destruct (call remote _ w) as [a w1] eqn:Hcall.
  assert (Ha : a = Ok uid).
  { unfold call in Hcall. injection Hcall as <- _. exact Hauth. }
  subst a. cbn [snd] in Hbody. unfold bind at 1. rewrite Hbody.
  unfold bind, rollback, bind, call.
  destruct (remote (trace w2) (AuthDeleteUser uid)); reflexivity.
Qed.

(** The identity created by the first call is in the store when the
    inner [try] block is left. *)
Lemma created_identity_is_stored (wsUser : WsUser) (dept : string)
  (w w2 : World) (uid caught : string) :
  remote (trace w)
    (AuthCreateUser (email wsUser) Config.password (profile_of wsUser dept rd))
  = Ok uid ->
  profile_and_role remote wsUser dept rd uid
    (call remote
       (AuthCreateUser (email wsUser) Config.password
          (profile_of wsUser dept rd)) w).2
  = (inr caught, w2) ->
  uid ∈ auth_users w2.
Proof.
  intros Hauth Hbody.
  pose proof (profile_and_role_store wsUser dept uid
                (call remote
                   (AuthCreateUser (email wsUser) Config.password
                      (profile_of wsUser dept rd)) w).2) as Hstore.
  rewrite Hbody in Hstore. cbn [snd] in Hstore.
  rewrite Hstore. unfold call. cbn [snd auth_users]. rewrite Hauth.
  cbn [store_after]. apply elem_of_union_l, elem_of_singleton. reflexivity.
Qed.

(** C4.  [createUser] awaits [deleteUser] and does not look at its
    answer.  When the identity was created, the profile or role step then
    failed with [caught] and the deletion does not succeed, the deletion
    is still the last remote call, the identity is still in the store,
    and the result is an ordinary failure: when the deletion answered
    with an error it carries [caught] alone, exactly what a clean
    rollback returns; when the deletion was rejected it carries the
    message of the rejection in place of [caught].  Nothing tells the
    caller that the rollback failed. *)
Theorem failed_rollback_is_not_escalated (wsUser : WsUser) (dept : string)
  (w w2 : World) (uid caught : string) :
  remote (trace w)
    (AuthCreateUser (email wsUser) Config.password (profile_of wsUser dept rd))
  = Ok uid ->
  profile_and_role remote wsUser dept rd uid
    (call remote
       (AuthCreateUser (email wsUser) Config.password
          (profile_of wsUser dept rd)) w).2
  = (inr caught, w2) ->
  (forall id, remote (trace w2) (AuthDeleteUser uid) <> Ok id) ->
  trace (createUser remote wsUser dept rd w).2
  = trace w2 ++ [AuthDeleteUser uid]
  /\ uid ∈ auth_users (createUser remote wsUser dept rd w).2
  /\ (createUser remote wsUser dept rd w).1
     = failure match remote (trace w2) (AuthDeleteUser uid) with
               | Throw m => m
               | _ => caught
               end
  /\ forall m, remote (trace w2) (AuthDeleteUser uid) = Err m ->
       (createUser remote wsUser dept rd w).1 = failure caught.
Proof.
  intros Hauth Hbody Hdel.
  pose proof (created_identity_is_stored wsUser dept w w2 uid caught
                Hauth Hbody) as Hin.
  rewrite (createUser_rollback_run wsUser dept w w2 uid caught Hauth Hbody).
  unfold call. cbn [fst snd trace auth_users].
  split; [reflexivity|]. split.
  { destruct (remote (trace w2) (AuthDeleteUser uid)) as [id|m|m] eqn:Hr;
      cbn [store_after]; [|exact Hin|exact Hin].
    exfalso. apply (Hdel id). reflexivity. }
  split; [reflexivity|].
  intros m Hm. rewrite Hm. reflexivity.
Qed.

(** X29.  A rollback that works: when the identity was created, the
    profile or role step then failed with [caught] and [deleteUser]
    succeeds, the deletion is the next and last remote call, the identity
    is absent from the store afterwards and the result is a failure that
    carries [caught], the error of the step that failed. *)
Theorem clean_rollback_removes_the_identity (wsUser : WsUser) (dept : string)
  (w w2 : World) (uid caught id : string) :
  remote (trace w)
    (AuthCreateUser (email wsUser) Config.password (profile_of wsUser dept rd))
  = Ok uid ->
  profile_and_role remote wsUser dept rd uid
    (call remote
       (AuthCreateUser (email wsUser) Config.password
          (profile_of wsUser dept rd)) w).2
  = (inr caught, w2) ->
  remote (trace w2) (AuthDeleteUser uid) = Ok id ->
  trace (createUser remote wsUser dept rd w).2
  = trace w2 ++ [AuthDeleteUser uid]
  /\ (uid ∉ auth_users (createUser remote wsUser dept rd w).2)
  /\ (createUser remote wsUser dept rd w).1 = failure caught.
Proof.
  intros Hauth Hbody Hdel.
  rewrite (createUser_rollback_run wsUser dept w w2 uid caught Hauth Hbody).
  unfold call. cbn [fst snd trace auth_users]. rewrite Hdel.
  cbn [store_after].
  split; [reflexivity|]. split; [|reflexivity].
  rewrite elem_of_difference, elem_of_singleton. tauto.
Qed.

Lemma create_loop_failure_run cfg n i user rest st w res w1 :
  Config.continueOnError cfg = false ->
  createUser remote (ws_user_of user) (mu_department user) rd w = (res, w1) ->
  success res = false ->
  create_loop remote cfg rd n i (user :: rest) st w
  = ({| created := created st; errors := S (errors st);
        details := details st ++
          [{| d_email := mu_email user; d_department := mu_department user;
              d_status := Failed (default EmptyString (error res)) |}] |},
     (Tracker.save (Tracker.addProcessed (mu_email user) false w1).2).2).
Proof.
  intros Hcont Hrun Hfail. cbn [create_loop]. unfold bind at 1.
  rewrite Hrun, Hfail, Hcont. cbn [negb]. unfold bind at 1.
  destruct (Tracker.addProcessed (mu_email user) false w1) as [[] w2].
  unfold bind at 1. cbn [snd].
  destruct (Tracker.save w2) as [[] w3]. reflexivity.
Qed.

Lemma delete_loop_failure_run cfg n i duser drest dst w res w1 :
  Config.continueOnError cfg = false ->
  UserDelete.softDeleteUser remote duser rd w = (res, w1) ->
  UserDelete.success res = false ->
  UserDelete.delete_loop remote cfg rd n i (duser :: drest) dst w
  = ({| UserDelete.deleted := UserDelete.deleted dst;
        UserDelete.errors := S (UserDelete.errors dst);
        UserDelete.details := UserDelete.details dst ++
          [{| d_email := du_email duser;
              d_department := du_supa_department duser;
              d_status := Failed (default EmptyString (UserDelete.error res)) |}] |},
     w1).
Proof.
  intros Hcont Hrun Hfail. cbn [UserDelete.delete_loop]. unfold bind at 1.
  rewrite Hrun, Hfail, Hcont. reflexivity.
Qed.

Lemma softDeleteUser_trace duser w :
  trace (UserDelete.softDeleteUser remote duser rd w).2
  = trace w ++ [ProfileUpdate (du_user_id duser) (deletedDepartmentId rd)
                  (deletedTeamId rd)].
Proof.
  unfold UserDelete.softDeleteUser, bind, call.
  destruct (remote (trace w) _); reflexivity.
Qed.

(** C6 (amended).  With [continueOnError] off, an item whose remote
    execution fails ends the loop of its phase at once, whatever items
    remain: nothing remote follows the failed item.  In the create phase
    the failed address is added to the ledger and the ledger is written
    to its file before the loop is left; the soft-delete phase keeps no
    ledger and leaves the loop without a further event. *)
Theorem stop_on_first_failure (cfg : Config.sync) (n i : nat)
  (user : MissingUser) (rest : list MissingUser) (st : Stats)
  (duser : DeletedUser) (drest : list DeletedUser) (dst : UserDelete.Stats)
  (w : World) :
  Config.continueOnError cfg = false ->
  (success (createUser remote (ws_user_of user) (mu_department user) rd w).1
   = false ->
   extends_with local_event
     (createUser remote (ws_user_of user) (mu_department user) rd w).2
     (create_loop remote cfg rd n i (user :: rest) st w).2
   /\ auth_users (create_loop remote cfg rd n i (user :: rest) st w).2
      = auth_users
          (createUser remote (ws_user_of user) (mu_department user) rd w).2
   /\ fs_file (create_loop remote cfg rd n i (user :: rest) st w).2
      = Some (tracker (create_loop remote cfg rd n i (user :: rest) st w).2)
   /\ processedEmails
        (tracker (create_loop remote cfg rd n i (user :: rest) st w).2)
      = processedEmails
          (tracker
             (createUser remote (ws_user_of user) (mu_department user) rd w).2)
        ++ [mu_email user]
   /\ (exists earlier,
         trace (create_loop remote cfg rd n i (user :: rest) st w).2
         = earlier
           ++ [WriteFile
                 (tracker (create_loop remote cfg rd n i (user :: rest) st w).2)])
   /\ created (create_loop remote cfg rd n i (user :: rest) st w).1
      = created st
   /\ errors (create_loop remote cfg rd n i (user :: rest) st w).1
      = S (errors st))
  /\
  (UserDelete.success (UserDelete.softDeleteUser remote duser rd w).1 = false ->
   (UserDelete.delete_loop remote cfg rd n i (duser :: drest) dst w).2
   = (UserDelete.softDeleteUser remote duser rd w).2
   /\ trace (UserDelete.softDeleteUser remote duser rd w).2
      = trace w
        ++ [ProfileUpdate (du_user_id duser) (deletedDepartmentId rd)
              (deletedTeamId rd)]
   /\ UserDelete.deleted
        (UserDelete.delete_loop remote cfg rd n i (duser :: drest) dst w).1
      = UserDelete.deleted dst
   /\ UserDelete.errors
        (UserDelete.delete_loop remote cfg rd n i (duser :: drest) dst w).1
      = S (UserDelete.errors dst)).
Proof.
  intros Hcont. split.
  - destruct (createUser remote (ws_user_of user) (mu_department user) rd w)
      as [res w1] eqn:Hrun.
    cbn [fst snd]. intros Hfail.
    rewrite (create_loop_failure_run cfg n i user rest st w res w1 Hcont Hrun Hfail).
    cbn [fst snd created errors].
    split.
    { eapply extends_trans.
      - apply (emits_addProcessed local_event (fun e H => H)).
      - apply (emits_save local_event (fun e H => H)). }
    unfold Tracker.addProcessed, bind, get_tracker, set_tracker.
    cbn [processedEmails tracker].
    destruct (Nat.eqb _ 0); cbn; repeat split; try reflexivity; eauto.
  - destruct (UserDelete.softDeleteUser remote duser rd w) as [res w1] eqn:Hrun.
    cbn [fst snd]. intros Hfail.
    rewrite (delete_loop_failure_run cfg n i duser drest dst w res w1 Hcont Hrun Hfail).
    cbn [fst snd UserDelete.deleted UserDelete.errors].
    split; [reflexivity|]. split; [|split; reflexivity].
    pose proof (softDeleteUser_trace duser w) as Htr. rewrite Hrun in Htr.
    exact Htr.
Qed.

Lemma create_loop_success_run cfg n i user rest st w res w1 :
  createUser remote (ws_user_of user) (mu_department user) rd w = (res, w1) ->
  success res = true ->
  create_loop remote cfg rd n i (user :: rest) st w
  = create_loop remote cfg rd n (S i) rest
      {| created := S (created st); errors := errors st;
         details := details st ++
           [{| d_email := mu_email user; d_department := mu_department user;
               d_status := Created (default EmptyString (userId res)) |}] |}
      (pace cfg n i (Tracker.addProcessed (mu_email user) true w1).2).2.
Proof.
  intros Hrun Hok. cbn [create_loop]. unfold bind at 1.
  rewrite Hrun, Hok. unfold bind at 1.
  destruct (Tracker.addProcessed (mu_email user) true w1) as [[] w2].
  unfold bind at 1. cbn [snd]. destruct (pace cfg n i w2) as [[] w3].
  reflexivity.
Qed.

(** With [continueOnError] off one invocation of the create loop records
    at most one failed item. *)
Lemma create_loop_one_failure_at_most cfg n users :
  Config.continueOnError cfg = false ->
  forall i st w,
    errors (create_loop remote cfg rd n i users st w).1 <= S (errors st).
Proof.
  intros Hcont. induction users as [|u users IH]; intros i st w.
  - cbn. lia.
  - destruct (createUser remote (ws_user_of u) (mu_department u) rd w)
      as [res w1] eqn:Hrun.
    destruct (success res) eqn:Hres.
    + rewrite (create_loop_success_run cfg n i u users st w res w1 Hrun Hres).
      etransitivity; [apply IH|]. cbn [errors]. lia.
    + rewrite (create_loop_failure_run cfg n i u users st w res w1 Hcont Hrun Hres).
      cbn [fst errors]. lia.
Qed.

(** The slip that follows the stop: the create phase clears the ledger
    after its loop on every path, so a non-dry run that reaches the loop
    ends without a ledger file even when it stopped on an error. *)
Lemma create_phase_ends_without_ledger cfg items w :
  Config.dryRun cfg = false ->
  Exists (fun u => valid u rd
                   && negb (existsb (String.eqb (mu_email u)) (recorded w)) = true)
    items ->
  fs_file (createUsers remote cfg items rd w).2 = None.
Proof.
  intros Hdry Hex. rewrite createUsers_run. cbv zeta. rewrite Hdry.
  apply List.Exists_exists in Hex. destruct Hex as (u & Hin & Hu).
  apply andb_true_iff in Hu. destruct Hu as [Hv Hnp].
  assert (Hunp : In u (Tracker.filterUnprocessed (tracker (start_world w)) items)).
  { apply filter_In. split; [exact Hin|]. rewrite isProcessed_recorded. exact Hnp. }
  destruct (Nat.eqb (length _) 0) eqn:Hlen; [reflexivity|].
  rewrite validate_all_spec. cbn [fst snd].
  destruct (Nat.eqb (length (List.filter _ _)) 0) eqn:Hlen2; [|reflexivity].
  apply Nat.eqb_eq, length_zero_iff_nil in Hlen2.
  assert (Hin2 : In u (List.filter (fun u => valid u rd)
                         (Tracker.filterUnprocessed (tracker (start_world w)) items))).
  { apply filter_In. auto. }
  rewrite Hlen2 in Hin2. destruct Hin2.
Qed.

End ItemFacts.

(** ** A run in which every remote call succeeds *)

Section AllSucceed.
Import Data Ledger Sys UserCreate.
Variable remote : Remote.
Variable rd : RefData.

Abbreviation always_ok := (Run.always_ok remote).

Lemma auth_emails_app a b : auth_emails (a ++ b) = auth_emails a ++ auth_emails b.
Proof.
  induction a as [|e a IH]; [reflexivity|].
  destruct e; cbn [app auth_emails]; rewrite IH; reflexivity.
Qed.

Lemma auth_emails_none new : Forall not_creation new -> auth_emails new = [].
Proof.
  induction 1 as [|e new He _ IH]; [reflexivity|].
  destruct e; cbn [auth_emails]; auto. destruct He.
Qed.

Lemma auth_emails_extends w w' :
  extends_with not_creation w w' ->
  auth_emails (trace w') = auth_emails (trace w).
Proof.
  intros (new & -> & Hnew).
  rewrite auth_emails_app, (auth_emails_none new Hnew). apply app_nil_r.
Qed.

Lemma not_creation_local e : local_event e -> not_creation e.
Proof. destruct e; simpl; tauto. Qed.

Hypothesis Hok : always_ok.

Lemma createUser_all_ok wsUser dept w :
  exists uid w1,
    createUser remote wsUser dept rd w
    = ({| success := true; userId := Some uid; error := None |}, w1)
    /\ auth_emails (trace w1) = auth_emails (trace w) ++ [email wsUser]
    /\ fs_file w1 = fs_file w /\ tracker w1 = tracker w.
Proof.
  assert (Hno : forall h e, match remote h e with Ok _ => True | _ => False end).
  { intros h e. destruct (Hok h e) as [id ->]. exact I. }
  unfold createUser, profile_and_role, bind, call. cbn [trace].
  pose proof (Hno (trace w)
                (AuthCreateUser (email wsUser) Config.password
                   (profile_of wsUser dept rd))) as H1.
  destruct (remote (trace w) _) as [uid|m|m]; try destruct H1.
  cbv beta iota zeta. cbn [trace].
  pose proof (Hno (trace w ++ [AuthCreateUser (email wsUser) Config.password
                                 (profile_of wsUser dept rd)])
                (ProfileUpsert uid (email wsUser) (profile_of wsUser dept rd)))
    as H2.
  destruct (remote _ (ProfileUpsert uid _ _)) as [i2|m|m]; try destruct H2.
  cbv beta iota zeta. cbn [trace].
  pose proof (Hno ((trace w ++ [AuthCreateUser (email wsUser) Config.password
                                  (profile_of wsUser dept rd)])
                   ++ [ProfileUpsert uid (email wsUser)
                         (profile_of wsUser dept rd)])
                (RoleInsert uid (roleId rd))) as H3.
  destruct (remote _ (RoleInsert uid _)) as [i3|m|m]; try destruct H3.
  cbv beta iota zeta.
  eexists. eexists. split; [reflexivity|]. cbn [trace fs_file tracker].
  rewrite !auth_emails_app. cbn [auth_emails]. rewrite !app_nil_r.
  repeat split; reflexivity.
Qed.

Lemma create_loop_step_ok cfg n i u users st w :
  exists st' w3,
    create_loop remote cfg rd n i (u :: users) st w
    = create_loop remote cfg rd n (S i) users st' w3
    /\ created st' = S (created st)
    /\ errors st' = errors st
    /\ (exists d, details st' = details st ++ [d] /\ is_created d = true)
    /\ auth_emails (trace w3) = auth_emails (trace w) ++ [mu_email u].
Proof.
  cbn [create_loop]. unfold bind at 1.
  destruct (createUser_all_ok (ws_user_of u) (mu_department u) w)
    as (uid & w1 & -> & Hem & _ & _).
  cbn [success]. unfold bind at 1.
  pose proof (emits_addProcessed not_creation not_creation_local
                (mu_email u) true w1) as Hadd.
  destruct (Tracker.addProcessed (mu_email u) true w1) as [[] w2].
  cbn [snd] in Hadd. unfold bind at 1.
  pose proof (emits_pace not_creation cfg n i (fun _ => I) w2) as Hpace.
  destruct (pace cfg n i w2) as [[] w3]. cbn [snd] in Hpace.
  apply auth_emails_extends in Hadd. apply auth_emails_extends in Hpace.
  eexists. exists w3. split; [reflexivity|]. cbn [created errors details].
  split; [reflexivity|]. split; [reflexivity|]. split.
  { eexists. split; reflexivity. }
  rewrite Hpace, Hadd, Hem. reflexivity.
Qed.

Lemma create_loop_all_ok cfg n users : forall i st w,
  created (create_loop remote cfg rd n i users st w).1
  = created st + length users
  /\ errors (create_loop remote cfg rd n i users st w).1 = errors st
  /\ (exists ds,
        details (create_loop remote cfg rd n i users st w).1 = details st ++ ds
        /\ length ds = length users
        /\ forallb is_created ds = true)
  /\ auth_emails (trace (create_loop remote cfg rd n i users st w).2)
     = auth_emails (trace w) ++ map mu_email users.
Proof.
  induction users as [|u users IH]; intros i st w.
  - cbn [create_loop ret fst snd length map]. rewrite Nat.add_0_r, app_nil_r.
    repeat split. exists []. rewrite app_nil_r. auto.
  - destruct (create_loop_step_ok cfg n i u users st w)
      as (st' & w3 & -> & Hc' & He' & (d & Hd' & Hdc) & Ht').
    destruct (IH (S i) st' w3) as (Hc & He & (ds & Hd & Hl & Hf) & Ht).
    split; [rewrite Hc, Hc'; cbn [length]; lia|].
    split; [rewrite He; exact He'|]. split.
    { exists (d :: ds). rewrite Hd, Hd', <- app_assoc. split; [reflexivity|].
      cbn [length forallb]. split; [lia|]. rewrite Hdc, Hf. reflexivity. }
    rewrite Ht, Ht', <- app_assoc. reflexivity.
Qed.

(** C7.  Batch size 10, delay 1000 ms, [continueOnError] off, 25 items
    none of which is in the ledger; item 7 fails validation, the other 24
    pass, and every remote call succeeds.  The run makes the creation
    call for each of the 24 valid items, in order, and none besides;
    the statistics report 24 created and one error, the detail lines are
    24 [created] and one [validation_error]; at the end the ledger file
    is gone and the tracker is blank. *)
Theorem scenario_25_items_one_invalid (before after : list MissingUser)
  (bad : MissingUser) (w : World) :
  length before = 6 ->
  length after = 18 ->
  forallb (fun u => valid u rd) before = true ->
  valid bad rd = false ->
  forallb (fun u => valid u rd) after = true ->
  forallb (fun u => negb (existsb (String.eqb (mu_email u)) (recorded w)))
    (before ++ bad :: after) = true ->
  let cfg := {| Config.dryRun := false; Config.batchSize := 10;
                Config.delayBetweenBatches := 1000;
                Config.continueOnError := false |} in
  let r := createUsers remote cfg (before ++ bad :: after) rd w in
  created r.1 = 24
  /\ errors r.1 = 1
  /\ length (List.filter is_created (details r.1)) = 24
  /\ length (List.filter is_validation_error (details r.1)) = 1
  /\ length (details r.1) = 25
  /\ (exists new, trace r.2 = trace w ++ new
        /\ auth_emails new = map mu_email (before ++ after))
  /\ fs_file r.2 = None
  /\ tracker r.2 = blank.
Proof.
  intros Hb Ha Hvb Hbad Hva Hfresh cfg r. subst r.
  rewrite createUsers_run. cbv zeta.
  set (items := before ++ bad :: after) in *.
  assert (Hunp : Tracker.filterUnprocessed (tracker (start_world w)) items = items).
  { unfold Tracker.filterUnprocessed. apply forallb_filter_id.
    rewrite forallb_forall in *. intros u Hu.
    rewrite isProcessed_recorded. apply Hfresh, Hu. }
  rewrite Hunp.
  assert (Hlen : length items = 25).
  { unfold items. rewrite length_app. cbn [length]. lia. }
  rewrite Hlen. cbn [Nat.eqb]. rewrite validate_all_spec. cbn [fst snd].
  assert (Hvalid : List.filter (fun u => valid u rd) items = before ++ after).
  { unfold items. rewrite List.filter_app. cbn [List.filter]. rewrite Hbad.
    rewrite !forallb_filter_id by assumption. reflexivity. }
  assert (Hinvalid : List.filter (fun u => negb (valid u rd)) items = [bad]).
  { unfold items. rewrite List.filter_app. cbn [List.filter]. rewrite Hbad.
    cbn [negb].
    assert (Hnone : forall l, forallb (fun u => valid u rd) l = true ->
                              List.filter (fun u => negb (valid u rd)) l = []).
    { induction l as [|x l IHl]; [reflexivity|]. cbn [forallb List.filter].
      intros H. apply andb_true_iff in H. destruct H as [-> H].
      cbn [negb]. auto. }
    rewrite !Hnone by assumption. reflexivity. }
  rewrite Hvalid, Hinvalid.
  assert (Hlen2 : length (before ++ after) = 24) by (rewrite length_app; lia).
  rewrite Hlen2. cbn [Nat.eqb Config.dryRun cfg length map].
  assert (Hall : Forall (fun _ : MissingUser => True) (before ++ after)).
  { apply List.Forall_forall. intros; exact I. }
  match goal with
  | |- context [create_loop remote ?c rd 24 0 (before ++ after) ?s ?w0] =>
      destruct (create_loop_all_ok c 24 (before ++ after) 0 s w0)
        as (Hc & He & (ds & Hd & Hl & Hf) & Ht);
      pose proof (emits_create_loop remote rd (fun _ => True) c 24
                    (before ++ after) Hall 0 s w0) as Hext;
      destruct (create_loop remote c rd 24 0 (before ++ after) s w0)
        as [st' w3]
  end.
  cbn [fst snd created errors details] in *.
  split; [rewrite Hc, Hlen2; reflexivity|]. split; [exact He|].
  assert (Hfc : forall l, forallb is_created l = true ->
                          List.filter is_created l = l
                          /\ List.filter is_validation_error l = []).
  { induction l as [|x l IHl]; [auto|]. cbn [forallb List.filter].
    intros H. apply andb_true_iff in H. destruct H as [Hx H].
    rewrite Hx. destruct (IHl H) as [-> ->].
    unfold is_created in Hx. unfold is_validation_error.
    destruct (d_status x); try discriminate. auto. }
  destruct (Hfc ds Hf) as [Hfc1 Hfc2].
  rewrite Hd, !List.filter_app, Hfc1, Hfc2, !length_app. cbn. rewrite Hl, Hlen2.
  repeat (split; [reflexivity|]).
  split; [|split; reflexivity].
  pose proof (start_world_extends not_creation w not_creation_local) as Hstart.
  destruct Hstart as (n1 & Hn1 & Hf1). destruct Hext as (n2 & Hn2 & _).
  exists (n1 ++ n2 ++ [Unlink]). split.
  { cbn. rewrite Hn2, Hn1, <- !app_assoc. reflexivity. }
  pose proof Ht as Ht'. rewrite Hn2, Hn1, !auth_emails_app in Ht'.
  rewrite !auth_emails_app. cbn [auth_emails]. rewrite app_nil_r.
  rewrite (auth_emails_none n1 Hf1) in *. rewrite app_nil_r in Ht'.
  apply app_inv_head in Ht'. exact Ht'.
Qed.

End AllSucceed.

(** ** Comparator *)

Section CompareFacts.
Import Data Compare.
Variable toLowerCase : string -> string.
Variable mapDepartment : string -> option string.
Variable mappedDepartments : list string.

Abbreviation index_by_email := (Compare.index_by_email toLowerCase).
Abbreviation expectedDepartment :=
  (Compare.expectedDepartment toLowerCase mapDepartment).
Abbreviation ws_step := (Compare.ws_step toLowerCase mapDepartment).
Abbreviation ws_loop := (Compare.ws_loop toLowerCase mapDepartment).
Abbreviation supa_step := (Compare.supa_step toLowerCase).
Abbreviation supa_loop := (Compare.supa_loop toLowerCase).
Abbreviation compareUsers :=
  (Compare.compareUsers toLowerCase mapDepartment mappedDepartments).
Abbreviation key_determines_department :=
  (Report.key_determines_department toLowerCase).
Abbreviation key_ws := (Report.key_ws toLowerCase).
Abbreviation key_su := (Report.key_su toLowerCase).
Abbreviation in_dept := (Report.in_dept toLowerCase mapDepartment).
Abbreviation is_matched := (Report.is_matched toLowerCase mapDepartment).
Abbreviation missing_of := (Report.missing_of toLowerCase mapDepartment).
Abbreviation dept_missing_of :=
  (Report.dept_missing_of toLowerCase mapDepartment).
Abbreviation difference_of := (Report.difference_of toLowerCase mapDepartment).
Abbreviation apply_ws := (Report.apply_ws toLowerCase mapDepartment).
Abbreviation ws_closed := (Report.ws_closed toLowerCase mapDepartment).
Abbreviation resolvable := (Report.resolvable toLowerCase mapDepartment).
Abbreviation extra_of := (Report.extra_of toLowerCase).
Abbreviation deleted_of := (Report.deleted_of toLowerCase).
Abbreviation admissible := (Report.admissible toLowerCase).
Abbreviation apply_supa := (Report.apply_supa toLowerCase).
Abbreviation supa_closed := (Report.supa_closed toLowerCase).

(** *** Lookups in a plain object *)

Lemma get_cases {A} (o : gmap string A) k :
  (exists v, o !! k = Some v /\ JS.get o k = JS.Own v)
  \/ (o !! k = None /\ JS.inherited k = true /\ JS.get o k = JS.Inherited k)
  \/ (o !! k = None /\ JS.inherited k = false /\ JS.get o k = JS.Undefined).
Proof.
  unfold JS.get. destruct (o !! k) as [v|]; [left; eauto|].
  destruct (JS.inherited k); [right; left|right; right]; auto.
Qed.

Lemma get_Own {A} (o : gmap string A) k v :
  o !! k = Some v -> JS.get o k = JS.Own v.
Proof. intros H. unfold JS.get. rewrite H. reflexivity. Qed.

(** Two objects with the same own keys find values of the same kind. *)
Lemma get_same_keys {A} (o o' : gmap string A) k :
  (is_Some (o' !! k) <-> is_Some (o !! k)) ->
  match JS.get o' k, JS.get o k with
  | JS.Own _, JS.Own _ | JS.Inherited _, JS.Inherited _
  | JS.Undefined, JS.Undefined => True
  | _, _ => False
  end.
Proof.
  intros Hk. unfold JS.get.
  destruct (o' !! k) as [x|], (o !! k) as [y|]; try exact I.
  - destruct Hk as [Hk _]. destruct Hk as [? ?]; [eauto|discriminate].
  - destruct Hk as [_ Hk]. destruct Hk as [? ?]; [eauto|discriminate].
  - destruct (JS.inherited k); exact I.
Qed.

(** *** The email index *)

Lemma index_fold_None {A} (key : A -> string) (l : list A) :
  forall (m : gmap string A) k,
    fold_left (fun m u => <[toLowerCase (key u) := u]> m) l m !! k = None
    <-> m !! k = None /\ Forall (fun u => toLowerCase (key u) <> k) l.
Proof.
  induction l as [|u l IH]; intros m k; cbn [fold_left].
  - split; [intros H; split; [exact H|constructor]|tauto].
  - rewrite IH, lookup_insert_None, List.Forall_cons_iff. tauto.
Qed.

Lemma index_fold_Some {A} (key : A -> string) (l : list A) :
  forall (m : gmap string A) k v,
    fold_left (fun m u => <[toLowerCase (key u) := u]> m) l m !! k = Some v ->
    m !! k = Some v \/ (In v l /\ toLowerCase (key v) = k).
Proof.
  induction l as [|u l IH]; intros m k v; cbn [fold_left]; [tauto|].
  intros H. apply IH in H. destruct H as [H|[H1 H2]].
  - apply lookup_insert_Some in H. destruct H as [[<- <-]|[_ H]].
    + right. split; [left; reflexivity|reflexivity].
    + left. exact H.
  - right. split; [right; exact H1|exact H2].
Qed.

Lemma index_None {A} (key : A -> string) (l : list A) k :
  index_by_email key l !! k = None
  <-> Forall (fun u => toLowerCase (key u) <> k) l.
Proof.
  unfold Compare.index_by_email. rewrite index_fold_None, lookup_empty. tauto.
Qed.

Lemma index_Some {A} (key : A -> string) (l : list A) k v :
  index_by_email key l !! k = Some v ->
  In v l /\ toLowerCase (key v) = k.
Proof.
  unfold Compare.index_by_email. intros H. apply index_fold_Some in H.
  rewrite lookup_empty in H. destruct H as [H|H]; [discriminate|exact H].
Qed.

(** Whether a key is indexed does not depend on the order of the list. *)
Lemma index_None_perm {A} (key : A -> string) (l l' : list A) k :
  l ≡ₚ l' ->
  index_by_email key l !! k = None <-> index_by_email key l' !! k = None.
Proof. intros Hp. rewrite !index_None, Hp. reflexivity. Qed.

Lemma dept_view_perm supa supa' k :
  supa ≡ₚ supa' ->
  key_determines_department supa ->
  dept_view (index_by_email su_email supa) k
  = dept_view (index_by_email su_email supa') k.
Proof.
  intros Hp Hkey. unfold dept_view.
  destruct (index_by_email su_email supa !! k) as [s|] eqn:H1;
    destruct (index_by_email su_email supa' !! k) as [s'|] eqn:H2;
    cbn [fmap option_fmap option_map]; try reflexivity.
  - apply index_Some in H1, H2. destruct H1 as [I1 K1], H2 as [I2 K2].
    f_equal. apply Hkey; [exact I1| |congruence].
    apply list_elem_of_In. rewrite Hp. apply list_elem_of_In. exact I2.
  - apply (index_None_perm su_email supa supa' k Hp) in H2. congruence.
  - apply (index_None_perm su_email supa supa' k Hp) in H1. congruence.
Qed.

(** *** The source loop in closed form *)

Lemma stats_eq (a b : Stats) :
  ws_total a = ws_total b -> supa_total a = supa_total b ->
  matched a = matched b ->
  missing_in_supabase a = missing_in_supabase b ->
  deleted_from_ws a = deleted_from_ws b ->
  (forall d, by_department a !! d = by_department b !! d) ->
  a = b.
Proof.
  destruct a, b; cbn. intros -> -> -> -> -> H. f_equal. apply map_eq, H.
Qed.

Lemma dept_eq (a b : DeptStats) :
  ws_count a = ws_count b -> supa_count a = supa_count b ->
  dept_missing_in_supabase a = dept_missing_in_supabase b ->
  extra_in_supabase a = extra_in_supabase b ->
  department_differences a = department_differences b ->
  a = b.
Proof. destruct a, b; cbn. intros -> -> -> -> ->. reflexivity. Qed.

Lemma in_dept_true d u : in_dept d u = true <-> expectedDepartment u = Some d.
Proof. unfold in_dept. apply bool_decide_eq_true. Qed.

Lemma in_dept_false d u : in_dept d u = false <-> expectedDepartment u <> Some d.
Proof. unfold in_dept. apply bool_decide_eq_false. Qed.

Lemma apply_ws_nil idx d ds : apply_ws idx [] d ds = ds.
Proof.
  apply dept_eq; cbn; rewrite ?app_nil_r; auto.
Qed.

Lemma apply_ws_other idx d u ds :
  in_dept d u = false -> apply_ws idx [u] d ds = ds.
Proof.
  intros H. apply dept_eq; unfold apply_ws, dept_missing_of, difference_of;
    cbn [ws_count supa_count dept_missing_in_supabase extra_in_supabase
         department_differences List.filter omap list_omap];
    rewrite ?H; cbn [length]; rewrite ?app_nil_r; auto.
Qed.

Lemma apply_ws_cons idx d u l ds :
  apply_ws idx l d (apply_ws idx [u] d ds) = apply_ws idx (u :: l) d ds.
Proof.
  apply dept_eq; unfold apply_ws;
    cbn [ws_count supa_count dept_missing_in_supabase extra_in_supabase
         department_differences List.filter];
    try reflexivity.
  - destruct (in_dept d u); cbn [length]; lia.
  - rewrite <- app_assoc. f_equal. cbn [omap list_omap].
    destruct (dept_missing_of idx d u); reflexivity.
  - rewrite <- app_assoc. f_equal. cbn [omap list_omap].
    destruct (difference_of idx d u); reflexivity.
Qed.

Lemma ws_closed_nil idx st : ws_closed idx st [] = st.
Proof.
  apply stats_eq; cbn; rewrite ?app_nil_r; auto.
  intros d. rewrite map_lookup_imap.
  destruct (by_department st !! d) as [ds|]; cbn; [|reflexivity].
  f_equal. apply apply_ws_nil.
Qed.

Lemma ws_closed_cons idx st u l :
  ws_closed idx (ws_closed idx st [u]) l = ws_closed idx st (u :: l).
Proof.
  apply stats_eq; unfold ws_closed;
    cbn [ws_total supa_total matched missing_in_supabase deleted_from_ws
         by_department List.filter];
    try reflexivity.
  - destruct (is_matched idx u); cbn [length]; lia.
  - rewrite <- app_assoc. f_equal. cbn [omap list_omap].
    destruct (missing_of idx u); reflexivity.
  - intros d. rewrite !map_lookup_imap.
    destruct (by_department st !! d) as [ds|]; cbn; [|reflexivity].
    f_equal. apply apply_ws_cons.
Qed.

Lemma closed_keys idx st l d :
  is_Some (by_department (ws_closed idx st l) !! d)
  <-> is_Some (by_department st !! d).
Proof.
  cbn [by_department ws_closed]. rewrite map_lookup_imap.
  destruct (by_department st !! d); cbn; split; intros [? ?];
    try discriminate; eauto.
Qed.

Lemma resolvable_closed idx idx' st l u :
  resolvable idx' (by_department (ws_closed idx st l)) u
  = resolvable idx' (by_department st) u.
Proof.
  unfold resolvable. destruct (expectedDepartment u) as [d|]; [|reflexivity].
  pose proof (get_same_keys (by_department st)
                (by_department (ws_closed idx st l)) d (closed_keys idx st l d))
    as Hk.
  destruct (JS.get (by_department (ws_closed idx st l)) d),
    (JS.get (by_department st) d); try reflexivity; destruct Hk.
Qed.

Lemma with_dept_Some d f st ds :
  by_department st !! d = Some ds ->
  with_dept d f st
  = Some (set_by_department (<[d := f ds]> (by_department st)) st).
Proof. intros H. unfold with_dept. rewrite (get_Own _ _ _ H). reflexivity. Qed.

Lemma count_dept_Some d f st ds :
  by_department st !! d = Some ds ->
  count_dept d f st
  = Some (set_by_department (<[d := f ds]> (by_department st)) st).
Proof. intros H. unfold count_dept. rewrite (get_Own _ _ _ H). reflexivity. Qed.

Lemma apply_ws_own idx u d0 ds0 :
  expectedDepartment u = Some d0 ->
  apply_ws idx [u] d0 ds0
  = match idx !! key_ws u with
    | None => push_missing (dept_missing_entry u) (incr_ws ds0)
    | Some s =>
        if bool_decide (su_department_name s = Some d0) then incr_ws ds0
        else push_difference (difference_entry u d0 s) (incr_ws ds0)
    end.
Proof.
  intros He. apply in_dept_true in He.
  unfold apply_ws, dept_missing_of, difference_of.
  cbn [List.filter omap list_omap]. rewrite He.
  destruct (idx !! key_ws u) as [s|]; [destruct (bool_decide _)|];
    apply dept_eq; cbn; rewrite ?app_nil_r; auto; lia.
Qed.

Lemma closed_lookup idx (m : gmap string DeptStats) u d0 ds0 d :
  expectedDepartment u = Some d0 ->
  m !! d0 = Some ds0 ->
  map_imap (fun d ds => Some (apply_ws idx [u] d ds)) m !! d
  = <[d0 := apply_ws idx [u] d0 ds0]> m !! d.
Proof.
  intros He Hm. rewrite map_lookup_imap.
  destruct (decide (d = d0)) as [->|Hne].
  - rewrite lookup_insert_eq, Hm. reflexivity.
  - rewrite lookup_insert_ne by congruence.
    destruct (m !! d) as [ds|]; cbn; [|reflexivity].
    f_equal. apply apply_ws_other, in_dept_false. congruence.
Qed.

(** The closed form leaves the entries alone when the user's department
    has none. *)
Lemma closed_lookup_foreign idx (m : gmap string DeptStats) u d :
  (forall d0, expectedDepartment u = Some d0 -> m !! d0 = None) ->
  map_imap (fun d ds => Some (apply_ws idx [u] d ds)) m !! d = m !! d.
Proof.
  intros Hno. rewrite map_lookup_imap.
  destruct (m !! d) as [ds|] eqn:Hm; cbn; [|reflexivity].
  f_equal. apply apply_ws_other, in_dept_false. intros He.
  rewrite (Hno d He) in Hm. discriminate.
Qed.

(** One iteration is the closed form for a one-element list. *)
Lemma ws_step_closed idx st u :
  ws_step idx st u
  = if resolvable idx (by_department st) u then Some (ws_closed idx st [u])
    else None.
Proof.
  unfold Compare.ws_step, resolvable.
  destruct (expectedDepartment u) as [d0|] eqn:He.
  - destruct (get_cases (by_department st) d0)
      as [(ds0 & Hd & Hg)|[(Hd & Hi & Hg)|(Hd & Hi & Hg)]]; rewrite Hg.
    + rewrite (count_dept_Some d0 incr_ws st ds0 Hd).
      pose proof (apply_ws_own idx u d0 ds0 He) as Hown.
      unfold key_ws in Hown.
      destruct (idx !! toLowerCase (ws_email u)) as [s|] eqn:Hi.
      * destruct (bool_decide (su_department_name s = Some d0)) eqn:Hdep.
        -- f_equal. apply stats_eq; unfold ws_closed, is_matched, missing_of, key_ws;
             cbn [ws_total supa_total matched missing_in_supabase
                  deleted_from_ws by_department set_by_department incr_matched
                  List.filter omap list_omap];
             rewrite ?He, ?Hi; cbn [length]; rewrite ?app_nil_r; auto; try lia.
           intros d. rewrite (closed_lookup idx _ u d0 ds0 d He Hd), Hown.
           reflexivity.
        -- rewrite (with_dept_Some d0 _ _ (incr_ws ds0))
             by (cbn; apply lookup_insert_eq).
           f_equal. apply stats_eq; unfold ws_closed, is_matched, missing_of, key_ws;
             cbn [ws_total supa_total matched missing_in_supabase
                  deleted_from_ws by_department set_by_department incr_matched
                  List.filter omap list_omap];
             rewrite ?He, ?Hi; cbn [length]; rewrite ?app_nil_r; auto; try lia.
           intros d. rewrite (closed_lookup idx _ u d0 ds0 d He Hd), Hown.
           rewrite insert_insert_eq. reflexivity.
      * rewrite (with_dept_Some d0 _ _ (incr_ws ds0))
          by (cbn; apply lookup_insert_eq).
        f_equal. apply stats_eq; unfold ws_closed, is_matched, missing_of, key_ws;
          cbn [ws_total supa_total matched missing_in_supabase
               deleted_from_ws by_department set_by_department
               push_global_missing List.filter omap list_omap];
          rewrite ?He, ?Hi; cbn [length]; rewrite ?app_nil_r; auto; try lia.
        intros d. rewrite (closed_lookup idx _ u d0 ds0 d He Hd), Hown.
        rewrite insert_insert_eq. reflexivity.
    + unfold count_dept, with_dept. rewrite Hg. unfold key_ws.
      destruct (idx !! toLowerCase (ws_email u)) as [s|] eqn:Hidx.
      * destruct (bool_decide (su_department_name s = Some d0)) eqn:Hdep.
        -- f_equal. apply stats_eq; unfold ws_closed, is_matched, missing_of, key_ws;
             cbn [ws_total supa_total matched missing_in_supabase
                  deleted_from_ws by_department set_by_department incr_matched
                  List.filter omap list_omap];
             rewrite ?He, ?Hidx; cbn [length]; rewrite ?app_nil_r; auto; try lia.
           intros d. symmetry. apply closed_lookup_foreign. congruence.
        -- cbn [by_department incr_matched]. rewrite Hg. reflexivity.
      * cbn [by_department push_global_missing]. rewrite Hg. reflexivity.
    + unfold count_dept. rewrite Hg. reflexivity.
  - f_equal. symmetry.
    apply stats_eq; unfold ws_closed, is_matched, missing_of;
      cbn [ws_total supa_total matched missing_in_supabase
           deleted_from_ws by_department List.filter omap list_omap];
      rewrite ?He; cbn [length]; rewrite ?app_nil_r; auto; try lia.
    intros d. apply closed_lookup_foreign. congruence.
Qed.

Lemma ws_loop_closed idx l : forall st,
  ws_loop idx st l
  = if forallb (resolvable idx (by_department st)) l
    then Some (ws_closed idx st l) else None.
Proof.
  induction l as [|u l IH]; intros st.
  - cbn. rewrite ws_closed_nil. reflexivity.
  - cbn [Compare.ws_loop forallb]. rewrite ws_step_closed.
    destruct (resolvable idx (by_department st) u); [|reflexivity].
    rewrite IH. cbn [andb].
    assert (Hres : forallb (resolvable idx (by_department (ws_closed idx st [u]))) l
                   = forallb (resolvable idx (by_department st)) l).
    { clear IH. induction l as [|x l IHl]; [reflexivity|].
      cbn [forallb]. rewrite IHl, resolvable_closed. reflexivity. }
    rewrite Hres, ws_closed_cons. reflexivity.
Qed.

(** *** The target loop in closed form *)

Lemma apply_supa_nil idx d ds : apply_supa idx [] d ds = ds.
Proof. apply dept_eq; cbn; rewrite ?app_nil_r; auto. Qed.

Lemma apply_supa_other idx d s ds :
  counted_in d s = false -> apply_supa idx [s] d ds = ds.
Proof.
  intros H. apply dept_eq; unfold apply_supa, extra_of;
    cbn [ws_count supa_count dept_missing_in_supabase extra_in_supabase
         department_differences List.filter omap list_omap];
    rewrite ?H; cbn [length]; rewrite ?app_nil_r; auto.
Qed.

Lemma apply_supa_cons idx d s l ds :
  apply_supa idx l d (apply_supa idx [s] d ds) = apply_supa idx (s :: l) d ds.
Proof.
  apply dept_eq; unfold apply_supa;
    cbn [ws_count supa_count dept_missing_in_supabase extra_in_supabase
         department_differences List.filter];
    try reflexivity.
  - destruct (counted_in d s); cbn [length]; lia.
  - rewrite <- app_assoc. f_equal. cbn [omap list_omap].
    destruct (extra_of idx d s); reflexivity.
Qed.

Lemma deleted_of_same_keys idx (m m' : gmap string DeptStats) s :
  (forall d, is_Some (m' !! d) <-> is_Some (m !! d)) ->
  deleted_of idx m' s = deleted_of idx m s.
Proof.
  intros Hk. unfold deleted_of.
  destruct (su_department_name s) as [d|]; [|reflexivity].
  destruct (JS.falsy d); [reflexivity|].
  specialize (Hk d).
  destruct (m' !! d) as [x|], (m !! d) as [y|]; try reflexivity.
  - destruct Hk as [Hk _]. destruct Hk as [? ?]; [eauto|discriminate].
  - destruct Hk as [_ Hk]. destruct Hk as [? ?]; [eauto|discriminate].
Qed.

Lemma omap_ext_all {A B} (f g : A -> option B) (l : list A) :
  (forall x, f x = g x) -> omap f l = omap g l.
Proof.
  intros H. induction l as [|x l IH]; [reflexivity|].
  cbn [omap list_omap]. rewrite H. f_equal.
  destruct (g x); [f_equal|]; exact IH.
Qed.

Lemma supa_closed_nil idx st : supa_closed idx st [] = st.
Proof.
  apply stats_eq; cbn; rewrite ?app_nil_r; auto.
  intros d. rewrite map_lookup_imap.
  destruct (by_department st !! d) as [ds|]; cbn; [|reflexivity].
  f_equal. apply apply_supa_nil.
Qed.

Lemma supa_closed_cons idx st s l :
  supa_closed idx (supa_closed idx st [s]) l = supa_closed idx st (s :: l).
Proof.
  apply stats_eq; unfold supa_closed;
    cbn [ws_total supa_total matched missing_in_supabase deleted_from_ws
         by_department];
    try reflexivity.
  - rewrite <- app_assoc. f_equal.
    rewrite (omap_ext_all
               (deleted_of idx
                  (map_imap (fun d ds => Some (apply_supa idx [s] d ds))
                     (by_department st)))
               (deleted_of idx (by_department st))).
    + cbn [omap list_omap].
      destruct (deleted_of idx (by_department st) s); reflexivity.
    + intros x. apply deleted_of_same_keys. intros d.
      rewrite map_lookup_imap.
      destruct (by_department st !! d); cbn; split; intros [? ?]; try discriminate; eauto.
  - intros d. rewrite !map_lookup_imap.
    destruct (by_department st !! d) as [ds|]; cbn; [|reflexivity].
    f_equal. apply apply_supa_cons.
Qed.

Lemma counted_in_true d s :
  counted_in d s = true <-> su_department_name s = Some d /\ JS.falsy d = false.
Proof.
  unfold counted_in. rewrite andb_true_iff, bool_decide_eq_true, negb_true_iff.
  reflexivity.
Qed.

Lemma supa_closed_keys idx st l d :
  is_Some (by_department (supa_closed idx st l) !! d)
  <-> is_Some (by_department st !! d).
Proof.
  cbn [by_department supa_closed]. rewrite map_lookup_imap.
  destruct (by_department st !! d); cbn; split; intros [? ?];
    try discriminate; eauto.
Qed.

Lemma admissible_same_keys idx (m m' : gmap string DeptStats) s :
  (forall d, is_Some (m' !! d) <-> is_Some (m !! d)) ->
  admissible idx m' s = admissible idx m s.
Proof.
  intros Hk. unfold admissible.
  destruct (su_department_name s) as [d|]; [|reflexivity].
  destruct (JS.falsy d); [reflexivity|].
  pose proof (get_same_keys m m' d (Hk d)) as Hg.
  destruct (JS.get m' d), (JS.get m d); try reflexivity; destruct Hg.
Qed.

Lemma supa_step_closed idx st s :
  supa_step idx st s
  = if admissible idx (by_department st) s then Some (supa_closed idx st [s])
    else None.
Proof.
  unfold Compare.supa_step, admissible.
  assert (Hskip : (forall d, counted_in d s = true -> by_department st !! d = None) ->
                  deleted_of idx (by_department st) s = None ->
                  st = supa_closed idx st [s]).
  { intros Hc Hd. symmetry. apply stats_eq; unfold supa_closed;
      cbn [ws_total supa_total matched missing_in_supabase deleted_from_ws
           by_department omap list_omap];
      rewrite ?Hd, ?app_nil_r; auto.
    intros d. rewrite map_lookup_imap.
    destruct (by_department st !! d) as [ds|] eqn:Hm; cbn; [|reflexivity].
    f_equal. apply apply_supa_other.
    destruct (counted_in d s) eqn:Hcd; [|reflexivity].
    rewrite (Hc d Hcd) in Hm. discriminate. }
  destruct (su_department_name s) as [d0|] eqn:Hn.
  - destruct (JS.falsy d0) eqn:Hf.
    + f_equal. apply Hskip.
      * intros d Hc. apply counted_in_true in Hc. destruct Hc as [Hc1 Hc2].
        congruence.
      * unfold deleted_of. rewrite Hn, Hf. reflexivity.
    + destruct (get_cases (by_department st) d0)
        as [(ds0 & Hm & Hg)|[(Hm & Hinh & Hg)|(Hm & Hinh & Hg)]]; rewrite Hg.
      * assert (Hc0 : counted_in d0 s = true)
          by (apply counted_in_true; auto).
        assert (Hlook : forall X d,
                  apply_supa idx [s] d0 ds0 = X ->
                  <[d0 := X]> (by_department st) !! d
                  = map_imap (fun d ds => Some (apply_supa idx [s] d ds))
                      (by_department st) !! d).
        { intros X d HX. rewrite map_lookup_imap.
          destruct (decide (d = d0)) as [->|Hne].
          - rewrite lookup_insert_eq, Hm. cbn. f_equal. symmetry. exact HX.
          - rewrite lookup_insert_ne by congruence.
            destruct (by_department st !! d) as [ds|]; cbn; [|reflexivity].
            f_equal. symmetry. apply apply_supa_other.
            destruct (counted_in d s) eqn:Hcd; [|reflexivity].
            apply counted_in_true in Hcd. destruct Hcd. congruence. }
        destruct (idx !! toLowerCase (su_email s)) as [u|] eqn:Hi.
        -- f_equal. apply stats_eq; unfold supa_closed, deleted_of, key_su;
             cbn [ws_total supa_total matched missing_in_supabase
                  deleted_from_ws by_department set_by_department
                  omap list_omap];
             rewrite ?Hn, ?Hf, ?Hm, ?Hi, ?app_nil_r; auto.
           intros d. apply Hlook.
           apply dept_eq; unfold apply_supa, extra_of, key_su;
             cbn [ws_count supa_count dept_missing_in_supabase
                  extra_in_supabase department_differences incr_supa
                  List.filter omap list_omap];
             rewrite ?Hc0, ?Hi; cbn [length]; rewrite ?app_nil_r; auto; lia.
        -- f_equal. apply stats_eq; unfold supa_closed, deleted_of, key_su;
             cbn [ws_total supa_total matched missing_in_supabase
                  deleted_from_ws by_department set_by_department
                  push_global_deleted omap list_omap];
             rewrite ?Hn, ?Hf, ?Hm, ?Hi, ?app_nil_r; auto.
           intros d. apply Hlook.
           apply dept_eq; unfold apply_supa, extra_of, key_su;
             cbn [ws_count supa_count dept_missing_in_supabase
                  extra_in_supabase department_differences incr_supa
                  push_extra List.filter omap list_omap];
             rewrite ?Hc0, ?Hi; cbn [length]; rewrite ?app_nil_r; auto; lia.
      * unfold key_su.
        destruct (idx !! toLowerCase (su_email s)) as [u|] eqn:Hi.
        -- rewrite bool_decide_true by eauto. f_equal. apply Hskip.
           ++ intros d Hc. apply counted_in_true in Hc. destruct Hc as [Hc1 Hc2].
              congruence.
           ++ unfold deleted_of. rewrite Hn, Hf, Hm. reflexivity.
        -- rewrite bool_decide_false; [reflexivity|].
           intros [? ?]; discriminate.
      * f_equal. apply Hskip.
        -- intros d Hc. apply counted_in_true in Hc. destruct Hc as [Hc1 Hc2].
           congruence.
        -- unfold deleted_of. rewrite Hn, Hf, Hm. reflexivity.
  - f_equal. apply Hskip.
    + intros d Hc. apply counted_in_true in Hc. destruct Hc as [Hc1 Hc2].
      congruence.
    + unfold deleted_of. rewrite Hn. reflexivity.
Qed.

Lemma supa_loop_closed idx l : forall st,
  supa_loop idx st l
  = if forallb (admissible idx (by_department st)) l
    then Some (supa_closed idx st l) else None.
Proof.
  induction l as [|s l IH]; intros st.
  - cbn. rewrite supa_closed_nil. reflexivity.
  - cbn [Compare.supa_loop forallb]. rewrite supa_step_closed.
    destruct (admissible idx (by_department st) s); [|reflexivity].
    rewrite IH. cbn [andb].
    assert (Hres : forallb (admissible idx (by_department (supa_closed idx st [s]))) l
                   = forallb (admissible idx (by_department st)) l).
    { clear IH. induction l as [|x l IHl]; [reflexivity|].
      cbn [forallb]. rewrite IHl. f_equal.
      apply admissible_same_keys. intros d. apply supa_closed_keys. }
    rewrite Hres, supa_closed_cons. reflexivity.
Qed.

(** [compareUsers] in closed form. *)
Lemma compareUsers_closed ws supa :
  compareUsers ws supa
  = if forallb (resolvable (index_by_email su_email supa)
                  (Compare.initial_departments mappedDepartments)) ws
       && forallb (admissible (index_by_email ws_email ws)
                     (Compare.initial_departments mappedDepartments)) supa
    then Some (supa_closed (index_by_email ws_email ws)
                 (ws_closed (index_by_email su_email supa)
                    (Compare.initial mappedDepartments ws supa) ws)
                 supa)
    else None.
Proof.
  unfold Compare.compareUsers. rewrite ws_loop_closed.
  cbn [by_department Compare.initial].
  destruct (forallb _ ws); [|reflexivity].
  rewrite supa_loop_closed. cbn [andb].
  assert (Hres : forall l,
            forallb (admissible (index_by_email ws_email ws)
                       (by_department
                          (ws_closed (index_by_email su_email supa)
                             (Compare.initial mappedDepartments ws supa) ws))) l
            = forallb (admissible (index_by_email ws_email ws)
                         (Compare.initial_departments mappedDepartments)) l).
  { induction l as [|x l IHl]; [reflexivity|].
    cbn [forallb]. rewrite IHl. f_equal.
    apply admissible_same_keys. intros d. apply closed_keys. }
  rewrite Hres. reflexivity.
Qed.

(** *** The departments of the report *)

Lemma fold_empty_lookup (l : list string) : forall (m : gmap string DeptStats) d x,
  fold_left (fun m dept => <[dept := empty_dept]> m) l m !! d = Some x
  <-> (In d l /\ x = empty_dept) \/ (~ In d l /\ m !! d = Some x).
Proof.
  induction l as [|a l IH]; intros m d x; cbn [fold_left In].
  - tauto.
  - rewrite IH, lookup_insert_Some.
    destruct (in_dec string_dec d l) as [Hin|Hin];
      destruct (string_dec a d) as [Ha|Ha]; intuition congruence.
Qed.

Lemma initial_lookup d x :
  Compare.initial_departments mappedDepartments !! d = Some x
  <-> (d = DEKRET \/ In d mappedDepartments) /\ x = empty_dept.
Proof.
  unfold Compare.initial_departments.
  rewrite lookup_insert_Some, fold_empty_lookup, lookup_empty.
  destruct (string_dec DEKRET d) as [Hd|Hd]; intuition congruence.
Qed.

Lemma initial_None d :
  Compare.initial_departments mappedDepartments !! d = None
  <-> d <> DEKRET /\ ~ In d mappedDepartments.
Proof.
  destruct (Compare.initial_departments mappedDepartments !! d) as [x|] eqn:H.
  - apply initial_lookup in H. split; [discriminate|tauto].
  - split; [intros _|reflexivity].
    split; intros Hd;
      assert (Hs : Compare.initial_departments mappedDepartments !! d = Some empty_dept)
        by (apply initial_lookup; auto); congruence.
Qed.

(** *** Reading a report *)

Lemma report_global ws supa stats :
  compareUsers ws supa = Some stats ->
  ws_total stats = length ws /\ supa_total stats = length supa
  /\ matched stats
     = length (List.filter (is_matched (index_by_email su_email supa)) ws)
  /\ missing_in_supabase stats
     = omap (missing_of (index_by_email su_email supa)) ws
  /\ deleted_from_ws stats
     = omap (deleted_of (index_by_email ws_email ws)
               (Compare.initial_departments mappedDepartments)) supa.
Proof.
  rewrite compareUsers_closed. destruct (forallb _ ws && forallb _ supa);
    [|discriminate].
  intros [= <-].
  cbn [ws_total supa_total matched missing_in_supabase deleted_from_ws
       Report.supa_closed Report.ws_closed Compare.initial app by_department].
  repeat split; try reflexivity.
  apply omap_ext_all. intros s. apply deleted_of_same_keys.
  intros d. rewrite map_lookup_imap.
  destruct (Compare.initial_departments mappedDepartments !! d); cbn;
    split; intros [? ?]; try discriminate; eauto.
Qed.

Lemma report_department ws supa stats d ds :
  compareUsers ws supa = Some stats ->
  by_department stats !! d = Some ds ->
  (d = DEKRET \/ In d mappedDepartments)
  /\ ds = apply_supa (index_by_email ws_email ws) supa d
            (apply_ws (index_by_email su_email supa) ws d empty_dept).
Proof.
  rewrite compareUsers_closed. destruct (forallb _ ws && forallb _ supa);
    [|discriminate].
  intros [= <-].
  cbn [Report.supa_closed Report.ws_closed Compare.initial by_department].
  rewrite !map_lookup_imap.
  destruct (Compare.initial_departments mappedDepartments !! d) as [x|] eqn:Hd;
    [|discriminate].
  apply initial_lookup in Hd. destruct Hd as [Hd ->]. cbn.
  intros [= <-]. split; [exact Hd|reflexivity].
Qed.

(** A run that returns a report passed every record. *)
Lemma report_passed ws supa stats :
  compareUsers ws supa = Some stats ->
  forallb (resolvable (index_by_email su_email supa)
             (Compare.initial_departments mappedDepartments)) ws = true
  /\ forallb (admissible (index_by_email ws_email ws)
                (Compare.initial_departments mappedDepartments)) supa = true.
Proof.
  rewrite compareUsers_closed.
  destruct (forallb _ ws); [|discriminate].
  destruct (forallb _ supa); [|discriminate]. auto.
Qed.

(** *** Order of the input lists *)

Lemma forallb_perm {A} (f : A -> bool) (l l' : list A) :
  l ≡ₚ l' -> forallb f l = forallb f l'.
Proof.
  induction 1 as [|x l l' _ IH|x y l|l l' l'' _ IH1 _ IH2]; cbn [forallb].
  - reflexivity.
  - rewrite IH. reflexivity.
  - destruct (f x), (f y); reflexivity.
  - congruence.
Qed.

Lemma forallb_ext_all {A} (f g : A -> bool) (l : list A) :
  (forall x, f x = g x) -> forallb f l = forallb g l.
Proof.
  intros H. induction l as [|x l IH]; [reflexivity|].
  cbn [forallb]. rewrite H, IH. reflexivity.
Qed.

Lemma filter_length_perm {A} (f : A -> bool) (l l' : list A) :
  l ≡ₚ l' -> length (List.filter f l) = length (List.filter f l').
Proof.
  induction 1 as [|x l l' _ IH|x y l|l l' l'' _ IH1 _ IH2]; cbn [List.filter].
  - reflexivity.
  - destruct (f x); cbn [length]; rewrite IH; reflexivity.
  - destruct (f x), (f y); reflexivity.
  - congruence.
Qed.

Lemma omap_perm_ext {A B} (f g : A -> option B) (l l' : list A) :
  (forall x, f x = g x) -> l ≡ₚ l' -> omap f l ≡ₚ omap g l'.
Proof.
  intros Hfg Hp. rewrite (omap_ext_all f g l Hfg). rewrite Hp. reflexivity.
Qed.

Section views.
Variables idx idx' : gmap string SupaUser.
Hypothesis Hview : forall k, dept_view idx k = dept_view idx' k.

Lemma view_cases k :
  (idx !! k = None /\ idx' !! k = None)
  \/ (exists s s', idx !! k = Some s /\ idx' !! k = Some s'
                   /\ su_department_name s = su_department_name s').
Proof.
  specialize (Hview k). unfold dept_view in Hview.
  destruct (idx !! k) as [s|], (idx' !! k) as [s'|]; cbn in Hview;
    try discriminate; [right|left; auto].
  exists s, s'. repeat split. congruence.
Qed.

Lemma view_resolvable m u : resolvable idx m u = resolvable idx' m u.
Proof.
  unfold resolvable. destruct (expectedDepartment u) as [d|]; [|reflexivity].
  destruct (JS.get m d); try reflexivity.
  destruct (view_cases (key_ws u)) as [[-> ->]|(s & s' & -> & -> & Hs)];
    [reflexivity|].
  rewrite Hs. reflexivity.
Qed.

Lemma view_is_matched u : is_matched idx u = is_matched idx' u.
Proof.
  unfold is_matched. destruct (expectedDepartment u) as [d|]; [|reflexivity].
  destruct (view_cases (key_ws u)) as [[-> ->]|(s & s' & -> & -> & _)];
    reflexivity.
Qed.

Lemma view_missing_of u : missing_of idx u = missing_of idx' u.
Proof.
  unfold missing_of. destruct (expectedDepartment u) as [d|]; [|reflexivity].
  destruct (view_cases (key_ws u)) as [[-> ->]|(s & s' & -> & -> & _)];
    reflexivity.
Qed.

Lemma view_dept_missing_of d u :
  dept_missing_of idx d u = dept_missing_of idx' d u.
Proof.
  unfold dept_missing_of. destruct (in_dept d u); [|reflexivity].
  destruct (view_cases (key_ws u)) as [[-> ->]|(s & s' & -> & -> & _)];
    reflexivity.
Qed.

Lemma view_difference_of d u :
  difference_of idx d u = difference_of idx' d u.
Proof.
  unfold difference_of. destruct (in_dept d u); [|reflexivity].
  destruct (view_cases (key_ws u)) as [[-> ->]|(s & s' & -> & -> & Hs)];
    [reflexivity|].
  unfold difference_entry. rewrite Hs. reflexivity.
Qed.

End views.

Section presence.
Variables idx idx' : gmap string SourceUser.
Hypothesis Hnone : forall k, idx !! k = None <-> idx' !! k = None.

Lemma presence_cases k :
  (idx !! k = None /\ idx' !! k = None)
  \/ (exists u u', idx !! k = Some u /\ idx' !! k = Some u').
Proof.
  specialize (Hnone k).
  destruct (idx !! k) as [u|], (idx' !! k) as [u'|]; eauto.
  - destruct Hnone as [_ H]. discriminate H. reflexivity.
  - destruct Hnone as [H _]. discriminate H. reflexivity.
Qed.

Lemma presence_admissible m s : admissible idx m s = admissible idx' m s.
Proof.
  unfold admissible. destruct (su_department_name s) as [d|]; [|reflexivity].
  destruct (JS.falsy d); [reflexivity|].
  destruct (JS.get m d); try reflexivity.
  destruct (presence_cases (key_su s)) as [[-> ->]|(u & u' & -> & ->)];
    [reflexivity|].
  rewrite !bool_decide_true by eauto. reflexivity.
Qed.

Lemma presence_extra_of d s : extra_of idx d s = extra_of idx' d s.
Proof.
  unfold extra_of. destruct (counted_in d s); [|reflexivity].
  destruct (presence_cases (key_su s)) as [[-> ->]|(u & u' & -> & ->)];
    reflexivity.
Qed.

Lemma presence_deleted_of m s : deleted_of idx m s = deleted_of idx' m s.
Proof.
  unfold deleted_of. destruct (su_department_name s) as [d|]; [|reflexivity].
  destruct (JS.falsy d); [reflexivity|]. destruct (m !! d); [|reflexivity].
  destruct (presence_cases (key_su s)) as [[-> ->]|(u & u' & -> & ->)];
    reflexivity.
Qed.

End presence.

(** C1 (amended).  [compareUsers] is a function of the two lists, so two
    runs on the same snapshots give the same report.  Permuting the source
    list leaves the outcome unchanged: the run ends in the [catch] block
    for both orders or for neither, and otherwise the totals, the matched
    count, every per-department [ws_count] and [supa_count], and the
    missing, deleted, extra and difference collections agree up to the
    order of their entries.  The same holds when the target list is
    permuted as well, provided target records that share a lower-cased
    address agree on their department (as they do when the addresses are
    pairwise distinct). *)
Theorem comparator_order_independent (ws ws' : list SourceUser)
  (supa supa' : list SupaUser) :
  ws ≡ₚ ws' ->
  supa ≡ₚ supa' ->
  supa' = supa \/ key_determines_department supa ->
  option_Forall2 stats_equiv (compareUsers ws supa) (compareUsers ws' supa').
Proof.
  intros Hws Hsupa Hkey. rewrite !compareUsers_closed.
  assert (Hview : forall k,
            dept_view (index_by_email su_email supa) k
            = dept_view (index_by_email su_email supa') k).
  { destruct Hkey as [->|Hkey]; [reflexivity|].
    intros k. apply dept_view_perm; assumption. }
  pose proof (fun k => index_None_perm ws_email ws ws' k Hws) as Hnone.
  set (idx := index_by_email su_email supa) in *.
  set (idx' := index_by_email su_email supa') in *.
  set (widx := index_by_email ws_email ws) in *.
  set (widx' := index_by_email ws_email ws') in *.
  rewrite <- (forallb_perm _ ws ws' Hws), <- (forallb_perm _ supa supa' Hsupa).
  rewrite <- (forallb_ext_all _ _ ws
                (view_resolvable idx idx' Hview
                   (Compare.initial_departments mappedDepartments))).
  rewrite <- (forallb_ext_all _ _ supa
                (presence_admissible widx widx' Hnone
                   (Compare.initial_departments mappedDepartments))).
  destruct (forallb _ ws && forallb _ supa); [|constructor]. constructor.
  unfold stats_equiv, supa_closed, ws_closed, Compare.initial.
  cbn [ws_total supa_total matched missing_in_supabase deleted_from_ws
       by_department].
  split; [apply Permutation_length, Hws|].
  split; [apply Permutation_length, Hsupa|].
  split.
  { f_equal. rewrite (filter_length_perm _ ws ws' Hws). f_equal.
    apply filter_ext. intros u. apply view_is_matched, Hview. }
  split.
  { cbn [app]. apply omap_perm_ext; [|exact Hws].
    intros u. apply view_missing_of, Hview. }
  split.
  { cbn [app]. apply omap_perm_ext; [|exact Hsupa].
    intros s.
    rewrite (presence_deleted_of widx widx' Hnone).
    apply deleted_of_same_keys. intros d. rewrite !map_lookup_imap.
    destruct (Compare.initial_departments mappedDepartments !! d); cbn;
      split; intros [? ?]; try discriminate; eauto. }
  intros d. rewrite !map_lookup_imap.
  destruct (Compare.initial_departments mappedDepartments !! d) as [ds|];
    cbn; constructor.
  unfold dept_equiv, apply_supa, apply_ws.
  cbn [ws_count supa_count dept_missing_in_supabase extra_in_supabase
       department_differences].
  split; [f_equal; apply filter_length_perm, Hws|].
  split; [f_equal; apply filter_length_perm, Hsupa|].
  split.
  { apply Permutation_app; [reflexivity|]. apply omap_perm_ext; [|exact Hws].
    intros u. apply view_dept_missing_of, Hview. }
  split.
  { apply Permutation_app; [reflexivity|]. apply omap_perm_ext; [|exact Hsupa].
    intros s. apply presence_extra_of, Hnone. }
  apply Permutation_app; [reflexivity|]. apply omap_perm_ext; [|exact Hws].
  intros u. apply view_difference_of, Hview.
Qed.

(** *** Source records without a department *)

Lemma ws_loop_app idx l1 l2 : forall st,
  ws_loop idx st (l1 ++ l2)
  = match ws_loop idx st l1 with
    | Some st' => ws_loop idx st' l2
    | None => None
    end.
Proof.
  induction l1 as [|x l1 IH]; intros st; [reflexivity|].
  cbn [app Compare.ws_loop]. destruct (ws_step idx st x); [apply IH|reflexivity].
Qed.

Lemma Forall_omap {A B} (P : B -> Prop) (f : A -> option B) (l : list A) :
  (forall x y, In x l -> f x = Some y -> P y) -> Forall P (omap f l).
Proof.
  induction l as [|x l IH]; intros H; cbn [omap list_omap]; [constructor|].
  destruct (f x) as [y|] eqn:Hf.
  - constructor; [apply (H x y); [left; reflexivity|exact Hf]|].
    apply IH. intros x' y' Hin. apply H. right. exact Hin.
  - apply IH. intros x' y' Hin. apply H. right. exact Hin.
Qed.

Lemma deleted_of_absent idx m s e :
  deleted_of idx m s = Some e ->
  idx !! key_su s = None /\ du_email e = su_email s.
Proof.
  unfold deleted_of. destruct (su_department_name s) as [d|]; [|discriminate].
  destruct (JS.falsy d); [discriminate|].
  destruct (m !! d); [|discriminate].
  destruct (idx !! key_su s); [discriminate|].
  intros [= <-]. split; reflexivity.
Qed.

Lemma extra_of_absent idx d s x :
  extra_of idx d s = Some x ->
  idx !! key_su s = None /\ de_email x = su_email s.
Proof.
  unfold extra_of. destruct (counted_in d s); [|discriminate].
  destruct (idx !! key_su s); [discriminate|].
  intros [= <-]. split; reflexivity.
Qed.

Lemma filter_skip {A} (f : A -> bool) (b a : list A) (x : A) :
  f x = false -> List.filter f (b ++ x :: a) = List.filter f (b ++ a).
Proof.
  intros H. rewrite !List.filter_app. cbn [List.filter]. rewrite H.
  reflexivity.
Qed.

Lemma filter_comm {A} (f g : A -> bool) (l : list A) :
  List.filter f (List.filter g l) = List.filter g (List.filter f l).
Proof.
  induction l as [|x l IH]; [reflexivity|].
  cbn [List.filter].
  destruct (g x) eqn:Hg, (f x) eqn:Hf; cbn [List.filter];
    rewrite ?Hg, ?Hf, IH; reflexivity.
Qed.

Lemma omap_skip {A B} (f : A -> option B) (b a : list A) (x : A) :
  f x = None -> omap f (b ++ x :: a) = omap f (b ++ a).
Proof.
  intros H. rewrite !omap_app. cbn [omap list_omap]. rewrite H. reflexivity.
Qed.

Lemma forallb_skip {A} (f : A -> bool) (b a : list A) (x : A) :
  f x = true -> forallb f (b ++ x :: a) = forallb f (b ++ a).
Proof.
  intros H. rewrite !forallb_app. cbn [forallb]. rewrite H. reflexivity.
Qed.

(** Entries kept or dropped one by one. *)
Lemma omap_filtered {A B} (f1 f0 : A -> option B) (keep : B -> bool)
  (l : list A) :
  (forall x, f1 x = match f0 x with
                    | Some y => if keep y then Some y else None
                    | None => None
                    end) ->
  omap f1 l = List.filter keep (omap f0 l).
Proof.
  intros H. induction l as [|x l IH]; [reflexivity|].
  cbn [omap list_omap]. rewrite H.
  destruct (f0 x) as [y|]; [|exact IH].
  cbn [List.filter]. destruct (keep y); rewrite IH; reflexivity.
Qed.

(** The source index with one more record. *)
Lemma index_skip (b a : list SourceUser) (u : SourceUser) k :
  index_by_email ws_email (b ++ u :: a) !! k = None
  <-> index_by_email ws_email (b ++ a) !! k = None /\ key_ws u <> k.
Proof.
  rewrite !index_None, !List.Forall_app, List.Forall_cons_iff.
  unfold key_ws. tauto.
Qed.

Section skipped.
Variables (before after : list SourceUser) (u : SourceUser).
Hypothesis Hnone : expectedDepartment u = None.

Abbreviation with_u := (index_by_email ws_email (before ++ u :: after)).
Abbreviation without_u := (index_by_email ws_email (before ++ after)).

Lemma skipped_deleted_of m s :
  deleted_of with_u m s
  = match deleted_of without_u m s with
    | Some e =>
        if negb (bool_decide (toLowerCase (du_email e) = key_ws u))
        then Some e else None
    | None => None
    end.
Proof.
  unfold deleted_of. destruct (su_department_name s) as [d|]; [|reflexivity].
  destruct (JS.falsy d); [reflexivity|]. destruct (m !! d); [|reflexivity].
  destruct (without_u !! key_su s) as [v|] eqn:H0.
  - destruct (with_u !! key_su s) eqn:H1; [reflexivity|].
    apply index_skip in H1. destruct H1 as [H1 _]. congruence.
  - cbn [du_email deleted_entry].
    destruct (decide (toLowerCase (su_email s) = key_ws u)) as [Heq|Hne].
    + rewrite bool_decide_true by exact Heq. cbn [negb].
      destruct (with_u !! key_su s) eqn:H1; [reflexivity|].
      apply index_skip in H1. destruct H1 as [_ H1].
      exfalso. apply H1. symmetry. exact Heq.
    + rewrite bool_decide_false by exact Hne. cbn [negb].
      assert (H1 : with_u !! key_su s = None).
      { apply index_skip. split; [exact H0|]. unfold key_su. congruence. }
      rewrite H1. reflexivity.
Qed.

Lemma skipped_extra_of d s :
  extra_of with_u d s
  = match extra_of without_u d s with
    | Some x =>
        if negb (bool_decide (toLowerCase (de_email x) = key_ws u))
        then Some x else None
    | None => None
    end.
Proof.
  unfold extra_of. destruct (counted_in d s); [|reflexivity].
  destruct (without_u !! key_su s) as [v|] eqn:H0.
  - destruct (with_u !! key_su s) eqn:H1; [reflexivity|].
    apply index_skip in H1. destruct H1 as [H1 _]. congruence.
  - cbn [de_email extra_entry].
    destruct (decide (toLowerCase (su_email s) = key_ws u)) as [Heq|Hne].
    + rewrite bool_decide_true by exact Heq. cbn [negb].
      destruct (with_u !! key_su s) eqn:H1; [reflexivity|].
      apply index_skip in H1. destruct H1 as [_ H1].
      exfalso. apply H1. symmetry. exact Heq.
    + rewrite bool_decide_false by exact Hne. cbn [negb].
      assert (H1 : with_u !! key_su s = None).
      { apply index_skip. split; [exact H0|]. unfold key_su. congruence. }
      rewrite H1. reflexivity.
Qed.

Lemma skipped_admissible m s :
  admissible without_u m s = true -> admissible with_u m s = true.
Proof.
  unfold admissible. destruct (su_department_name s) as [d|]; [|auto].
  destruct (JS.falsy d); [auto|]. destruct (JS.get m d); auto.
  rewrite !bool_decide_eq_true. intros [v Hv].
  destruct (with_u !! key_su s) eqn:H1; [eauto|].
  apply index_skip in H1. destruct H1 as [H1 _]. congruence.
Qed.

Lemma skipped_resolvable idx m : resolvable idx m u = true.
Proof. unfold resolvable. rewrite Hnone. reflexivity. Qed.

Lemma skipped_is_matched idx : is_matched idx u = false.
Proof. unfold is_matched. rewrite Hnone. reflexivity. Qed.

Lemma skipped_missing_of idx : missing_of idx u = None.
Proof. unfold missing_of. rewrite Hnone. reflexivity. Qed.

Lemma skipped_in_dept d : in_dept d u = false.
Proof. apply in_dept_false. rewrite Hnone. discriminate. Qed.

Lemma skipped_dept_missing_of idx d : dept_missing_of idx d u = None.
Proof. unfold dept_missing_of. rewrite skipped_in_dept. reflexivity. Qed.

Lemma skipped_difference_of idx d : difference_of idx d u = None.
Proof. unfold difference_of. rewrite skipped_in_dept. reflexivity. Qed.

End skipped.

(** C2 (amended).  A source record whose group label is unmapped and
    whose title does not match the leave detector is skipped.  Whenever
    the comparison of the other records returns a report, the comparison
    with the record returns one too, and that report is the same but for
    [ws_total], which counts the record, and for the target records that
    bear its lower-cased address, which are no longer listed as deleted
    or extra: the matched count, the missing list, every per-department
    [ws_count], [supa_count], missing list and difference list and the
    create plan are those obtained without the record.  In every report
    returned with the record, the matched count, the missing list and
    every department's [ws_count], missing list and difference list are
    computed from the other records alone, its [supa_count] from the
    target records, and no deleted entry, extra entry or soft-delete
    item bears the record's address.  (A record
    whose title matches the detector is counted and listed under the
    leave department whatever its group.) *)
Theorem unmapped_source_record_is_skipped (before after : list SourceUser)
  (u : SourceUser) (supa : list SupaUser) :
  mapDepartment (ws_group u) = None ->
  Compare.isMaternityLeave toLowerCase (ws_title u) = false ->
  (forall stats0,
     compareUsers (before ++ after) supa = Some stats0 ->
     exists stats,
       compareUsers (before ++ u :: after) supa = Some stats
       /\ Report.skips toLowerCase (key_ws u) stats stats0
       /\ SyncManager.usersToCreate stats = SyncManager.usersToCreate stats0
       /\ SyncManager.usersToDelete stats
          = Report.without_key toLowerCase du_email (key_ws u)
              (SyncManager.usersToDelete stats0))
  /\ forall stats,
       compareUsers (before ++ u :: after) supa = Some stats ->
       matched stats
       = length (List.filter (is_matched (index_by_email su_email supa))
                   (before ++ after))
       /\ missing_in_supabase stats
          = omap (missing_of (index_by_email su_email supa)) (before ++ after)
       /\ (forall d ds,
             by_department stats !! d = Some ds ->
             ws_count ds = length (List.filter (in_dept d) (before ++ after))
             /\ supa_count ds = length (List.filter (counted_in d) supa)
             /\ dept_missing_in_supabase ds
                = omap (dept_missing_of (index_by_email su_email supa) d)
                    (before ++ after)
             /\ department_differences ds
                = omap (difference_of (index_by_email su_email supa) d)
                    (before ++ after)
             /\ Forall (fun x => toLowerCase (de_email x) <> key_ws u)
                  (extra_in_supabase ds))
       /\ Forall (fun e => toLowerCase (du_email e) <> key_ws u)
            (deleted_from_ws stats)
       /\ Forall (fun e => toLowerCase (du_email e) <> key_ws u)
            (SyncManager.usersToDelete stats).
Proof.
  intros Hmap Hleave.
  assert (Hexp : expectedDepartment u = None).
  { unfold Compare.expectedDepartment. rewrite Hleave, Hmap. reflexivity. }
  assert (Hin_u : In u (before ++ u :: after)).
  { apply in_or_app. right. left. reflexivity. }
  assert (Habsent : forall k,
            index_by_email ws_email (before ++ u :: after) !! k = None ->
            k <> key_ws u).
  { intros k Hk Heq. apply index_skip in Hk. destruct Hk as [_ Hk].
    apply Hk. symmetry. exact Heq. }
  split.
  - intros stats0 Hrun0.
    destruct (report_passed _ _ _ Hrun0) as [HR0 HA0].
    assert (HR1 : forallb (resolvable (index_by_email su_email supa) (Compare.initial_departments mappedDepartments)) (before ++ u :: after) = true).
    { rewrite forallb_skip; [exact HR0|]. apply skipped_resolvable, Hexp. }
    assert (HA1 : forallb (admissible
                             (index_by_email ws_email (before ++ u :: after))
                             (Compare.initial_departments mappedDepartments)) supa = true).
    { apply forallb_forall. intros s Hs.
      apply skipped_admissible.
      rewrite forallb_forall in HA0. apply HA0, Hs. }
    rewrite compareUsers_closed in Hrun0 |- *.
    rewrite HR0, HA0 in Hrun0.
    rewrite HR1, HA1. cbn [andb] in Hrun0 |- *.
    injection Hrun0 as <-. eexists. split; [reflexivity|].
    assert (Hdel : omap (deleted_of
                           (index_by_email ws_email (before ++ u :: after)) (Compare.initial_departments mappedDepartments))
                     supa
                   = Report.without_key toLowerCase du_email (key_ws u)
                       (omap (deleted_of
                                (index_by_email ws_email (before ++ after)) (Compare.initial_departments mappedDepartments))
                          supa)).
    { apply omap_filtered. intros s. apply skipped_deleted_of. }
    assert (Hsame : forall (idx : gmap string SourceUser) l,
              omap (deleted_of idx
                      (by_department
                         (ws_closed (index_by_email su_email supa)
                            (Compare.initial mappedDepartments l supa) l)))
                supa
              = omap (deleted_of idx (Compare.initial_departments mappedDepartments)) supa).
    { intros idx l. apply omap_ext_all. intros s. apply deleted_of_same_keys.
      intros d. apply closed_keys. }
    assert (Hdeleted :
              deleted_from_ws
                (supa_closed (index_by_email ws_email (before ++ u :: after))
                   (ws_closed (index_by_email su_email supa)
                      (Compare.initial mappedDepartments
                         (before ++ u :: after) supa)
                      (before ++ u :: after)) supa)
              = Report.without_key toLowerCase du_email (key_ws u)
                  (deleted_from_ws
                     (supa_closed (index_by_email ws_email (before ++ after))
                        (ws_closed (index_by_email su_email supa)
                           (Compare.initial mappedDepartments
                              (before ++ after) supa)
                           (before ++ after)) supa))).
    { cbn [deleted_from_ws Report.supa_closed Report.ws_closed
           Compare.initial app].
      rewrite (Hsame _ (before ++ u :: after)), (Hsame _ (before ++ after)).
      exact Hdel. }
    assert (Hmissing :
              missing_in_supabase
                (supa_closed (index_by_email ws_email (before ++ u :: after))
                   (ws_closed (index_by_email su_email supa)
                      (Compare.initial mappedDepartments
                         (before ++ u :: after) supa)
                      (before ++ u :: after)) supa)
              = missing_in_supabase
                  (supa_closed (index_by_email ws_email (before ++ after))
                     (ws_closed (index_by_email su_email supa)
                        (Compare.initial mappedDepartments
                           (before ++ after) supa)
                        (before ++ after)) supa)).
    { cbn [missing_in_supabase Report.supa_closed Report.ws_closed
           Compare.initial app].
      apply omap_skip, skipped_missing_of, Hexp. }
    split; [|split].
    + unfold Report.skips. split.
      { cbn [ws_total Report.supa_closed Report.ws_closed Compare.initial].
        rewrite !length_app. cbn [length]. lia. }
      split; [reflexivity|]. split.
      { cbn [matched Report.supa_closed Report.ws_closed Compare.initial].
        rewrite filter_skip; [reflexivity|]. apply skipped_is_matched, Hexp. }
      split; [exact Hmissing|]. split; [exact Hdeleted|].
      intros d.
      cbn [by_department Report.supa_closed Report.ws_closed Compare.initial].
      rewrite !map_lookup_imap.
      destruct ((Compare.initial_departments mappedDepartments) !! d) as [x|] eqn:Hx; cbn; constructor.
      apply initial_lookup in Hx. destruct Hx as [_ ->].
      unfold Report.dept_skips.
      cbn [ws_count supa_count dept_missing_in_supabase extra_in_supabase
           department_differences Report.apply_supa Report.apply_ws
           empty_dept app].
      split.
      { rewrite filter_skip; [reflexivity|]. apply skipped_in_dept, Hexp. }
      split; [reflexivity|]. split.
      { apply omap_skip, skipped_dept_missing_of, Hexp. }
      split.
      { apply omap_skip, skipped_difference_of, Hexp. }
      apply omap_filtered. intros s. apply skipped_extra_of.
    + unfold SyncManager.usersToCreate. rewrite Hmissing. reflexivity.
    + unfold SyncManager.usersToDelete. rewrite Hdeleted.
      apply filter_comm.
  - intros stats Hrun.
    destruct (report_global _ _ _ Hrun) as (_ & _ & Hm & Hmiss & Hdel).
    assert (Hdeleted : Forall (fun e => toLowerCase (du_email e) <> key_ws u)
                         (deleted_from_ws stats)).
    { rewrite Hdel. apply Forall_omap. intros s e _ He.
      apply deleted_of_absent in He. destruct He as [Habs ->].
      apply Habsent, Habs. }
    split.
    { rewrite Hm. apply f_equal, filter_skip, skipped_is_matched, Hexp. }
    split.
    { rewrite Hmiss. apply omap_skip, skipped_missing_of, Hexp. }
    split.
    { intros d ds Hd.
      destruct (report_department _ _ _ d ds Hrun Hd) as [_ ->].
      cbn [ws_count supa_count dept_missing_in_supabase extra_in_supabase
           department_differences Report.apply_supa Report.apply_ws
           empty_dept app].
      split.
      { rewrite filter_skip; [reflexivity|]. apply skipped_in_dept, Hexp. }
      split; [reflexivity|]. split.
      { apply omap_skip, skipped_dept_missing_of, Hexp. }
      split.
      { apply omap_skip, skipped_difference_of, Hexp. }
      apply Forall_omap. intros s x _ Hx.
      apply extra_of_absent in Hx. destruct Hx as [Habs ->].
      apply Habsent, Habs. }
    split; [exact Hdeleted|].
    unfold SyncManager.usersToDelete. rewrite List.Forall_forall in *.
    intros e He. apply filter_In in He. apply Hdeleted. tauto.
Qed.

End CompareFacts.

(** * Concrete runs *)

Section ScenarioFacts.
Import Data Ledger Sys Scenario.

Lemma accepting_always_ok : always_ok accepting.
Proof. intros h e. destruct e; eexists; reflexivity. Qed.

Lemma equivalent_reports_differences (r r' : option Compare.Stats) d :
  option_Forall2 stats_equiv r r' ->
  option_Forall2 (fun l l' : list Compare.Difference => length l = length l')
    (differences_in r d) (differences_in r' d).
Proof.
  intros [a b (_ & _ & _ & _ & _ & Hd)|]; [|constructor].
  unfold differences_in. specialize (Hd d).
  destruct Hd as [x y (_ & _ & _ & _ & Hp)|]; constructor.
  apply Permutation_length, Hp.
Qed.

(** C1, counterexample.  Two target records under one address, in
    different departments: which of them the index keeps depends on their
    order, and with it the difference list of the department. *)
Lemma target_order_changes_differences :
  let ws := [source "anna@eneca.work" "Дизайн" "designer"] in
  let t1 := target "u1" "anna@eneca.work" (Some "Design") in
  let t2 := target "u2" "Anna@eneca.work" (Some "Удалены") in
  [t1; t2] ≡ₚ [t2; t1]
  /\ ~ option_Forall2 stats_equiv (compare ws [t1; t2]) (compare ws [t2; t1]).
Proof.
  intros ws t1 t2. split; [apply perm_swap|].
  intros H. apply (equivalent_reports_differences _ _ "Design") in H.
  vm_compute in H. inversion H as [l l' Hlen Hl Hl'|]. subst.
  discriminate Hlen.
Qed.

(** C1, an instance: both lists swapped, addresses distinct. *)
Lemma comparator_order_independent_witness :
  let u1 := source "anna@eneca.work" "Дизайн" "designer" in
  let u2 := source "olga@eneca.work" "Продажи" "manager" in
  let t1 := target "u1" "Anna@eneca.work" (Some "Удалены") in
  let t2 := target "u3" "ivan@eneca.work" (Some "Design") in
  [u1; u2] ≡ₚ [u2; u1]
  /\ [t1; t2] ≡ₚ [t2; t1]
  /\ key_determines_department JS.lower_ascii [t1; t2]
  /\ option_Forall2 stats_equiv (compare [u1; u2] [t1; t2])
                                (compare [u2; u1] [t2; t1]).
Proof.
  intros u1 u2 t1 t2.
  assert (Hkey : key_determines_department JS.lower_ascii [t1; t2]).
  { intros s1 s2 [<-|[<-|[]]] [<-|[<-|[]]] H; try reflexivity;
      vm_compute in H; discriminate H. }
  split; [apply perm_swap|]. split; [apply perm_swap|]. split; [exact Hkey|].
  apply (comparator_order_independent JS.lower_ascii mapDepartment tracked
           [u1; u2] [u2; u1] [t1; t2] [t2; t1]);
    [apply perm_swap|apply perm_swap|right; exact Hkey].
Defined.

(** C2, counterexample.  The group is unmapped, the title matches the
    leave detector: the record is counted under the leave department and
    listed as missing; only the create plan leaves it out. *)
Lemma leave_title_overrides_unmapped_group :
  let u := source "olga@eneca.work" "Продажи" "в декрете до мая" in
  mapDepartment (Compare.ws_group u) = None
  /\ exists stats,
       compare [u] [] = Some stats
       /\ map mu_email (Compare.missing_in_supabase stats) = ["olga@eneca.work"]
       /\ Compare.ws_count <$> Compare.by_department stats !! "Декрет" = Some 1
       /\ map Compare.dm_email
            <$> (Compare.dept_missing_in_supabase
                   <$> Compare.by_department stats !! "Декрет")
          = Some ["olga@eneca.work"]
       /\ SyncManager.usersToCreate stats = [].
Proof.
  intros u. split; [reflexivity|].
  eexists. split; [vm_compute; reflexivity|].
  repeat split; vm_compute; reflexivity.
Qed.

(** C2, an instance: an unmapped group and an ordinary title; the one
    target record bears the address of the skipped record. *)
Lemma unmapped_source_record_is_skipped_witness :
  let u := source "olga@eneca.work" "Продажи" "manager" in
  let a := source "anna@eneca.work" "Дизайн" "designer" in
  let t := target "u9" "OLGA@eneca.work" (Some "Design") in
  mapDepartment (Compare.ws_group u) = None
  /\ Compare.isMaternityLeave JS.lower_ascii (Compare.ws_title u) = false
  /\ exists stats0 stats,
       compare ([a] ++ []) [t] = Some stats0
       /\ compare ([a] ++ u :: []) [t] = Some stats
       /\ skips JS.lower_ascii (key_ws JS.lower_ascii u) stats stats0
       /\ map du_email (Compare.deleted_from_ws stats0) = ["OLGA@eneca.work"]
       /\ Compare.deleted_from_ws stats = [].
Proof.
  intros u a t. split; [reflexivity|]. split; [reflexivity|].
  destruct (unmapped_source_record_is_skipped JS.lower_ascii mapDepartment
              tracked [a] [] u [t] eq_refl eq_refl) as [Hskip _].
  set (stats0 := default (Compare.initial tracked [a] [t]) (compare [a] [t])).
  assert (H0 : compare ([a] ++ []) [t] = Some stats0)
    by (vm_compute; reflexivity).
  destruct (Hskip stats0 H0) as (stats & Hrun & Hrel & _).
  exists stats0, stats.
  split; [exact H0|]. split; [exact Hrun|]. split; [exact Hrel|].
  split; [vm_compute; reflexivity|].
  destruct Hrel as (_ & _ & _ & _ & -> & _). vm_compute. reflexivity.
Defined.


(** C4, the failing input: the identity is created, the profile write
    answers with an error, and so does the deletion of the rollback.  The
    result is the one a clean rollback gives, and the identity stays. *)
Lemma failed_rollback_is_not_escalated_witness :
  let wsUser := UserCreate.ws_user_of (item 0) in
  let remote := profile_fails (Err "not allowed") in
  let create := AuthCreateUser (UserCreate.email wsUser) Config.password
                  (UserCreate.profile_of wsUser "Design" refData) in
  remote (trace fresh) create = Ok "uid-1"
  /\ (UserCreate.profile_and_role remote wsUser "Design" refData "uid-1"
        (call remote create fresh).2).1 = inr "Profile error: boom"
  /\ (UserCreate.createUser remote wsUser "Design" refData fresh).1
     = UserCreate.failure "Profile error: boom"
  /\ (UserCreate.createUser (profile_fails (Ok "done")) wsUser "Design"
        refData fresh).1
     = UserCreate.failure "Profile error: boom"
  /\ "uid-1" ∈ auth_users
                 (UserCreate.createUser remote wsUser "Design" refData fresh).2.
Proof.
  intros wsUser remote create.
  split; [reflexivity|]. split; [reflexivity|].
  destruct (failed_rollback_is_not_escalated remote refData wsUser "Design"
              fresh
              (UserCreate.profile_and_role remote wsUser "Design" refData
                 "uid-1" (call remote create fresh).2).2
              "uid-1" "Profile error: boom" eq_refl eq_refl)
    as (_ & Hin & _ & Hres).
  { intros id. discriminate. }
  split; [exact (Hres "not allowed" eq_refl)|].
  split; [reflexivity|exact Hin].
Defined.

(** C8, the failing input: a thunk that rejects with [undefined], the
    default options. *)
Lemma unreadable_rejection_ends_retry_witness :
  Retry.nth_call rejects_with_undefined 0 1 = Some (inr Retry.Nothing, 1)
  /\ Retry.unreadable Retry.Nothing = Some Retry.MessageOfNothing
  /\ Retry.retry rejects_with_undefined Retry.no_options 0
     = (inr (Some Retry.MessageOfNothing), 1, [Retry.Attempt 1])
  /\ Retry.schedule Retry.no_options 3
     = [Retry.Attempt 1; Retry.Wait 1000; Retry.Attempt 2;
        Retry.Wait 2000; Retry.Attempt 3].
Proof.
  split; [reflexivity|]. split; [reflexivity|]. split; [|reflexivity].
  apply (unreadable_rejection_ends_retry rejects_with_undefined
           Retry.no_options 0 1 Retry.Nothing 1 Retry.MessageOfNothing).
  - unfold Retry.maxRetries_of. simpl. lia.
  - intros j Hj. lia.
  - reflexivity.
  - reflexivity.
Defined.

(** X29, an instance: the profile write fails and the deletion works. *)
Lemma clean_rollback_removes_the_identity_witness :
  let wsUser := UserCreate.ws_user_of (item 0) in
  let remote := profile_fails (Ok "done") in
  let create := AuthCreateUser (UserCreate.email wsUser) Config.password
                  (UserCreate.profile_of wsUser "Design" refData) in
  remote (trace fresh) create = Ok "uid-1"
  /\ (UserCreate.profile_and_role remote wsUser "Design" refData "uid-1"
        (call remote create fresh).2).1 = inr "Profile error: boom"
  /\ (UserCreate.createUser remote wsUser "Design" refData fresh).1
     = UserCreate.failure "Profile error: boom"
  /\ ("uid-1" ∉ auth_users
                  (UserCreate.createUser remote wsUser "Design" refData
                     fresh).2).
Proof.
  intros wsUser remote create.
  split; [reflexivity|]. split; [reflexivity|].
  destruct (clean_rollback_removes_the_identity remote refData wsUser "Design"
              fresh
              (UserCreate.profile_and_role remote wsUser "Design" refData
                 "uid-1" (call remote create fresh).2).2
              "uid-1" "Profile error: boom" "done" eq_refl eq_refl eq_refl)
    as (_ & Hout & Hres).
  split; [exact Hres|exact Hout].
Defined.

(** C5, counterexample.  The shipped configuration is a dry run; with no
    ledger file and one malformed item the create phase writes a ledger
    file and returns [errors = 1]. *)
Lemma dry_run_create_writes_ledger_and_counts :
  let r := UserCreate.createUsers accepting Config.shipped [bad_item] refData
             fresh in
  Config.dryRun Config.shipped = true
  /\ fs_file fresh = None
  /\ UserCreate.errors r.1 = 1
  /\ fs_file r.2
     = Some {| startTime := Some 0; lastUpdate := Some 0;
               phase := Some "create"; processedEmails := []; stats := zero |}
  /\ trace r.2
     = [ReadFile; Mkdir; Mkdir;
        WriteFile {| startTime := Some 0; lastUpdate := Some 0;
                     phase := Some "create"; processedEmails := [];
                     stats := zero |}].
Proof. intros r. repeat split; vm_compute; reflexivity. Qed.

(** C5, an instance: a dry run over one create and one delete item. *)
Lemma dry_run_effects_witness :
  Config.dryRun Config.shipped = true
  /\ UserDelete.softDeleteUsers accepting Config.shipped [ditem 0] refData fresh
     = (UserDelete.no_stats, fresh)
  /\ UserCreate.created
       (UserCreate.createUsers accepting Config.shipped [item 0] refData fresh).1
     = 0.
Proof.
  split; [reflexivity|].
  pose proof (dry_run_effects accepting refData Config.shipped [item 0]
                [ditem 0] fresh eq_refl) as (Hd & _ & _ & Hc & _).
  split; [exact Hd|exact Hc].
Defined.

(** C6, counterexample.  The first of two soft-delete items fails with
    [continueOnError] off: the phase stops, and no ledger was written. *)
Lemma delete_phase_persists_nothing :
  let r := UserDelete.softDeleteUsers refusing live [ditem 0; ditem 1] refData
             fresh in
  Config.continueOnError live = false
  /\ UserDelete.errors r.1 = 1
  /\ trace r.2
     = [ProfileUpdate (du_user_id (ditem 0)) "dep-deleted" "team-deleted"]
  /\ fs_file r.2 = None.
Proof. intros r. repeat split; vm_compute; reflexivity. Qed.

(** C6, an instance: a store that refuses every call. *)
Lemma stop_on_first_failure_witness :
  Config.continueOnError live = false
  /\ UserCreate.success
       (UserCreate.createUser refusing (UserCreate.ws_user_of (item 0))
          (mu_department (item 0)) refData fresh).1 = false
  /\ UserDelete.success
       (UserDelete.softDeleteUser refusing (ditem 0) refData fresh).1 = false
  /\ fs_file (UserCreate.create_loop refusing live refData 2 0
                [item 0; item 1] UserCreate.no_stats fresh).2
     = Some (tracker (UserCreate.create_loop refusing live refData 2 0
                        [item 0; item 1] UserCreate.no_stats fresh).2)
  /\ (UserDelete.delete_loop refusing live refData 2 0 [ditem 0; ditem 1]
        UserDelete.no_stats fresh).2
     = (UserDelete.softDeleteUser refusing (ditem 0) refData fresh).2.
Proof.
  split; [reflexivity|]. split; [reflexivity|]. split; [reflexivity|].
  pose proof (stop_on_first_failure refusing refData live 2 0 (item 0) [item 1]
                UserCreate.no_stats (ditem 0) [ditem 1] UserDelete.no_stats
                fresh eq_refl) as [Hc Hd].
  split.
  - exact (proj1 (proj2 (proj2 (Hc eq_refl)))).
  - exact (proj1 (Hd eq_refl)).
Defined.

(** C7, an instance: 25 items of which the seventh has no [@]. *)
Lemma scenario_25_items_one_invalid_witness :
  let before := map item (seq 0 6) in
  let after := map item (seq 7 18) in
  let r := UserCreate.createUsers accepting live
             (before ++ bad_item :: after) refData fresh in
  length (before ++ bad_item :: after) = 25
  /\ UserCreate.valid bad_item refData = false
  /\ UserCreate.created r.1 = 24
  /\ UserCreate.errors r.1 = 1
  /\ fs_file r.2 = None.
Proof.
  intros before after r.
  pose proof (scenario_25_items_one_invalid accepting refData
                accepting_always_ok before after bad_item fresh
                eq_refl eq_refl eq_refl eq_refl eq_refl eq_refl)
    as (Hc & He & _ & _ & _ & _ & Hf & _).
  split; [reflexivity|]. split; [reflexivity|].
  split; [exact Hc|]. split; [exact He|exact Hf].
Defined.

(** C9, the code at 25 items and batch size 10.  The test
    [i % batchSize === 0] is on the zero-based index, so the waits come
    after items 1, 11 and 21 of either phase, where the documented pacing
    has them after items 10 and 20.  In general a wait follows the item
    at index [i] exactly when [i] is a multiple of the batch size and the
    item is not the last. *)
Theorem pause_follows_items_1_11_21 :
  pauses_after 0
    (trace (UserCreate.createUsers accepting live (map item (seq 0 25))
              refData fresh).2)
  = [1; 11; 21]
  /\ pauses_after 0
       (trace (UserDelete.softDeleteUsers accepting live (map ditem (seq 0 25))
                 refData fresh).2)
     = [1; 11; 21]
  /\ forall cfg n i,
       UserCreate.pause_due cfg n i = true
       <-> i < n - 1 /\ Config.batchSize cfg <> 0
           /\ i mod Config.batchSize cfg = 0.
Proof.
  split; [vm_compute; reflexivity|]. split; [vm_compute; reflexivity|].
  intros cfg n i. unfold UserCreate.pause_due.
  rewrite !andb_true_iff, negb_true_iff, Nat.ltb_lt, Nat.eqb_neq, Nat.eqb_eq.
  tauto.
Qed.

End ScenarioFacts.

(** * Further properties of the code *)

(** ** The progress ledger *)

Section LedgerFacts.
Import Data Ledger Sys Trail.

Lemma addProcessed_fields email ok w :
  processedEmails (tracker (Tracker.addProcessed email ok w).2)
  = processedEmails (tracker w) ++ [email]
  /\ phase (tracker (Tracker.addProcessed email ok w).2) = phase (tracker w)
  /\ stats (tracker (Tracker.addProcessed email ok w).2)
     = Tracker.count ok (phase (tracker w)) (stats (tracker w))
  /\ fs_file (Tracker.addProcessed email ok w).2
     = if Nat.eqb (length (processedEmails (tracker w) ++ [email]) mod 10) 0
       then Some (tracker (Tracker.addProcessed email ok w).2)
       else fs_file w.
Proof.
  unfold Tracker.addProcessed, bind, get_tracker, set_tracker.
  cbn [processedEmails tracker fs_file snd].
  destruct (Nat.eqb _ 0); cbn; auto.
Qed.

Lemma add_all_cons email ok rest w :
  add_all ((email, ok) :: rest) w
  = add_all rest (Tracker.addProcessed email ok w).2.
Proof.
  cbn [add_all]. unfold bind.
  destruct (Tracker.addProcessed email ok w) as [[] w1]. reflexivity.
Qed.

Lemma add_all_emails l : forall w,
  processedEmails (tracker (add_all l w).2)
  = processedEmails (tracker w) ++ map fst l.
Proof.
  induction l as [|[email ok] l IH]; intros w.
  - cbn. rewrite app_nil_r. reflexivity.
  - rewrite add_all_cons, IH.
    destruct (addProcessed_fields email ok w) as (-> & _).
    rewrite <- app_assoc. reflexivity.
Qed.

Lemma take_tens_snoc {A} (l : list A) (x : A) :
  Nat.eqb (length (l ++ [x]) mod 10) 0 = false ->
  take (10 * (length (l ++ [x]) / 10)) (l ++ [x])
  = take (10 * (length l / 10)) l.
Proof.
  rewrite length_app. cbn [length]. intros Hne. apply Nat.eqb_neq in Hne.
  pose proof (Nat.div_mod_eq (length l + 1) 10) as H1.
  pose proof (Nat.div_mod_eq (length l) 10) as H2.
  pose proof (Nat.mod_upper_bound (length l + 1) 10) as H3.
  pose proof (Nat.mod_upper_bound (length l) 10) as H4.
  assert (Hq : (length l + 1) / 10 = length l / 10) by nia.
  rewrite Hq. apply take_app_le. lia.
Qed.

Lemma addProcessed_lags email ok w :
  file_lags w -> file_lags (Tracker.addProcessed email ok w).2.
Proof.
  intros (p & Hf & Hp). unfold file_lags.
  destruct (addProcessed_fields email ok w) as (He & _ & _ & Hfile).
  rewrite Hfile, He.
  destruct (Nat.eqb (length (processedEmails (tracker w) ++ [email]) mod 10) 0)
    eqn:Hten.
  - eexists. split; [reflexivity|]. rewrite He.
    apply Nat.eqb_eq in Hten.
    pose proof (Nat.div_mod_eq
                  (length (processedEmails (tracker w) ++ [email])) 10) as H1.
    rewrite Hten, Nat.add_0_r in H1. rewrite <- H1.
    symmetry. apply take_ge. lia.
  - exists p. split; [exact Hf|]. rewrite Hp. symmetry.
    apply take_tens_snoc, Hten.
Qed.

Lemma add_all_lags l : forall w, file_lags w -> file_lags (add_all l w).2.
Proof.
  induction l as [|[email ok] l IH]; intros w Hw; [exact Hw|].
  rewrite add_all_cons. apply IH, addProcessed_lags, Hw.
Qed.

(** X2.  After [init] and any sequence of [addProcessed] calls the
    tracker holds all the keys, in order, and the ledger file holds the
    first [10 * (n / 10)] of them: a stop of the process loses the record
    of fewer than ten items. *)
Theorem ledger_file_lags_by_less_than_ten (ph : string)
  (l : list (string * bool)) (w : World) :
  processedEmails (tracker (add_all l (Tracker.init ph w).2).2) = map fst l
  /\ exists p,
       fs_file (add_all l (Tracker.init ph w).2).2 = Some p
       /\ processedEmails p = take (10 * (length l / 10)) (map fst l)
       /\ length l < length (processedEmails p) + 10.
Proof.
  assert (Hinit : file_lags (Tracker.init ph w).2).
  { exists (tracker (Tracker.init ph w).2). split; reflexivity. }
  assert (Hemails : processedEmails (tracker (add_all l (Tracker.init ph w).2).2)
                    = map fst l).
  { rewrite add_all_emails. reflexivity. }
  split; [exact Hemails|].
  destruct (add_all_lags l _ Hinit) as (p & Hf & Hp).
  rewrite Hemails, length_map in Hp.
  exists p. split; [exact Hf|]. split; [exact Hp|].
  rewrite Hp, length_take, length_map.
  pose proof (Nat.div_mod_eq (length l) 10) as H1.
  pose proof (Nat.mod_upper_bound (length l) 10) as H2.
  lia.
Qed.

(** X3.  The counters of the tracker after a sequence of [addProcessed]
    calls: every failure is counted in [errors]; a success is counted in
    [created] when the phase is ['create'], in [deleted] when it is
    ['delete'], and nowhere for any other phase (as after [clear], where
    the phase is [null]). *)
Theorem ledger_counters_follow_phase (l : list (string * bool)) (w : World) :
  phase (tracker (add_all l w).2) = phase (tracker w)
  /\ errors (stats (tracker (add_all l w).2))
     = errors (stats (tracker w)) + failures l
  /\ created (stats (tracker (add_all l w).2))
     = created (stats (tracker w))
       + (if bool_decide (phase (tracker w) = Some "create")
          then successes l else 0)
  /\ deleted (stats (tracker (add_all l w).2))
     = deleted (stats (tracker w))
       + (if bool_decide (phase (tracker w) = Some "create") then 0
          else if bool_decide (phase (tracker w) = Some "delete")
               then successes l else 0).
Proof.
  revert w. induction l as [|[email ok] l IH]; intros w.
  - cbn. repeat split; try lia.
    + destruct (bool_decide _); lia.
    + repeat destruct (bool_decide _); lia.
  - rewrite add_all_cons.
    destruct (IH (Tracker.addProcessed email ok w).2) as (Hp & He & Hc & Hd).
    destruct (addProcessed_fields email ok w) as (_ & Hph & Hst & _).
    rewrite Hp, He, Hc, Hd, Hph, Hst. clear.
    unfold failures, successes, Tracker.count. cbn [List.filter snd].
    split; [reflexivity|].
    destruct ok; cbn [negb length];
      repeat destruct (bool_decide _); cbn [created deleted errors];
      repeat split; lia.
Qed.

(** X4.  [addProcessed] marks its key and no other: afterwards
    [isProcessed] answers [true] for the key and as before for every other
    string, and [filterUnprocessed] drops exactly the items with that
    address from what it returned before. *)
Theorem addProcessed_marks_its_key (email : string) (ok : bool) (w : World)
  (other : string) (items : list MissingUser) :
  Tracker.isProcessed (tracker (Tracker.addProcessed email ok w).2) other
  = String.eqb other email || Tracker.isProcessed (tracker w) other
  /\ Tracker.filterUnprocessed (tracker (Tracker.addProcessed email ok w).2) items
     = List.filter (fun u => negb (String.eqb (mu_email u) email))
         (Tracker.filterUnprocessed (tracker w) items).
Proof.
  assert (Hone : forall k,
            Tracker.isProcessed (tracker (Tracker.addProcessed email ok w).2) k
            = String.eqb k email || Tracker.isProcessed (tracker w) k).
  { intros k. unfold Tracker.isProcessed.
    destruct (addProcessed_fields email ok w) as (-> & _).
    rewrite existsb_app. cbn [existsb]. rewrite orb_false_r. apply orb_comm. }
  split; [apply Hone|].
  unfold Tracker.filterUnprocessed.
  induction items as [|u items IH]; [reflexivity|].
  cbn [List.filter]. rewrite Hone.
  destruct (String.eqb (mu_email u) email) eqn:E;
    destruct (Tracker.isProcessed (tracker w) (mu_email u)) eqn:P;
    cbn [orb negb List.filter]; rewrite ?E; cbn [negb]; rewrite IH;
    reflexivity.
Qed.

End LedgerFacts.

(** ** The retry wrapper: waits and edge cases *)

Section RetryEdges.
Import Retry Trail.
Context {W V E : Type} `{!Rejection E}.
Implicit Types (fn : @thunk W V E) (o : options).

Lemma waits_flat_map o a m :
  waits (flat_map (fun k => [Wait (backoff o (k - 1)); Attempt k]) (seq a m))
  = map (fun k => backoff o (k - 1)) (seq a m).
Proof.
  revert a. induction m as [|m IH]; intros a; [reflexivity|].
  cbn [seq flat_map app waits map]. rewrite IH. reflexivity.
Qed.

Lemma waits_loop_events o a m :
  waits (loop_events o a m)
  = map (fun k => backoff o (k - 1)) (seq (S a) (m - 1)).
Proof.
  destruct m as [|m]; [reflexivity|].
  cbn [loop_events waits]. rewrite waits_flat_map.
  replace (S m - 1) with m by lia. reflexivity.
Qed.

Lemma backoff_mono o i j :
  (0 <= baseDelay_of o)%Z -> i <= j -> (backoff o i <= backoff o j)%Z.
Proof.
  intros Hb Hij. unfold backoff. apply Z.min_le_compat_r.
  apply Z.mul_le_mono_nonneg_l; [exact Hb|].
  apply Z.pow_le_mono_r; lia.
Qed.

(** X5.  With a base delay that is not negative, the waits of a [retry]
    run never exceed [maxDelay], never shrink from one attempt to the
    next, and there are fewer of them than [maxRetries]. *)
Theorem retry_waits_are_capped_and_grow fn o (w : W) :
  (0 <= baseDelay_of o)%Z ->
  length (waits (retry fn o w).2) <= maxRetries_of o - 1
  /\ Forall (fun ms => (ms <= maxDelay_of o)%Z) (waits (retry fn o w).2)
  /\ forall i j a b,
       i <= j ->
       waits (retry fn o w).2 !! i = Some a ->
       waits (retry fn o w).2 !! j = Some b ->
       (a <= b)%Z.
Proof.
  intros Hb. unfold retry.
  destruct (retry_loop_spec fn o (maxRetries_of o) 1 None w [])
    as (m & Hm & Htr & _); [lia|].
  rewrite Htr. cbn [app]. rewrite waits_loop_events.
  split; [rewrite length_map, length_seq; lia|]. split.
  - apply List.Forall_forall. intros ms Hin. apply in_map_iff in Hin.
    destruct Hin as (k & <- & _). unfold backoff. apply Z.le_min_r.
  - intros i j a b Hij Ha Hb'.
    rewrite list_lookup_fmap in Ha, Hb'.
    destruct (seq 2 (m - 1) !! i) as [ki|] eqn:Hi; [|discriminate].
    destruct (seq 2 (m - 1) !! j) as [kj|] eqn:Hj; [|discriminate].
    apply lookup_seq in Hi, Hj. destruct Hi as [-> _], Hj as [-> _].
    cbn in Ha, Hb'. injection Ha as <-. injection Hb' as <-.
    apply backoff_mono; [exact Hb|lia].
Qed.

(** X6.  Edge cases of [retry].  With [maxRetries = 0] the thunk is never
    called and [retry] throws [undefined] (the initial [lastError]) with
    the world as it was.  With at least one attempt allowed, a thunk that
    succeeds at once is called exactly once, without any wait, and its
    value and world are returned. *)
Theorem retry_edge_cases fn o (w : W) :
  (maxRetries_of o = 0 -> retry fn o w = (inr None, w, []))
  /\ (forall v w',
        1 <= maxRetries_of o -> fn w = (inl v, w') ->
        retry fn o w = (inl v, w', [Attempt 1])).
Proof.
  split.
  - intros H0. unfold retry. rewrite H0. reflexivity.
  - intros v w' H1 Hfn. unfold retry.
    destruct (maxRetries_of o) as [|n]; [lia|].
    cbn [retry_loop]. rewrite Hfn. reflexivity.
Qed.

End RetryEdges.

Lemma retry_waits_are_capped_and_grow_witness :
  length (Trail.waits
            (Retry.retry (fun w : nat => (inr Scenario.down : unit + _, S w))
               Retry.no_options 0).2) <= 2
  /\ Trail.waits
       (Retry.retry (fun w : nat => (inr Scenario.down : unit + _, S w))
          Retry.no_options 0).2
     = [1000%Z; 2000%Z].
Proof.
  split; [|reflexivity].
  apply (retry_waits_are_capped_and_grow
           (fun w : nat => (inr Scenario.down : unit + _, S w))
           Retry.no_options 0).
  unfold Retry.baseDelay_of. simpl. lia.
Defined.

(** ** The create phase: what is sent, and the accounts *)

Section CreateMore.
Import Data Ledger Sys UserCreate Trail.
Variable remote : Remote.
Variable rd : RefData.

Abbreviation create_event_of := (Run.create_event_of rd).

(** The items [validateUser] accepts. *)
Lemma valid_spec u :
  valid u rd = true <->
  JS.falsy (mu_email u) = false /\ JS.includes (mu_email u) "@" = true
  /\ JS.falsy (mu_name u) = false /\ JS.trim_is_empty (mu_name u) = false
  /\ JS.falsy (mu_department u) = false
  /\ match JS.get (departmentMap rd) (mu_department u) with
     | JS.Own id => JS.falsy id = false
     | JS.Inherited _ => True
     | JS.Undefined => False
     end.
Proof.
  unfold valid, validateUser.
  destruct (JS.falsy (mu_email u)), (JS.includes (mu_email u) "@"),
    (JS.falsy (mu_name u)), (JS.trim_is_empty (mu_name u)),
    (JS.falsy (mu_department u));
    cbn [negb orb app length Nat.eqb];
    try (split; [discriminate|intros (? & ? & ? & ? & ? & ?); discriminate]).
  destruct (JS.get (departmentMap rd) (mu_department u)) as [id|name|].
  - destruct (JS.falsy id) eqn:Hid; cbn [length Nat.eqb].
    + split; [discriminate|].
      intros (_ & _ & _ & _ & _ & Hf). discriminate.
    + split; [intros _|reflexivity]. repeat split.
  - cbn [length Nat.eqb]. split; [intros _|reflexivity]. repeat split.
  - cbn [length Nat.eqb]. split; [discriminate|].
    intros (_ & _ & _ & _ & _ & []).
Qed.

Lemma validated_of_create_event items e :
  create_event_of (fun u => In u items /\ valid u rd = true) e ->
  validated_event rd items e.
Proof.
  assert (Hid : forall u, valid u rd = true ->
            match JS.get (departmentMap rd) (mu_department u) with
            | JS.Own id =>
                departmentMap rd !! mu_department u = Some id
                /\ id <> EmptyString
            | JS.Inherited name =>
                name = mu_department u /\ JS.inherited name = true
                /\ departmentMap rd !! name = None
            | JS.Undefined => False
            end).
  { intros u Hv. apply valid_spec in Hv.
    destruct Hv as (_ & _ & _ & _ & _ & Hd).
    destruct (get_cases (departmentMap rd) (mu_department u))
      as [(v & Hl & Hg)|[(Hl & Hi & Hg)|(Hl & Hi & Hg)]];
      rewrite Hg in Hd |- *.
    - split; [exact Hl|]. intros ->. discriminate.
    - auto.
    - exact Hd. }
  destruct e; cbn; auto.
  - intros (u & [Hin Hv] & -> & _ & ->). exists u.
    split; [exact Hin|]. split; [exact Hv|]. split; [reflexivity|].
    apply Hid, Hv.
  - intros (u & [Hin Hv] & -> & ->). exists u.
    split; [exact Hin|]. split; [exact Hv|]. split; [reflexivity|].
    apply Hid, Hv.
Qed.


(** X8.  When the identity creation does not succeed, [createUser] makes
    no further call: the trace grows by that one call, nothing is rolled
    back, the identities of the store, the ledger file and the tracker are
    as before, and the result is a failure carrying the message (prefixed
    by [Auth error: ] when the call answered with an error). *)
Theorem failed_identity_creation_ends_the_item (wsUser : WsUser)
  (dept : string) (w : World) :
  (forall uid,
     remote (trace w)
       (AuthCreateUser (email wsUser) Config.password
          (profile_of wsUser dept rd)) <> Ok uid) ->
  trace (createUser remote wsUser dept rd w).2
  = trace w ++ [AuthCreateUser (email wsUser) Config.password
                  (profile_of wsUser dept rd)]
  /\ auth_users (createUser remote wsUser dept rd w).2 = auth_users w
  /\ fs_file (createUser remote wsUser dept rd w).2 = fs_file w
  /\ tracker (createUser remote wsUser dept rd w).2 = tracker w
  /\ (createUser remote wsUser dept rd w).1
     = failure
         match remote (trace w)
                 (AuthCreateUser (email wsUser) Config.password
                    (profile_of wsUser dept rd)) with
         | Err m => "Auth error: " +:+ m
         | Throw m => m
         | Ok _ => EmptyString
         end.
Proof.
  intros Hno. unfold createUser, bind, call. cbn [store_after].
  destruct (remote (trace w) _) as [uid|m|m] eqn:Ha.
  - destruct (Hno uid). reflexivity.
  - repeat split.
  - repeat split.
Qed.

(** X9.  A [createUser] that reports success made exactly three calls,
    identity, profile and role, in this order and all for the id the
    store returned; the identity is in the store afterwards, nothing was
    deleted, and the result carries that id and no error. *)
Theorem successful_creation_is_three_calls (wsUser : WsUser) (dept : string)
  (w : World) :
  success (createUser remote wsUser dept rd w).1 = true ->
  exists uid,
    remote (trace w)
      (AuthCreateUser (email wsUser) Config.password
         (profile_of wsUser dept rd)) = Ok uid
    /\ (createUser remote wsUser dept rd w).1
       = {| success := true; userId := Some uid; error := None |}
    /\ trace (createUser remote wsUser dept rd w).2
       = trace w
         ++ [AuthCreateUser (email wsUser) Config.password
               (profile_of wsUser dept rd);
             ProfileUpsert uid (email wsUser) (profile_of wsUser dept rd);
             RoleInsert uid (roleId rd)]
    /\ auth_users (createUser remote wsUser dept rd w).2
       = {[ uid ]} ∪ auth_users w.
Proof.
  unfold createUser, profile_and_role, rollback, bind, call. cbn.
  destruct (remote (trace w) _) as [uid|m|m] eqn:Ha; cbn; try discriminate.
  destruct (remote _ (ProfileUpsert uid _ _)) as [x|m|m]; cbn.
  2,3: match goal with
       | |- context [remote ?h (AuthDeleteUser ?u)] =>
           destruct (remote h (AuthDeleteUser u)); cbn; discriminate
       end.
  destruct (remote _ (RoleInsert uid _)) as [y|m|m]; cbn.
  - intros _. exists uid. rewrite <- !app_assoc. repeat split.
  - destruct (JS.includes m "duplicate"); cbn.
    + intros _. exists uid. rewrite <- !app_assoc. repeat split.
    + match goal with
      | |- context [remote ?h (AuthDeleteUser ?u)] =>
          destruct (remote h (AuthDeleteUser u)); cbn; discriminate
      end.
  - match goal with
    | |- context [remote ?h (AuthDeleteUser ?u)] =>
        destruct (remote h (AuthDeleteUser u)); cbn; discriminate
    end.
Qed.

(** X10.  A role insertion that answers with an error whose message
    contains [duplicate] counts as done: [createUser] reports success with
    the new id, makes no further call and does not roll the identity
    back. *)
Theorem duplicate_role_counts_as_success (wsUser : WsUser) (dept : string)
  (w : World) (uid done message : string) :
  remote (trace w)
    (AuthCreateUser (email wsUser) Config.password (profile_of wsUser dept rd))
  = Ok uid ->
  remote
    (trace w ++ [AuthCreateUser (email wsUser) Config.password
                   (profile_of wsUser dept rd)])
    (ProfileUpsert uid (email wsUser) (profile_of wsUser dept rd))
  = Ok done ->
  remote
    ((trace w ++ [AuthCreateUser (email wsUser) Config.password
                    (profile_of wsUser dept rd)])
     ++ [ProfileUpsert uid (email wsUser) (profile_of wsUser dept rd)])
    (RoleInsert uid (roleId rd))
  = Err message ->
  JS.includes message "duplicate" = true ->
  (createUser remote wsUser dept rd w).1
  = {| success := true; userId := Some uid; error := None |}
  /\ trace (createUser remote wsUser dept rd w).2
     = trace w
       ++ [AuthCreateUser (email wsUser) Config.password
             (profile_of wsUser dept rd);
           ProfileUpsert uid (email wsUser) (profile_of wsUser dept rd);
           RoleInsert uid (roleId rd)]
  /\ uid ∈ auth_users (createUser remote wsUser dept rd w).2.
Proof.
  intros Ha Hp Hr Hdup.
  unfold createUser, profile_and_role, bind, call. cbn [store_after trace].
  rewrite Ha. cbn [trace]. rewrite Hp. cbn [trace]. rewrite Hr, Hdup.
  cbn [fst snd trace auth_users ret]. rewrite <- !app_assoc.
  split; [reflexivity|]. split; [reflexivity|].
  apply elem_of_union_l, elem_of_singleton. reflexivity.
Qed.

End CreateMore.

(** ** The accounts of the two phases *)

Section PhaseAccounts.
Import Data Ledger Sys UserCreate Trail.
Variable remote : Remote.
Variable rd : RefData.

Lemma filter_split_length {A} (f : A -> bool) (l : list A) :
  length (List.filter f l) + length (List.filter (fun x => negb (f x)) l)
  = length l.
Proof.
  induction l as [|x l IH]; [reflexivity|].
  cbn [List.filter]. destruct (f x); cbn [negb length]; lia.
Qed.

Lemma create_loop_continue_run cfg n i user rest st w res w1 :
  Config.continueOnError cfg = true ->
  createUser remote (ws_user_of user) (mu_department user) rd w = (res, w1) ->
  success res = false ->
  create_loop remote cfg rd n i (user :: rest) st w
  = create_loop remote cfg rd n (S i) rest
      {| created := created st; errors := S (errors st);
         details := details st ++
           [{| d_email := mu_email user; d_department := mu_department user;
               d_status := Failed (default EmptyString (error res)) |}] |}
      (pace cfg n i (Tracker.addProcessed (mu_email user) false w1).2).2.
Proof.
  intros Hcont Hrun Hfail. cbn [create_loop]. unfold bind at 1.
  rewrite Hrun, Hfail, Hcont. cbn [negb]. unfold bind at 1.
  destruct (Tracker.addProcessed (mu_email user) false w1) as [[] w2].
  unfold bind at 1. cbn [snd]. destruct (pace cfg n i w2) as [[] w3].
  reflexivity.
Qed.

(** The loop handles a prefix of its items, one detail line and one
    count each, and all of them when it continues on errors. *)
Lemma create_loop_accounts cfg n users : forall i st w,
  exists done rest,
    users = done ++ rest
    /\ created (create_loop remote cfg rd n i users st w).1
       + errors (create_loop remote cfg rd n i users st w).1
       = created st + errors st + length done
    /\ (exists ds,
          details (create_loop remote cfg rd n i users st w).1
          = details st ++ ds
          /\ map d_email ds = map mu_email done)
    /\ (Config.continueOnError cfg = true -> rest = []).
Proof.
  induction users as [|u users IH]; intros i st w.
  - exists [], []. cbn. split; [reflexivity|]. split; [lia|].
    split; [exists []; rewrite app_nil_r; auto|auto].
  - destruct (createUser remote (ws_user_of u) (mu_department u) rd w)
      as [res w1] eqn:Hrun.
    destruct (success res) eqn:Hres.
    + rewrite (create_loop_success_run remote rd cfg n i u users st w res w1
                 Hrun Hres).
      destruct (IH (S i)
                  {| created := S (created st); errors := errors st;
                     details := details st ++
                       [{| d_email := mu_email u;
                           d_department := mu_department u;
                           d_status :=
                             Created (default EmptyString (userId res)) |}] |}
                  (pace cfg n i (Tracker.addProcessed (mu_email u) true w1).2).2)
        as (done & rest & -> & Hc & (ds & Hd & He) & Hall).
      exists (u :: done), rest. cbn [created errors details] in Hc, Hd.
      split; [reflexivity|]. split; [cbn [length]; lia|]. split; [|exact Hall].
      eexists. rewrite Hd, <- app_assoc. split; [reflexivity|].
      cbn [app map d_email]. rewrite He. reflexivity.
    + destruct (Config.continueOnError cfg) eqn:Hcont.
      * rewrite (create_loop_continue_run cfg n i u users st w res w1
                   Hcont Hrun Hres).
        destruct (IH (S i)
                    {| created := created st; errors := S (errors st);
                       details := details st ++
                         [{| d_email := mu_email u;
                             d_department := mu_department u;
                             d_status :=
                               Failed (default EmptyString (error res)) |}] |}
                    (pace cfg n i
                       (Tracker.addProcessed (mu_email u) false w1).2).2)
          as (done & rest & -> & Hc & (ds & Hd & He) & Hall).
        exists (u :: done), rest. cbn [created errors details] in Hc, Hd.
        split; [reflexivity|]. split; [cbn [length]; lia|].
        split; [|exact Hall].
        eexists. rewrite Hd, <- app_assoc. split; [reflexivity|].
        cbn [app map d_email]. rewrite He. reflexivity.
      * rewrite (create_loop_failure_run remote rd cfg n i u users st w res w1
                   Hcont Hrun Hres).
        exists [u], users. cbn [fst created errors details length app].
        split; [reflexivity|]. split; [lia|]. split; [|discriminate].
        eexists. split; reflexivity.
Qed.

(** X11.  The accounts of [createUsers] over the items whose address
    the ledger does not hold: every detail line is counted once, as a
    creation or as an error; the lines are those of the items that fail
    validation, in order, followed by one line for each item of a prefix
    of the valid ones; no more items are counted than are pending, and in
    a real run that continues on errors every pending item is counted. *)
Theorem create_phase_accounts (cfg : Config.sync) (items : list MissingUser)
  (w : World) :
  length (details (createUsers remote cfg items rd w).1)
  = created (createUsers remote cfg items rd w).1
    + errors (createUsers remote cfg items rd w).1
  /\ (exists done,
        done `prefix_of` List.filter (fun u => valid u rd) (pending w items)
        /\ map d_email (details (createUsers remote cfg items rd w).1)
           = map (fun u => JS.or_default (mu_email u) "unknown")
               (List.filter (fun u => negb (valid u rd)) (pending w items))
             ++ map mu_email done)
  /\ created (createUsers remote cfg items rd w).1
     + errors (createUsers remote cfg items rd w).1
     <= length (pending w items)
  /\ (Config.dryRun cfg = false -> Config.continueOnError cfg = true ->
      created (createUsers remote cfg items rd w).1
      + errors (createUsers remote cfg items rd w).1
      = length (pending w items)).
Proof.
  rewrite createUsers_run. cbv zeta.
  assert (Hpend : Tracker.filterUnprocessed (tracker (start_world w)) items
                  = pending w items).
  { unfold Tracker.filterUnprocessed, pending. apply filter_ext.
    intros u. rewrite isProcessed_recorded. reflexivity. }
  rewrite Hpend. set (todo := pending w items).
  pose proof (filter_split_length (fun u => valid u rd) todo) as Hsplit.
  destruct (Nat.eqb (length todo) 0) eqn:Hzero.
  { apply Nat.eqb_eq, length_zero_iff_nil in Hzero. rewrite Hzero.
    cbn. split; [reflexivity|]. split; [exists []; split;
      [apply prefix_nil|reflexivity]|]. split; [lia|reflexivity]. }
  rewrite validate_all_spec. cbn [fst snd].
  set (good := List.filter (fun u => valid u rd) todo) in *.
  set (bad := List.filter (fun u => negb (valid u rd)) todo) in *.
  assert (Hbad : map d_email (map (Run.validation_detail rd) bad)
                 = map (fun u => JS.or_default (mu_email u) "unknown") bad).
  { rewrite map_map. reflexivity. }
  destruct (Nat.eqb (length good) 0) eqn:Hgood.
  { apply Nat.eqb_eq in Hgood. cbn [fst created errors details].
    rewrite length_map. split; [reflexivity|]. split.
    { exists []. split; [apply prefix_nil|]. rewrite Hbad, app_nil_r.
      reflexivity. }
    split; [lia|]. intros _ _. lia. }
  destruct (Config.dryRun cfg).
  { cbn [fst created errors details]. rewrite length_map.
    split; [reflexivity|]. split.
    { exists []. split; [apply prefix_nil|]. rewrite Hbad, app_nil_r.
      reflexivity. }
    split; [lia|]. discriminate. }
  cbn [fst].
  destruct (create_loop_accounts cfg (length good) good 0
              {| created := 0; errors := length bad;
                 details := map (Run.validation_detail rd) bad |}
              (start_world w))
    as (done & rest & Hdone & Hc & (ds & Hd & He) & Hall).
  cbn [created errors details] in Hc, Hd.
  assert (Hlen : length good = length done + length rest).
  { rewrite Hdone, length_app. reflexivity. }
  split.
  { rewrite Hd, length_app, length_map, Hc.
    rewrite <- (length_map d_email ds), He, length_map. lia. }
  split.
  { exists done. split; [exists rest; exact Hdone|].
    rewrite Hd, map_app, Hbad, He. reflexivity. }
  split; [lia|].
  intros _ Hcont. rewrite (Hall Hcont) in Hlen. cbn [length] in Hlen. lia.
Qed.

(** X12.  When every item of the plan is already in the ledger (an empty
    plan included), [createUsers] makes no remote call and no wait,
    returns all-zero statistics, and ends by removing the ledger file and
    blanking the tracker. *)
Theorem nothing_pending_clears_the_ledger (cfg : Config.sync)
  (items : list MissingUser) (w : World) :
  forallb (fun u => existsb (String.eqb (mu_email u)) (recorded w)) items
  = true ->
  (createUsers remote cfg items rd w).1 = no_stats
  /\ fs_file (createUsers remote cfg items rd w).2 = None
  /\ tracker (createUsers remote cfg items rd w).2 = blank
  /\ auth_users (createUsers remote cfg items rd w).2 = auth_users w
  /\ extends_with local_event w (createUsers remote cfg items rd w).2
  /\ exists earlier,
       trace (createUsers remote cfg items rd w).2 = earlier ++ [Unlink].
Proof.
  intros Hall. rewrite createUsers_run. cbv zeta.
  assert (Hnone : Tracker.filterUnprocessed (tracker (start_world w)) items = []).
  { unfold Tracker.filterUnprocessed.
    rewrite forallb_forall in Hall.
    induction items as [|u items IH]; [reflexivity|].
    cbn [List.filter]. rewrite isProcessed_recorded.
    rewrite (Hall u) by (left; reflexivity). cbn [negb].
    apply IH. intros x Hx. apply Hall. right. exact Hx. }
  rewrite Hnone. cbn [length Nat.eqb fst snd].
  split; [reflexivity|]. split; [reflexivity|]. split; [reflexivity|].
  split; [apply start_world_store|]. split.
  - eapply extends_trans.
    + apply start_world_extends. auto.
    + apply (emits_clear local_event (fun e H => H)).
  - eexists. reflexivity.
Qed.

(** *** Soft deletion *)

Lemma pace_quiet cfg n i w :
  fs_file (pace cfg n i w).2 = fs_file w
  /\ tracker (pace cfg n i w).2 = tracker w
  /\ auth_users (pace cfg n i w).2 = auth_users w
  /\ reassigned (trace (pace cfg n i w).2) = reassigned (trace w).
Proof.
  unfold pace. destruct (pause_due cfg n i); [|repeat split].
  cbn [sleep snd fs_file tracker auth_users trace]. repeat split.
  unfold reassigned. rewrite omap_app. cbn. apply app_nil_r.
Qed.

Lemma softDeleteUser_quiet user w :
  fs_file (UserDelete.softDeleteUser remote user rd w).2 = fs_file w
  /\ tracker (UserDelete.softDeleteUser remote user rd w).2 = tracker w
  /\ auth_users (UserDelete.softDeleteUser remote user rd w).2 = auth_users w
  /\ reassigned (trace (UserDelete.softDeleteUser remote user rd w).2)
     = reassigned (trace w) ++ [du_user_id user].
Proof.
  unfold UserDelete.softDeleteUser, bind, call. cbn [store_after].
  assert (Hr : reassigned
                 (trace w ++ [ProfileUpdate (du_user_id user)
                                (deletedDepartmentId rd) (deletedTeamId rd)])
               = reassigned (trace w) ++ [du_user_id user]).
  { unfold reassigned. rewrite omap_app. reflexivity. }
  destruct (remote (trace w) _); cbn; repeat split; exact Hr.
Qed.

Lemma delete_loop_next cfg n i user rest st w :
  UserDelete.delete_loop remote cfg rd n i (user :: rest) st w
  = let r := UserDelete.softDeleteUser remote user rd w in
    let line status :=
      {| UserDelete.deleted :=
           if UserDelete.success r.1 then S (UserDelete.deleted st)
           else UserDelete.deleted st;
         UserDelete.errors :=
           if UserDelete.success r.1 then UserDelete.errors st
           else S (UserDelete.errors st);
         UserDelete.details := UserDelete.details st ++
           [{| d_email := du_email user;
               d_department := du_supa_department user;
               d_status := status |}] |} in
    if UserDelete.success r.1 then
      UserDelete.delete_loop remote cfg rd n (S i) rest (line MovedToDeleted)
        (pace cfg n i r.2).2
    else if Config.continueOnError cfg then
      UserDelete.delete_loop remote cfg rd n (S i) rest
        (line (Failed (default EmptyString (UserDelete.error r.1))))
        (pace cfg n i r.2).2
    else (line (Failed (default EmptyString (UserDelete.error r.1))), r.2).
Proof.
  cbn [UserDelete.delete_loop]. unfold bind at 1. cbv zeta.
  destruct (UserDelete.softDeleteUser remote user rd w) as [res w1].
  cbn [fst snd]. destruct (UserDelete.success res).
  - unfold bind. destruct (pace cfg n i w1) as [[] w2]. reflexivity.
  - destruct (Config.continueOnError cfg); cbn [negb]; [|reflexivity].
    unfold bind. destruct (pace cfg n i w1) as [[] w2]. reflexivity.
Qed.

Lemma delete_loop_accounts cfg n users : forall i st w,
  exists done rest,
    users = done ++ rest
    /\ UserDelete.deleted (UserDelete.delete_loop remote cfg rd n i users st w).1
       + UserDelete.errors (UserDelete.delete_loop remote cfg rd n i users st w).1
       = UserDelete.deleted st + UserDelete.errors st + length done
    /\ (exists ds,
          UserDelete.details
            (UserDelete.delete_loop remote cfg rd n i users st w).1
          = UserDelete.details st ++ ds
          /\ map d_email ds = map du_email done)
    /\ reassigned (trace (UserDelete.delete_loop remote cfg rd n i users st w).2)
       = reassigned (trace w) ++ map du_user_id done
    /\ fs_file (UserDelete.delete_loop remote cfg rd n i users st w).2
       = fs_file w
    /\ tracker (UserDelete.delete_loop remote cfg rd n i users st w).2
       = tracker w
    /\ auth_users (UserDelete.delete_loop remote cfg rd n i users st w).2
       = auth_users w
    /\ (Config.continueOnError cfg = true -> rest = []).
Proof.
  induction users as [|u users IH]; intros i st w.
  - exists [], []. cbn. rewrite !app_nil_r. split; [reflexivity|].
    split; [lia|]. split; [exists []; rewrite app_nil_r; auto|].
    repeat split; auto.
  - rewrite delete_loop_next. cbv zeta.
    destruct (softDeleteUser_quiet u w) as (Hf & Ht & Ha & Hr).
    destruct (pace_quiet cfg n i (UserDelete.softDeleteUser remote u rd w).2)
      as (Hf' & Ht' & Ha' & Hr').
    destruct (UserDelete.success (UserDelete.softDeleteUser remote u rd w).1).
    + match goal with
      | |- context [UserDelete.delete_loop remote cfg rd n (S i) users ?s ?x] =>
          destruct (IH (S i) s x)
            as (done & rest & -> & Hc & (ds & Hd & He) & Hre & H1 & H2 & H3 & Hall)
      end.
      exists (u :: done), rest.
      cbn [UserDelete.deleted UserDelete.errors UserDelete.details] in Hc, Hd.
      split; [reflexivity|]. split; [cbn [length]; lia|]. split.
      { eexists. rewrite Hd, <- app_assoc. split; [reflexivity|].
        cbn [app map d_email]. rewrite He. reflexivity. }
      split; [rewrite Hre, Hr', Hr, <- app_assoc; reflexivity|].
      split; [congruence|]. split; [congruence|]. split; [congruence|].
      exact Hall.
    + destruct (Config.continueOnError cfg) eqn:Hcont.
      * match goal with
        | |- context [UserDelete.delete_loop remote cfg rd n (S i) users ?s ?x] =>
            destruct (IH (S i) s x)
              as (done & rest & -> & Hc & (ds & Hd & He) & Hre & H1 & H2 & H3
                  & Hall)
        end.
        exists (u :: done), rest.
        cbn [UserDelete.deleted UserDelete.errors UserDelete.details] in Hc, Hd.
        split; [reflexivity|]. split; [cbn [length]; lia|]. split.
        { eexists. rewrite Hd, <- app_assoc. split; [reflexivity|].
          cbn [app map d_email]. rewrite He. reflexivity. }
        split; [rewrite Hre, Hr', Hr, <- app_assoc; reflexivity|].
        split; [congruence|]. split; [congruence|]. split; [congruence|].
        exact Hall.
      * exists [u], users.
        cbn [fst snd UserDelete.deleted UserDelete.errors UserDelete.details
             length app map].
        split; [reflexivity|]. split; [lia|]. split.
        { eexists. split; reflexivity. }
        split; [exact Hr|]. split; [exact Hf|]. split; [exact Ht|].
        split; [exact Ha|discriminate].
Qed.

Lemma soft_delete_done cfg items w :
  UserDelete.deleted (UserDelete.softDeleteUsers remote cfg items rd w).1
  <= length items.
Proof.
  unfold UserDelete.softDeleteUsers. destruct (Config.dryRun cfg); [cbn; lia|].
  destruct (delete_loop_accounts cfg (length items) items 0
              UserDelete.no_stats w)
    as (done & rest & Hsplit & Hc & _).
  cbn [UserDelete.no_stats UserDelete.deleted UserDelete.errors] in Hc.
  assert (Hlen : length items = length done + length rest)
    by (rewrite Hsplit; apply length_app).
  lia.
Qed.

(** X13.  [softDeleteUsers] handles a prefix of its plan, every item of
    it when it continues on errors, and none in a dry run.  For each item
    handled it makes one reassignment, in plan order, leaves one detail
    line and counts one deletion or one error.  It never touches the
    ledger file, the tracker or the identities of the store. *)
Theorem soft_delete_accounts (cfg : Config.sync) (items : list DeletedUser)
  (w : World) :
  exists done rest,
    items = done ++ rest
    /\ UserDelete.deleted (UserDelete.softDeleteUsers remote cfg items rd w).1
       + UserDelete.errors (UserDelete.softDeleteUsers remote cfg items rd w).1
       = length done
    /\ map d_email
         (UserDelete.details (UserDelete.softDeleteUsers remote cfg items rd w).1)
       = map du_email done
    /\ reassigned (trace (UserDelete.softDeleteUsers remote cfg items rd w).2)
       = reassigned (trace w) ++ map du_user_id done
    /\ fs_file (UserDelete.softDeleteUsers remote cfg items rd w).2 = fs_file w
    /\ tracker (UserDelete.softDeleteUsers remote cfg items rd w).2 = tracker w
    /\ auth_users (UserDelete.softDeleteUsers remote cfg items rd w).2
       = auth_users w
    /\ (Config.dryRun cfg = true -> done = [])
    /\ (Config.dryRun cfg = false -> Config.continueOnError cfg = true ->
        done = items).
Proof.
  unfold UserDelete.softDeleteUsers. destruct (Config.dryRun cfg).
  - exists [], items. cbn. rewrite app_nil_r. repeat split; auto.
    discriminate.
  - destruct (delete_loop_accounts cfg (length items) items 0
                UserDelete.no_stats w)
      as (done & rest & Hsplit & Hc & (ds & Hd & He) & Hre & H1 & H2 & H3 & Hall).
    exists done, rest. cbn [UserDelete.no_stats UserDelete.deleted
      UserDelete.errors UserDelete.details app] in Hc, Hd.
    split; [exact Hsplit|]. split; [lia|].
    split; [rewrite Hd; exact He|]. split; [exact Hre|].
    split; [exact H1|]. split; [exact H2|]. split; [exact H3|].
    split; [discriminate|].
    intros _ Hcont. rewrite Hsplit, (Hall Hcont), app_nil_r. reflexivity.
Qed.

Lemma emits_delete_loop cfg items n users :
  (forall u, In u users -> In u items) ->
  forall i st,
    emits (reassignment_of rd cfg items)
      (UserDelete.delete_loop remote cfg rd n i users st).
Proof.
  induction users as [|u users IH]; intros Hsub i st.
  - apply emits_ret.
  - cbn [UserDelete.delete_loop]. apply emits_bind.
    { unfold UserDelete.softDeleteUser. apply emits_bind.
      - apply emits_call. cbn. split; [|split; reflexivity].
        exists u. split; [apply Hsub; left; reflexivity|reflexivity].
      - intros [?|?|?]; apply emits_ret. }
    assert (Hpace : emits (reassignment_of rd cfg items) (pace cfg n i)).
    { unfold pace. destruct (pause_due cfg n i);
        [apply emits_sleep; reflexivity|apply emits_ret]. }
    assert (Hrest : forall st', emits (reassignment_of rd cfg items)
              (UserDelete.delete_loop remote cfg rd n (S i) users st')).
    { intros st'. apply IH. intros x Hx. apply Hsub. right. exact Hx. }
    intros res. destruct (UserDelete.success res).
    + apply emits_bind; [exact Hpace|intros _; apply Hrest].
    + destruct (negb (Config.continueOnError cfg)); [apply emits_ret|].
      apply emits_bind; [exact Hpace|intros _; apply Hrest].
Qed.

(** X14.  All that [softDeleteUsers] ever sends is the reassignment of
    an item of its plan to the deleted department and its team, and the
    pacing wait of the configured length: it never deletes an identity,
    never creates or rewrites a profile, and reads or writes no file. *)
Theorem soft_delete_only_reassigns (cfg : Config.sync)
  (items : list DeletedUser) (w : World) :
  extends_with (reassignment_of rd cfg items) w
    (UserDelete.softDeleteUsers remote cfg items rd w).2.
Proof.
  unfold UserDelete.softDeleteUsers. destruct (Config.dryRun cfg).
  - apply extends_refl.
  - apply emits_delete_loop. auto.
Qed.

End PhaseAccounts.

Lemma nothing_pending_clears_the_ledger_witness :
  (UserCreate.createUsers Scenario.accepting Scenario.live
     [Scenario.item 0; Scenario.item 1] Scenario.refData
     {| Sys.fs_file :=
          Some {| Ledger.startTime := Some 0; Ledger.lastUpdate := Some 0;
                  Ledger.phase := Some "create";
                  Ledger.processedEmails := ["a@eneca.work"; "b@eneca.work"];
                  Ledger.stats := Ledger.zero |};
        Sys.tracker := Ledger.blank; Sys.auth_users := ∅; Sys.clock := 0;
        Sys.trace := [] |}).1
  = UserCreate.no_stats.
Proof.
  apply (nothing_pending_clears_the_ledger Scenario.accepting Scenario.refData
           Scenario.live [Scenario.item 0; Scenario.item 1]).
  reflexivity.
Defined.

Lemma failed_identity_creation_ends_the_item_witness :
  (UserCreate.createUser Scenario.refusing
     (UserCreate.ws_user_of (Scenario.item 0)) "Design" Scenario.refData
     Scenario.fresh).1
  = UserCreate.failure "Auth error: service unavailable".
Proof.
  apply (failed_identity_creation_ends_the_item Scenario.refusing
           Scenario.refData (UserCreate.ws_user_of (Scenario.item 0)) "Design"
           Scenario.fresh).
  intros uid. discriminate.
Defined.

Lemma successful_creation_is_three_calls_witness :
  exists uid,
    Scenario.accepting (Sys.trace Scenario.fresh)
      (Sys.AuthCreateUser
         (UserCreate.email (UserCreate.ws_user_of (Scenario.item 0)))
         Config.password
         (UserCreate.profile_of (UserCreate.ws_user_of (Scenario.item 0))
            "Design" Scenario.refData)) = Sys.Ok uid
    /\ (UserCreate.createUser Scenario.accepting
          (UserCreate.ws_user_of (Scenario.item 0)) "Design" Scenario.refData
          Scenario.fresh).1
       = {| UserCreate.success := true; UserCreate.userId := Some uid;
            UserCreate.error := None |}.
Proof.
  destruct (successful_creation_is_three_calls Scenario.accepting
              Scenario.refData (UserCreate.ws_user_of (Scenario.item 0))
              "Design" Scenario.fresh) as (uid & H1 & H2 & _).
  - reflexivity.
  - exists uid. split; [exact H1|exact H2].
Defined.

Lemma duplicate_role_counts_as_success_witness :
  (UserCreate.createUser
     (fun _ e => match e with
                 | Sys.AuthCreateUser _ _ _ => Sys.Ok "uid-1"
                 | Sys.RoleInsert _ _ =>
                     Sys.Err "duplicate key value violates unique constraint"
                 | _ => Sys.Ok "done"
                 end)
     (UserCreate.ws_user_of (Scenario.item 0)) "Design" Scenario.refData
     Scenario.fresh).1
  = {| UserCreate.success := true; UserCreate.userId := Some "uid-1";
       UserCreate.error := None |}.
Proof.
  apply (duplicate_role_counts_as_success
           (fun _ e => match e with
                       | Sys.AuthCreateUser _ _ _ => Sys.Ok "uid-1"
                       | Sys.RoleInsert _ _ =>
                           Sys.Err "duplicate key value violates unique constraint"
                       | _ => Sys.Ok "done"
                       end)
           Scenario.refData (UserCreate.ws_user_of (Scenario.item 0)) "Design"
           Scenario.fresh "uid-1" "done"
           "duplicate key value violates unique constraint");
    reflexivity.
Defined.

(** ** The report of the Comparator *)

Section ReportFacts.
Import Data Compare.
Variable toLowerCase : string -> string.
Variable mapDepartment : string -> option string.
Variable mappedDepartments : list string.

Abbreviation index_by_email := (Compare.index_by_email toLowerCase).
Abbreviation expectedDepartment :=
  (Compare.expectedDepartment toLowerCase mapDepartment).
Abbreviation compareUsers :=
  (Compare.compareUsers toLowerCase mapDepartment mappedDepartments).
Abbreviation initial_departments :=
  (Compare.initial_departments mappedDepartments).
Abbreviation key_ws := (Report.key_ws toLowerCase).
Abbreviation key_su := (Report.key_su toLowerCase).
Abbreviation in_dept := (Report.in_dept toLowerCase mapDepartment).
Abbreviation is_matched := (Report.is_matched toLowerCase mapDepartment).
Abbreviation missing_of := (Report.missing_of toLowerCase mapDepartment).
Abbreviation dept_missing_of :=
  (Report.dept_missing_of toLowerCase mapDepartment).
Abbreviation difference_of := (Report.difference_of toLowerCase mapDepartment).
Abbreviation apply_ws := (Report.apply_ws toLowerCase mapDepartment).
Abbreviation ws_closed := (Report.ws_closed toLowerCase mapDepartment).
Abbreviation resolvable := (Report.resolvable toLowerCase mapDepartment).
Abbreviation extra_of := (Report.extra_of toLowerCase).
Abbreviation deleted_of := (Report.deleted_of toLowerCase).
Abbreviation apply_supa := (Report.apply_supa toLowerCase).
Abbreviation supa_closed := (Report.supa_closed toLowerCase).

(** *** Departments without an entry *)

Lemma forallb_false_of_Exists {A} (f : A -> bool) (l : list A) :
  Exists (fun x => f x = false) l -> forallb f l = false.
Proof.
  induction 1 as [x l Hx|x l _ IH]; cbn [forallb].
  - rewrite Hx. reflexivity.
  - rewrite IH. apply andb_false_r.
Qed.

(** X15.  [compareUsers] has no guard against a department it has no
    entry for, and ends in its [catch] block, without a report, in each
    of these cases.  A source record is expected in a department that is
    neither listed nor the leave department: at once when the name finds
    nothing, and, when the name is one of [Object.prototype], unless the
    target record indexed under the record's address is of that very
    department.  A target record is of a department that is not listed
    and bears a name of [Object.prototype], and no source record has its
    address. *)
Theorem unknown_department_ends_the_comparison (ws : list SourceUser)
  (supa : list SupaUser) :
  Exists (fun u =>
            exists d, expectedDepartment u = Some d
              /\ d <> DEKRET /\ ~ In d mappedDepartments
              /\ (JS.inherited d = true ->
                  forall s, index_by_email su_email supa !! key_ws u = Some s ->
                            su_department_name s <> Some d)) ws
  \/ Exists (fun s =>
               exists d, su_department_name s = Some d
                 /\ d <> DEKRET /\ ~ In d mappedDepartments
                 /\ JS.inherited d = true
                 /\ Forall (fun u => key_ws u <> key_su s) ws) supa ->
  compareUsers ws supa = None.
Proof.
  intros Hcase. rewrite compareUsers_closed.
  assert (Hget : forall d, d <> DEKRET -> ~ In d mappedDepartments ->
            JS.get initial_departments d
            = if JS.inherited d then JS.Inherited d else JS.Undefined).
  { intros d H1 H2. unfold JS.get.
    assert (Hn : initial_departments !! d = None) by (apply (initial_None toLowerCase mapDepartment); auto).
    rewrite Hn. reflexivity. }
  destruct Hcase as [Hws|Hsupa].
  - rewrite (forallb_false_of_Exists _ ws); [reflexivity|].
    apply List.Exists_impl with (2 := Hws).
    intros u (d & He & H1 & H2 & Hinh). unfold Report.resolvable.
    rewrite He, (Hget d H1 H2).
    destruct (JS.inherited d); [|reflexivity].
    destruct (index_by_email su_email supa !! Report.key_ws toLowerCase u)
      as [s|]; [|reflexivity].
    apply bool_decide_eq_false. apply (Hinh eq_refl s). reflexivity.
  - rewrite (forallb_false_of_Exists _ supa);
      [rewrite andb_false_r; reflexivity|].
    apply List.Exists_impl with (2 := Hsupa).
    intros s (d & Hd & H1 & H2 & Hinh & Hno). unfold Report.admissible.
    rewrite Hd, (Hget d H1 H2), Hinh.
    assert (Hf : JS.falsy d = false).
    { unfold JS.falsy. apply String.eqb_neq. intros ->. discriminate Hinh. }
    rewrite Hf. apply bool_decide_eq_false.
    apply (index_None toLowerCase mapDepartment) in Hno.
    unfold Report.key_su in *.
    rewrite Hno. intros [? ?]; discriminate.
Qed.

(** *** Reading a report *)

Lemma omap_length_le {A B} (f : A -> option B) (g : A -> bool) (l : list A) :
  (forall x y, f x = Some y -> g x = true) ->
  length (omap f l) <= length (List.filter g l).
Proof.
  intros H. induction l as [|x l IH]; [reflexivity|].
  cbn [omap list_omap List.filter].
  destruct (f x) as [y|] eqn:Hf.
  - rewrite (H x y Hf). cbn [length]. lia.
  - destruct (g x); cbn [length]; lia.
Qed.

(** X16.  The counts of a report add up.  The totals are the lengths of
    the two lists; every source record with an expected department is
    either matched or listed as missing; a department's [ws_count] is the
    number of source records expected in it and covers its missing and
    difference lists, which never share a record; its [supa_count] is the
    number of target records of that department and covers its extra
    list. *)
Theorem report_counts_add_up (ws : list SourceUser) (supa : list SupaUser)
  (stats : Stats) :
  compareUsers ws supa = Some stats ->
  ws_total stats = length ws
  /\ supa_total stats = length supa
  /\ matched stats + length (missing_in_supabase stats)
     = length (List.filter
                 (fun u => bool_decide (is_Some (expectedDepartment u))) ws)
  /\ forall d ds,
       by_department stats !! d = Some ds ->
       ws_count ds = length (List.filter (in_dept d) ws)
       /\ supa_count ds = length (List.filter (Report.counted_in d) supa)
       /\ length (dept_missing_in_supabase ds)
          + length (department_differences ds) <= ws_count ds
       /\ length (extra_in_supabase ds) <= supa_count ds.
Proof.
  intros Hrun.
  destruct (report_global _ _ _ ws supa stats Hrun) as (H1 & H2 & H3 & H4 & _).
  split; [exact H1|]. split; [exact H2|]. split.
  { rewrite H3, H4. clear. induction ws as [|u ws IH]; [reflexivity|].
    cbn [List.filter omap list_omap].
    unfold Report.is_matched, Report.missing_of in *.
    destruct (expectedDepartment u) as [d|].
    - rewrite bool_decide_true by eauto.
      destruct (index_by_email su_email supa !! key_ws u);
        cbn [length]; lia.
    - rewrite bool_decide_false by (intros [? ?]; discriminate). exact IH. }
  intros d ds Hd.
  destruct (report_department _ _ _ ws supa stats d ds Hrun Hd) as [_ ->].
  cbn [ws_count supa_count dept_missing_in_supabase extra_in_supabase
       department_differences Report.apply_supa Report.apply_ws
       empty_dept app].
  split; [reflexivity|]. split; [reflexivity|]. split.
  - clear. induction ws as [|u ws IH]; [reflexivity|].
    cbn [List.filter omap list_omap].
    unfold Report.dept_missing_of, Report.difference_of in *.
    destruct (in_dept d u); [|exact IH].
    destruct (index_by_email su_email supa !! key_ws u) as [s|].
    + destruct (bool_decide (su_department_name s = Some d));
        cbn [length]; lia.
    + cbn [length]. lia.
  - apply omap_length_le. intros s y. unfold Report.extra_of.
    destruct (Report.counted_in d s); [reflexivity|discriminate].
Qed.

(** X17.  What the report lists is really so.  Every entry of the
    missing list comes from a source record with that expected department
    whose lower-cased address no target record bears; every entry of the
    deleted list comes from a target record of a listed department (or
    the leave department) whose lower-cased address no source record
    bears. *)
Theorem report_lists_are_sound (ws : list SourceUser) (supa : list SupaUser)
  (stats : Stats) :
  compareUsers ws supa = Some stats ->
  Forall (fun e =>
            exists u, In u ws /\ e = missing_entry u (mu_department e)
              /\ expectedDepartment u = Some (mu_department e)
              /\ Forall (fun s => key_su s <> key_ws u) supa)
    (missing_in_supabase stats)
  /\ Forall (fun e =>
               exists s, In s supa /\ e = deleted_entry s (du_departmentName e)
                 /\ su_department_name s = Some (du_departmentName e)
                 /\ du_departmentName e <> EmptyString
                 /\ (du_departmentName e = DEKRET
                     \/ In (du_departmentName e) mappedDepartments)
                 /\ Forall (fun u => key_ws u <> key_su s) ws)
      (deleted_from_ws stats).
Proof.
  intros Hrun.
  destruct (report_global _ _ _ ws supa stats Hrun) as (_ & _ & _ & -> & ->).
  split.
  - apply Forall_omap. intros u e Hin. unfold Report.missing_of.
    destruct (expectedDepartment u) as [d|] eqn:He; [|discriminate].
    destruct (index_by_email su_email supa !! key_ws u) eqn:Hi; [discriminate|].
    intros [= <-]. exists u. cbn [mu_department missing_entry].
    split; [exact Hin|]. split; [reflexivity|]. split; [exact He|].
    apply (index_None toLowerCase mapDepartment) in Hi. exact Hi.
  - apply Forall_omap. intros s e Hin. unfold Report.deleted_of.
    destruct (su_department_name s) as [d|] eqn:Hd; [|discriminate].
    destruct (JS.falsy d) eqn:Hf; [discriminate|].
    destruct (initial_departments !! d) as [x|] eqn:Hm; [|discriminate].
    destruct (index_by_email ws_email ws !! key_su s) eqn:Hi; [discriminate|].
    intros [= <-]. exists s. cbn [du_departmentName deleted_entry].
    split; [exact Hin|]. split; [reflexivity|]. split; [exact Hd|].
    split; [intros ->; discriminate|].
    split; [apply (initial_lookup toLowerCase mapDepartment) in Hm; tauto|].
    apply (index_None toLowerCase mapDepartment) in Hi. exact Hi.
Qed.

(** X18.  The per-department lists are the global lists, department by
    department: for every department of the report, the addresses of its
    missing list are those of the global missing list filed under it, and
    the addresses of its extra list are those of the global deleted list
    filed under it, in the same order. *)
Theorem department_lists_split_the_global_lists (ws : list SourceUser)
  (supa : list SupaUser) (stats : Stats) (d : string) (ds : DeptStats) :
  compareUsers ws supa = Some stats ->
  by_department stats !! d = Some ds ->
  map dm_email (dept_missing_in_supabase ds)
  = map Data.mu_email
      (List.filter (fun e => String.eqb (mu_department e) d)
         (missing_in_supabase stats))
  /\ map de_email (extra_in_supabase ds)
     = map du_email
         (List.filter (fun e => String.eqb (du_departmentName e) d)
            (deleted_from_ws stats)).
Proof.
  intros Hrun Hd.
  destruct (report_global _ _ _ ws supa stats Hrun) as (_ & _ & _ & -> & ->).
  destruct (report_department _ _ _ ws supa stats d ds Hrun Hd) as [Hlisted ->].
  assert (Hkey : initial_departments !! d = Some empty_dept)
    by (apply (initial_lookup toLowerCase mapDepartment); auto).
  cbn [dept_missing_in_supabase extra_in_supabase Report.apply_supa
       Report.apply_ws empty_dept app].
  split.
  - clear. induction ws as [|u ws IH]; [reflexivity|].
    cbn [omap list_omap].
    unfold Report.dept_missing_of, Report.missing_of, Report.in_dept in *.
    destruct (expectedDepartment u) as [d0|].
    + destruct (index_by_email su_email supa !! key_ws u).
      * destruct (bool_decide (Some d0 = Some d)); exact IH.
      * cbn [List.filter mu_department missing_entry].
        destruct (decide (d0 = d)) as [->|Hne].
        -- rewrite bool_decide_true by reflexivity. rewrite String.eqb_refl.
           cbn [map]. rewrite IH. reflexivity.
        -- rewrite bool_decide_false by congruence.
           apply String.eqb_neq in Hne. rewrite Hne. exact IH.
    + rewrite bool_decide_false by discriminate. exact IH.
  - clear - Hkey. induction supa as [|s supa IH]; [reflexivity|].
    cbn [omap list_omap].
    unfold Report.extra_of, Report.deleted_of, Report.counted_in in *.
    destruct (su_department_name s) as [d0|].
    + destruct (decide (d0 = d)) as [->|Hne].
      * rewrite bool_decide_true by reflexivity. rewrite Hkey.
        destruct (JS.falsy d); cbn [negb andb] in IH |- *; [exact IH|].
        destruct (index_by_email ws_email ws !! key_su s); [exact IH|].
        cbn [List.filter du_departmentName deleted_entry].
        rewrite String.eqb_refl. cbn [map]. rewrite IH. reflexivity.
      * rewrite bool_decide_false by congruence. cbn [andb].
        destruct (JS.falsy d0); [exact IH|].
        destruct (initial_departments !! d0); [|exact IH].
        destruct (index_by_email ws_email ws !! key_su s); [exact IH|].
        cbn [List.filter du_departmentName deleted_entry].
        apply String.eqb_neq in Hne. rewrite Hne. exact IH.
    + rewrite bool_decide_false by discriminate. exact IH.
Qed.

(** X19.  Every entry of a department's difference list stands for a
    real mismatch: a source record expected in that department whose
    lower-cased address is borne by a target record, the one the entry
    reports, whose department is another one or none. *)
Theorem differences_are_real_mismatches (ws : list SourceUser)
  (supa : list SupaUser) (stats : Stats) (d : string) (ds : DeptStats) :
  compareUsers ws supa = Some stats ->
  by_department stats !! d = Some ds ->
  Forall (fun x =>
            df_ws_expected x = d
            /\ df_supa_actual x <> Some d
            /\ exists u s,
                 In u ws /\ In s supa /\ key_su s = key_ws u
                 /\ expectedDepartment u = Some d
                 /\ x = difference_entry u d s)
    (department_differences ds).
Proof.
  intros Hrun Hd.
  destruct (report_department _ _ _ ws supa stats d ds Hrun Hd) as [_ ->].
  cbn [department_differences Report.apply_supa Report.apply_ws empty_dept app].
  apply Forall_omap. intros u x Hin. unfold Report.difference_of.
  destruct (in_dept d u) eqn:Hin_d; [|discriminate].
  apply bool_decide_eq_true in Hin_d.
  destruct (index_by_email su_email supa !! key_ws u) as [s|] eqn:Hi;
    [|discriminate].
  destruct (bool_decide (su_department_name s = Some d)) eqn:Hsame;
    [discriminate|].
  apply bool_decide_eq_false in Hsame.
  intros [= <-]. cbn [df_ws_expected df_supa_actual difference_entry].
  split; [reflexivity|]. split; [exact Hsame|].
  apply (index_Some toLowerCase mapDepartment) in Hi. destruct Hi as [Hs Hk].
  exists u, s. repeat split; auto.
Qed.

End ReportFacts.

(** X15, two instances: a target record of a department named like a
    member of [Object.prototype] that the source does not have, and a
    source record mapped to a department that is not listed. *)
Lemma unknown_department_ends_the_comparison_witness :
  let s := Scenario.target "id-9" "eve@eneca.work" (Some "constructor") in
  let u := Scenario.source "anna@eneca.work" "Дизайн" "designer" in
  JS.inherited "constructor" = true
  /\ ~ In "constructor" Scenario.tracked
  /\ Scenario.compare [] [s] = None
  /\ Compare.compareUsers JS.lower_ascii Scenario.mapDepartment [] [u] []
     = None.
Proof.
  intros s u. split; [reflexivity|].
  assert (Hout : ~ In "constructor" Scenario.tracked).
  { intros [H|[]]. discriminate H. }
  split; [exact Hout|]. split.
  - apply (unknown_department_ends_the_comparison JS.lower_ascii
             Scenario.mapDepartment Scenario.tracked [] [s]).
    right. constructor. exists "constructor".
    split; [reflexivity|]. split; [discriminate|]. split; [exact Hout|].
    split; [reflexivity|constructor].
  - apply (unknown_department_ends_the_comparison JS.lower_ascii
             Scenario.mapDepartment [] [u] []).
    left. constructor. exists "Design".
    split; [reflexivity|]. split; [discriminate|]. split; [intros []|].
    intros H. discriminate H.
Defined.

Lemma report_counts_add_up_witness :
  Compare.ws_total Sample.report = 2 /\ Compare.supa_total Sample.report = 2.
Proof.
  destruct (report_counts_add_up JS.lower_ascii Scenario.mapDepartment
              Scenario.tracked Sample.ws Sample.supa Sample.report)
    as (H1 & H2 & _).
  - vm_compute. reflexivity.
  - split; [exact H1|exact H2].
Defined.

Lemma report_lists_are_sound_witness :
  map Data.mu_email (Compare.missing_in_supabase Sample.report)
  = ["new@eneca.work"]
  /\ Forall (fun e => Data.du_departmentName e <> EmptyString)
       (Compare.deleted_from_ws Sample.report).
Proof.
  split; [vm_compute; reflexivity|].
  destruct (report_lists_are_sound JS.lower_ascii Scenario.mapDepartment
              Scenario.tracked Sample.ws Sample.supa Sample.report)
    as [_ H].
  - vm_compute. reflexivity.
  - eapply List.Forall_impl; [|exact H].
    intros e (s & _ & _ & _ & Hne & _). exact Hne.
Defined.

Lemma department_lists_split_the_global_lists_witness :
  map Compare.dm_email (Compare.dept_missing_in_supabase Sample.design)
  = map Data.mu_email
      (List.filter (fun e => String.eqb (Data.mu_department e) "Design")
         (Compare.missing_in_supabase Sample.report)).
Proof.
  apply (department_lists_split_the_global_lists JS.lower_ascii
           Scenario.mapDepartment Scenario.tracked Sample.ws Sample.supa
           Sample.report "Design" Sample.design).
  - vm_compute. reflexivity.
  - vm_compute. reflexivity.
Defined.

Lemma differences_are_real_mismatches_witness :
  Forall (fun x => Compare.df_ws_expected x = "Design")
    (Compare.department_differences Sample.design)
  /\ map Compare.df_email (Compare.department_differences Sample.design)
     = ["Moved@eneca.work"].
Proof.
  split; [|vm_compute; reflexivity].
  eapply List.Forall_impl;
    [|apply (differences_are_real_mismatches JS.lower_ascii
               Scenario.mapDepartment Scenario.tracked Sample.ws Sample.supa
               Sample.report "Design" Sample.design)].
  - intros x [H _]. exact H.
  - vm_compute. reflexivity.
  - vm_compute. reflexivity.
Defined.

(** ** Loading the reference data *)

Section LoaderFacts.
Import Data Loader Trail.

Lemma L_bind_inl {A B} (m : L A) (k : A -> L B) s b s' :
  mbind k m s = (inl b, s') ->
  exists a s1, m s = (inl a, s1) /\ k a s1 = (inl b, s').
Proof.
  unfold mbind, L_bind. destruct (m s) as [[a|t] s1]; [eauto|discriminate].
Qed.

Lemma obj_map_lookup (o : Obj) k : obj_map o !! k = obj_get k o.
Proof.
  unfold obj_map. induction o as [|[k' v] o IH]; [apply lookup_empty|].
  cbn [list_to_map foldr obj_get uncurry fst snd].
  destruct (String.eqb_spec k' k) as [->|Hne].
  - apply lookup_insert_eq.
  - rewrite lookup_insert_ne by exact Hne. exact IH.
Qed.

Lemma obj_has (o : Obj) k :
  obj_lacks o k = false ->
  exists v, obj_map o !! k = Some v /\ v <> EmptyString.
Proof.
  unfold obj_lacks. rewrite obj_map_lookup.
  destruct (obj_get k o) as [v|]; [|discriminate].
  intros Hf. exists v. split; [reflexivity|]. intros ->. discriminate.
Qed.

Lemma none_filtered {A} (f : A -> bool) (l : list A) :
  Nat.ltb 0 (length (List.filter f l)) = false ->
  forall x, In x l -> f x = false.
Proof.
  intros H x Hin. apply Nat.ltb_ge in H.
  destruct (f x) eqn:Hf; [|reflexivity].
  assert (Hx : In x (List.filter f l)) by (apply filter_In; auto).
  destruct (List.filter f l); [destruct Hx|cbn in H; lia].
Qed.

(** X20.  A reference bundle that [loadReferenceData] returns is
    complete: every production department and the deleted department has
    an id that is set, every one of them has its [<name> - Общая] team
    with an id that is set, and [deletedDepartmentId] and [deletedTeamId]
    are those of the deleted department and of its team.  Hence an item
    of such a department never fails the department check of
    [validateUser], and the profile built for it carries a department id
    and a team id. *)
Theorem loaded_reference_is_complete (st : Store) (production : list string)
  (s s' : State) (rd : RefData) :
  loadReferenceData st production s = (inl rd, s') ->
  (forall d, In d (production ++ [Config.DELETED_DEPARTMENT]) ->
     (exists i, departmentMap rd !! d = Some i /\ i <> EmptyString)
     /\ exists t, teamMap rd !! Config.getTeamName d = Some t
                  /\ t <> EmptyString)
  /\ departmentMap rd !! Config.DELETED_DEPARTMENT
     = Some (deletedDepartmentId rd)
  /\ teamMap rd !! Config.getTeamName Config.DELETED_DEPARTMENT
     = Some (deletedTeamId rd)
  /\ forall (u : MissingUser) (wsUser : UserCreate.WsUser),
       In (mu_department u) production ->
       mu_department u <> EmptyString ->
       (UserCreate.valid u rd = true
        <-> JS.falsy (mu_email u) = false
            /\ JS.includes (mu_email u) "@" = true
            /\ JS.falsy (mu_name u) = false
            /\ JS.trim_is_empty (mu_name u) = false)
       /\ (exists i,
             p_department_id
               (UserCreate.profile_of wsUser (mu_department u) rd)
             = JS.Own i /\ i <> EmptyString)
       /\ is_Some (p_team_id
                     (UserCreate.profile_of wsUser (mu_department u) rd)).
Proof.
  intros H. unfold loadReferenceData in H.
  apply L_bind_inl in H. destruct H as (subdivision & s1 & _ & H).
  cbv zeta in H.
  apply L_bind_inl in H. destruct H as (deps & s2 & _ & H).
  destruct (error deps); [discriminate|].
  destruct (data deps) as [departments|]; [|discriminate].
  destruct (Nat.ltb 0 (length (List.filter _ departments))); [discriminate|].
  destruct (Nat.ltb 0 (length (List.filter (obj_lacks (fill departments)) _)))
    eqn:Hdeps; [discriminate|].
  apply L_bind_inl in H. destruct H as (teamsA & s3 & _ & H).
  destruct (error teamsA); [discriminate|].
  destruct (data teamsA) as [teams|]; [|discriminate].
  apply L_bind_inl in H. destruct H as ([] & s4 & Hteams & H).
  unfold ensureTeamsExist in Hteams.
  destruct (Nat.ltb 0 (length (List.filter (obj_lacks (fill teams)) _)))
    eqn:Hprod; [discriminate|].
  destruct (obj_lacks (fill teams)
              (Config.getTeamName Config.DELETED_DEPARTMENT)) eqn:Hdel;
    [discriminate|].
  apply L_bind_inl in H. destruct H as (defaults & s5 & _ & H).
  injection H as <- _.
  cbn [departmentMap teamMap deletedDepartmentId deletedTeamId].
  pose proof (none_filtered _ _ Hdeps) as Hd.
  pose proof (none_filtered _ _ Hprod) as Ht.
  assert (Hdept : forall d, In d (production ++ [Config.DELETED_DEPARTMENT]) ->
            exists i, obj_map (fill departments) !! d = Some i
                      /\ i <> EmptyString).
  { intros d Hin. apply obj_has, Hd, Hin. }
  assert (Hteam : forall d, In d (production ++ [Config.DELETED_DEPARTMENT]) ->
            exists t, obj_map (fill teams) !! Config.getTeamName d = Some t
                      /\ t <> EmptyString).
  { intros d Hin. apply obj_has. apply in_app_or in Hin.
    destruct Hin as [Hin|[<-|[]]]; [|exact Hdel].
    apply Ht, in_map, Hin. }
  assert (Hlast : In Config.DELETED_DEPARTMENT
                    (production ++ [Config.DELETED_DEPARTMENT])).
  { apply in_or_app. right. left. reflexivity. }
  split; [intros d Hin; split; [apply Hdept|apply Hteam]; exact Hin|].
  split.
  { destruct (Hdept _ Hlast) as (i & Hi & _).
    rewrite Hi. rewrite obj_map_lookup in Hi. rewrite Hi. reflexivity. }
  split.
  { destruct (Hteam _ Hlast) as (t & Hi & _).
    rewrite Hi. rewrite obj_map_lookup in Hi. rewrite Hi. reflexivity. }
  intros u wsUser Hin Hne.
  assert (Hin' : In (mu_department u)
                   (production ++ [Config.DELETED_DEPARTMENT])).
  { apply in_or_app. left. exact Hin. }
  destruct (Hdept _ Hin') as (i & Hi & Hi0).
  destruct (Hteam _ Hin') as (t & Hti & _).
  split; [|split].
  - unfold UserCreate.valid, UserCreate.validateUser, JS.get.
    cbn [departmentMap]. rewrite Hi.
    assert (Hfi : JS.falsy i = false).
    { unfold JS.falsy. apply String.eqb_neq. exact Hi0. }
    assert (Hfd : JS.falsy (mu_department u) = false).
    { unfold JS.falsy. apply String.eqb_neq. exact Hne. }
    rewrite Hfi, Hfd.
    destruct (JS.falsy (mu_email u)), (JS.includes (mu_email u) "@"),
      (JS.falsy (mu_name u)), (JS.trim_is_empty (mu_name u));
      cbn [negb orb app length Nat.eqb]; intuition congruence.
  - cbn [p_department_id UserCreate.profile_of departmentMap].
    unfold JS.get. rewrite Hi. eauto.
  - cbn [p_team_id UserCreate.profile_of teamMap]. eauto.
Qed.

(** [retry] with three attempts, written out. *)
Lemma retry_three {W V} (fn : @Retry.thunk W V string) (w : W) :
  Retry.retry fn options w
  = match fn w with
    | (inl v, w1) => (inl v, w1, [Retry.Attempt 1])
    | (inr _, w1) =>
        match fn w1 with
        | (inl v, w2) =>
            (inl v, w2,
             [Retry.Attempt 1; Retry.Wait (Retry.backoff options 1);
              Retry.Attempt 2])
        | (inr _, w2) =>
            match fn w2 with
            | (inl v, w3) =>
                (inl v, w3,
                 [Retry.Attempt 1; Retry.Wait (Retry.backoff options 1);
                  Retry.Attempt 2; Retry.Wait (Retry.backoff options 2);
                  Retry.Attempt 3])
            | (inr e, w3) =>
                (inr (Some e), w3,
                 [Retry.Attempt 1; Retry.Wait (Retry.backoff options 1);
                  Retry.Attempt 2; Retry.Wait (Retry.backoff options 2);
                  Retry.Attempt 3])
            end
        end
    end.
Proof.
  unfold Retry.retry. change (Retry.maxRetries_of options) with 3.
  cbn [Retry.retry_loop Retry.unreadable message_rejection].
  change (Retry.maxRetries_of options) with 3. cbn [Nat.eqb].
  destruct (fn w) as [[v|e1] w1]; [reflexivity|].
  destruct (fn w1) as [[v|e2] w2]; [reflexivity|].
  destruct (fn w2) as [[v|e3] w3]; reflexivity.
Qed.

(** One [retry]-wrapped query: between one and three copies of the
    query reach the store, with one wait before each copy but the first;
    an answer, with or without an [error], ends the run at once. *)
Lemma query_spec {A} (ask : list Query -> Query -> Answer A + string)
  (q : Query) (s : State) :
  exists k,
    1 <= k <= 3
    /\ (query ask q s).2.1 = s.1 ++ repeat q k
    /\ length (waits (query ask q s).2.2) + 1 = length (waits s.2) + k
    /\ ((forall log, exists a, ask log q = inl a) ->
        k = 1 /\ (query ask q s).1 = inl match ask s.1 q with
                                         | inl a => a
                                         | inr _ =>
                                             {| data := None; error := None |}
                                         end).
Proof.
  assert (Hw : forall a b, length (waits (a ++ b))
                           = length (waits a) + length (waits b)).
  { intros a b. induction a as [|[n|ms] a IH]; cbn [app waits length]; lia. }
  unfold query. rewrite retry_three.
  destruct (ask s.1 q) as [a1|e1] eqn:H1.
  { exists 1. cbn [fst snd repeat]. rewrite Hw. cbn [waits length app].
    split; [lia|]. split; [reflexivity|]. split; [lia|]. auto. }
  destruct (ask (s.1 ++ [q]) q) as [a2|e2] eqn:H2.
  { exists 2. cbn [fst snd repeat]. rewrite Hw, <- app_assoc.
    cbn [waits length app].
    split; [lia|]. split; [reflexivity|]. split; [lia|].
    intros Hall. destruct (Hall s.1) as [a Ha]. congruence. }
  exists 3.
  destruct (ask ((s.1 ++ [q]) ++ [q]) q) as [a3|e3] eqn:H3;
    cbn [fst snd repeat]; rewrite Hw, <- !app_assoc; cbn [waits length app];
    (split; [lia|]); (split; [reflexivity|]); (split; [lia|]);
    intros Hall; destruct (Hall s.1) as [a Ha]; congruence.
Qed.

Lemma waits_app a b : waits (a ++ b) = waits a ++ waits b.
Proof.
  induction a as [|[n|ms] a IH]; cbn [app waits]; rewrite ?IH; reflexivity.
Qed.

Lemma total_wait_app a b :
  LoaderRun.total_wait (a ++ b)
  = (LoaderRun.total_wait a + LoaderRun.total_wait b)%Z.
Proof.
  unfold LoaderRun.total_wait. rewrite waits_app.
  induction (waits a) as [|x l IH]; cbn [app fold_right]; lia.
Qed.

Lemma bounded_ret {A} (a : A) : LoaderRun.bounded 0 (mret a).
Proof.
  intros s. cbn. split; [exists []; rewrite app_nil_r; auto|lia].
Qed.

Lemma bounded_throw {A} t : LoaderRun.bounded 0 (@throw A t).
Proof.
  intros s. cbn. split; [exists []; rewrite app_nil_r; auto|lia].
Qed.

Lemma bounded_more {A} n n' (m : L A) :
  n <= n' -> LoaderRun.bounded n m -> LoaderRun.bounded n' m.
Proof.
  intros Hn Hm s. destruct (Hm s) as [(new & Hlog & Hlen) Hw].
  split; [exists new; split; [exact Hlog|lia]|lia].
Qed.

Lemma bounded_bind {A B} n n' (m : L A) (k : A -> L B) :
  LoaderRun.bounded n m -> (forall a, LoaderRun.bounded n' (k a)) ->
  LoaderRun.bounded (n + n') (mbind k m).
Proof.
  intros Hm Hk s. unfold mbind, L_bind.
  destruct (Hm s) as [(new & Hlog & Hlen) Hw].
  destruct (m s) as [[a|t] s1]; cbn [fst snd] in *.
  - destruct (Hk a s1) as [(new' & Hlog' & Hlen') Hw'].
    split; [|lia]. exists (new ++ new').
    rewrite Hlog', Hlog, <- app_assoc, length_app. split; [reflexivity|lia].
  - split; [exists new; split; [exact Hlog|lia]|lia].
Qed.

Lemma bounded_query {A} (ask : list Query -> Query -> Answer A + string) q :
  LoaderRun.bounded 1 (query ask q).
Proof.
  intros s. unfold query. rewrite retry_three.
  destruct (ask s.1 q) as [a1|e1].
  { cbn [fst snd]. rewrite total_wait_app.
    split; [exists [q]; split; [reflexivity|cbn; lia]|].
    cbn. lia. }
  destruct (ask (s.1 ++ [q]) q) as [a2|e2].
  { cbn [fst snd]. rewrite total_wait_app.
    split; [exists [q; q]; rewrite <- app_assoc; split;
            [reflexivity|cbn; lia]|].
    vm_compute (LoaderRun.total_wait [_; _; _]). lia. }
  destruct (ask ((s.1 ++ [q]) ++ [q]) q) as [a3|e3];
    cbn [fst snd]; rewrite total_wait_app;
    (split; [exists [q; q; q]; rewrite <- !app_assoc; split;
             [reflexivity|cbn; lia]|]);
    vm_compute (LoaderRun.total_wait [_; _; _; _; _]); lia.
Qed.

Lemma bounded_found st q message : LoaderRun.bounded 1 (found st q message).
Proof.
  unfold found. apply (bounded_bind 1 0); [apply bounded_query|].
  intros a. destruct (error a), (data a);
    first [apply bounded_ret|apply bounded_throw].
Qed.

(** X21.  Whatever the store answers, [loadReferenceData] issues at most
    eighteen queries (six at most three times each), all after the ones
    already in the log, and its [retry] runs wait at most eighteen
    seconds in all. *)
Theorem loader_effort_is_bounded (st : Store) (production : list string)
  (s : State) :
  (exists new,
     (loadReferenceData st production s).2.1 = s.1 ++ new
     /\ length new <= 18)
  /\ (LoaderRun.total_wait (loadReferenceData st production s).2.2
      <= LoaderRun.total_wait s.2 + 18000)%Z.
Proof.
  assert (H : LoaderRun.bounded 6 (loadReferenceData st production)).
  { unfold loadReferenceData.
    apply (bounded_bind 1 5); [apply bounded_found|]. intros subdivision.
    cbv zeta.
    apply (bounded_bind 1 4); [apply bounded_query|]. intros deps.
    destruct (error deps); [apply (bounded_more 0); [lia|apply bounded_throw]|].
    destruct (data deps) as [departments|];
      [|apply (bounded_more 0); [lia|apply bounded_throw]].
    destruct (Nat.ltb 0 _);
      [apply (bounded_more 0); [lia|apply bounded_throw]|].
    destruct (Nat.ltb 0 _);
      [apply (bounded_more 0); [lia|apply bounded_throw]|].
    apply (bounded_bind 1 3); [apply bounded_query|]. intros teamsA.
    destruct (error teamsA);
      [apply (bounded_more 0); [lia|apply bounded_throw]|].
    destruct (data teamsA) as [teams|];
      [|apply (bounded_more 0); [lia|apply bounded_throw]].
    apply (bounded_bind 0 3).
    { unfold ensureTeamsExist.
      destruct (Nat.ltb 0 _); [apply bounded_throw|apply bounded_ret]. }
    intros [].
    destruct (obj_lacks _ _);
      [apply (bounded_more 0); [lia|apply bounded_throw]|].
    apply (bounded_bind 3 0).
    { unfold loadDefaultValues.
      apply (bounded_bind 1 2); [apply bounded_found|]. intros position.
      apply (bounded_bind 1 1); [apply bounded_found|]. intros category.
      apply (bounded_bind 1 0); [apply bounded_found|]. intros role.
      apply bounded_ret. }
    intros defaults. apply bounded_ret. }
  destruct (H s) as [(new & Hlog & Hlen) Hw].
  split; [exists new; split; [exact Hlog|lia]|lia].
Qed.

Section answered.
Variable st : Store.
Hypothesis Hone : forall log q, exists a, one st log q = inl a.
Hypothesis Hmany : forall log q, exists a, many st log q = inl a.

Lemma query_answered {A} (ask : list Query -> Query -> Answer A + string)
  (q : Query) (s : State) :
  (forall log, exists a, ask log q = inl a) ->
  exists a, ask s.1 q = inl a
            /\ query ask q s = (inl a, (s.1 ++ [q], s.2 ++ [Retry.Attempt 1])).
Proof.
  intros Hall. destruct (Hall s.1) as [a Ha]. exists a. split; [exact Ha|].
  unfold query. rewrite retry_three, Ha. reflexivity.
Qed.

Lemma found_answered q message (s : State) :
  exists r, found st q message s
            = (r, (s.1 ++ [q], s.2 ++ [Retry.Attempt 1])).
Proof.
  unfold found, mbind, L_bind.
  destruct (query_answered (one st) q s (fun log => Hone log q))
    as (a & _ & ->).
  destruct (error a), (data a); cbn; eauto.
Qed.

Lemma loader_answered_run (production : list string) (s : State) :
  exists res new ev,
    loadReferenceData st production s = (res, (s.1 ++ new, ev))
    /\ new `prefix_of`
         LoaderRun.plan production (LoaderRun.department_ids st production s.1)
    /\ (forall rd, res = inl rd ->
          new = LoaderRun.plan production
                  (LoaderRun.department_ids st production s.1))
    /\ waits ev = waits s.2.
Proof.
  assert (Hpack : forall (res : RefData + Thrown) log ev qs full,
            log = s.1 ++ qs -> qs `prefix_of` full ->
            (forall rd, res = inl rd -> qs = full) ->
            waits ev = waits s.2 ->
            exists res' new ev',
              (res, (log, ev)) = (res', (s.1 ++ new, ev'))
              /\ new `prefix_of` full
              /\ (forall rd, res' = inl rd -> new = full)
              /\ waits ev' = waits s.2).
  { intros res log ev qs full -> Hp Hall Hw. exists res, qs, ev. auto. }
  unfold loadReferenceData, LoaderRun.department_ids.
  unfold mbind at 1. unfold L_bind at 1.
  destruct (found_answered (Subdivision PRODUCTION_SUBDIVISION)
              ("Не найдено подразделение " +:+ quoted PRODUCTION_SUBDIVISION) s)
    as [r1 ->].
  destruct r1 as [subdivision|t].
  2:{ apply (Hpack _ _ _ [Subdivision PRODUCTION_SUBDIVISION]);
        [reflexivity|eexists; reflexivity|discriminate|].
      rewrite waits_app. cbn [waits]. apply app_nil_r. }
  cbv zeta. unfold mbind at 1. unfold L_bind at 1.
  destruct (query_answered (many st)
              (Departments (production ++ [Config.DELETED_DEPARTMENT]))
              (s.1 ++ [Subdivision PRODUCTION_SUBDIVISION],
               s.2 ++ [Retry.Attempt 1])
              (fun log => Hmany log _)) as (deps & Hdeps & ->).
  cbn [fst snd] in Hdeps |- *. rewrite Hdeps.
  assert (Hstop2 : forall t : Thrown,
    exists res' new ev',
      (@inr RefData Thrown t,
       ((s.1 ++ [Subdivision PRODUCTION_SUBDIVISION])
        ++ [Departments (production ++ [Config.DELETED_DEPARTMENT])],
        (s.2 ++ [Retry.Attempt 1]) ++ [Retry.Attempt 1]))
      = (res', (s.1 ++ new, ev'))
      /\ new `prefix_of`
           LoaderRun.plan production
             (obj_values (fill (default [] (data deps))))
      /\ (forall rd, res' = inl rd ->
            new = LoaderRun.plan production
                    (obj_values (fill (default [] (data deps)))))
      /\ waits ev' = waits s.2).
  { intros t.
    apply (Hpack _ _ _
             [Subdivision PRODUCTION_SUBDIVISION;
              Departments (production ++ [Config.DELETED_DEPARTMENT])]);
      [rewrite <- app_assoc; reflexivity|eexists; reflexivity|discriminate|].
    rewrite !waits_app. cbn [waits]. rewrite !app_nil_r. reflexivity. }
  destruct (error deps); [apply Hstop2|].
  destruct (data deps) as [departments|]; [|apply Hstop2].
  cbn [default] in Hstop2 |- *.
  destruct (Nat.ltb 0 _); [apply Hstop2|].
  destruct (Nat.ltb 0 _); [apply Hstop2|].
  clear Hstop2.
  unfold mbind at 1. unfold L_bind at 1.
  destruct (query_answered (many st)
              (Teams (obj_values (fill departments)))
              ((s.1 ++ [Subdivision PRODUCTION_SUBDIVISION])
               ++ [Departments (production ++ [Config.DELETED_DEPARTMENT])],
               (s.2 ++ [Retry.Attempt 1]) ++ [Retry.Attempt 1])
              (fun log => Hmany log _)) as (teamsA & _ & ->).
  cbn [fst snd].
  set (log3 := ((s.1 ++ [Subdivision PRODUCTION_SUBDIVISION])
                ++ [Departments (production ++ [Config.DELETED_DEPARTMENT])])
               ++ [Teams (obj_values (fill departments))]).
  set (ev3 := ((s.2 ++ [Retry.Attempt 1]) ++ [Retry.Attempt 1])
              ++ [Retry.Attempt 1]).
  assert (Hlog3 : log3 = s.1 ++ [Subdivision PRODUCTION_SUBDIVISION;
                    Departments (production ++ [Config.DELETED_DEPARTMENT]);
                    Teams (obj_values (fill departments))]).
  { unfold log3. rewrite <- !app_assoc. reflexivity. }
  assert (Hev3 : waits ev3 = waits s.2).
  { unfold ev3. rewrite !waits_app. cbn [waits]. rewrite !app_nil_r.
    reflexivity. }
  assert (Hstop3 : forall t : Thrown,
    exists res' new ev',
      (@inr RefData Thrown t, (log3, ev3)) = (res', (s.1 ++ new, ev'))
      /\ new `prefix_of`
           LoaderRun.plan production (obj_values (fill departments))
      /\ (forall rd, res' = inl rd ->
            new = LoaderRun.plan production (obj_values (fill departments)))
      /\ waits ev' = waits s.2).
  { intros t.
    apply (Hpack _ _ _ _ _ Hlog3);
      [eexists; reflexivity|discriminate|exact Hev3]. }
  destruct (error teamsA); [apply Hstop3|].
  destruct (data teamsA) as [teams|]; [|apply Hstop3].
  unfold mbind at 1. unfold L_bind at 1. unfold ensureTeamsExist.
  destruct (Nat.ltb 0 _); [apply Hstop3|].
  cbn [mret L_ret].
  destruct (obj_lacks _ _); [apply Hstop3|].
  clear Hstop3.
  unfold loadDefaultValues, mbind, L_bind.
  destruct (found_answered (Position positionName)
              ("Не найдена должность " +:+ quoted positionName) (log3, ev3))
    as [r4 ->].
  cbn [fst snd].
  destruct r4 as [position|t].
  2:{ apply (Hpack _ _ _
               [Subdivision PRODUCTION_SUBDIVISION;
                Departments (production ++ [Config.DELETED_DEPARTMENT]);
                Teams (obj_values (fill departments));
                Position positionName]);
        [rewrite Hlog3, <- !app_assoc; reflexivity|eexists; reflexivity
        |discriminate|].
      rewrite !waits_app, Hev3. cbn [waits]. rewrite !app_nil_r.
      reflexivity. }
  destruct (found_answered (Category categoryName)
              ("Не найдена категория " +:+ quoted categoryName)
              (log3 ++ [Position positionName], ev3 ++ [Retry.Attempt 1]))
    as [r5 ->].
  cbn [fst snd].
  destruct r5 as [category|t].
  2:{ apply (Hpack _ _ _
               [Subdivision PRODUCTION_SUBDIVISION;
                Departments (production ++ [Config.DELETED_DEPARTMENT]);
                Teams (obj_values (fill departments));
                Position positionName; Category categoryName]);
        [rewrite Hlog3, <- !app_assoc; reflexivity|eexists; reflexivity
        |discriminate|].
      rewrite !waits_app, Hev3. cbn [waits]. rewrite !app_nil_r.
      reflexivity. }
  destruct (found_answered (Role roleName)
              ("Не найдена роль " +:+ quoted roleName)
              ((log3 ++ [Position positionName]) ++ [Category categoryName],
               (ev3 ++ [Retry.Attempt 1]) ++ [Retry.Attempt 1]))
    as [r6 ->].
  cbn [fst snd].
  destruct r6 as [role|t]; cbn [mret L_ret];
    (apply (Hpack _ _ _
              [Subdivision PRODUCTION_SUBDIVISION;
               Departments (production ++ [Config.DELETED_DEPARTMENT]);
               Teams (obj_values (fill departments));
               Position positionName; Category categoryName; Role roleName]);
     [rewrite Hlog3, <- !app_assoc; reflexivity|reflexivity|reflexivity|]);
    rewrite !waits_app, Hev3; cbn [waits]; rewrite !app_nil_r; reflexivity.
Qed.

(** X22.  When the store answers every query (with or without an
    [error] in the answer, but never by a rejection), [loadReferenceData]
    issues each of its queries once, in the order subdivision,
    departments, teams, position, category, role, stopping at the first
    failed check, and never waits: an answer that carries an error is not
    retried.  A load that returns a bundle has issued all six. *)
Theorem answered_queries_are_asked_once (production : list string)
  (s : State) :
  (exists new,
     (loadReferenceData st production s).2.1 = s.1 ++ new
     /\ new `prefix_of`
          LoaderRun.plan production (LoaderRun.department_ids st production s.1)
     /\ (forall rd,
           (loadReferenceData st production s).1 = inl rd ->
           new = LoaderRun.plan production
                   (LoaderRun.department_ids st production s.1)))
  /\ waits (loadReferenceData st production s).2.2 = waits s.2.
Proof.
  destruct (loader_answered_run production s)
    as (res & new & ev & -> & Hp & Hall & Hw).
  cbn [fst snd]. split; [|exact Hw]. exists new. auto.
Qed.

End answered.

End LoaderFacts.

(** ** The coordinator *)

Section ManagerFacts.
Import Data Sys Compare Manager.
Variable remote : Remote.
Variable cfg : Config.sync.
Variable toLowerCase : string -> string.
Variable mapDepartment : string -> option string.
Variable mappedDepartments : list string.

Abbreviation compareUsers :=
  (Compare.compareUsers toLowerCase mapDepartment mappedDepartments).
Abbreviation expectedDepartment :=
  (Compare.expectedDepartment toLowerCase mapDepartment).
Abbreviation syncUsers :=
  (Manager.syncUsers remote cfg toLowerCase mapDepartment mappedDepartments).
Abbreviation create_step := (Manager.create_step remote cfg).
Abbreviation delete_step := (Manager.delete_step remote cfg).
Abbreviation report := (Manager.report mappedDepartments).
Abbreviation touches_only_differences :=
  (SyncRun.touches_only_differences toLowerCase mapDepartment).

(** [syncUsers], step by step. *)
Lemma syncUsers_run notify out w :
  syncUsers notify out w
  = if notify && negb (bool_decide (is_Some (countBefore out)))
    then (Some (bump (clock w - clock w) initial_stats), w)
    else
      match reference out with
      | inr _ => (Some (bump (clock w - clock w) initial_stats), w)
      | inl rd =>
          match fetched out with
          | None => (None, w)
          | Some (ws, supa) =>
              match compareUsers ws supa with
              | None => (None, w)
              | Some stats =>
                  let c := create_step (SyncManager.usersToCreate stats) rd w in
                  let d :=
                    delete_step (SyncManager.usersToDelete stats) rd c.2 in
                  let fs := report (clock d.2 - clock w) stats c.1 d.1 in
                  (Some (if notify
                            && negb (bool_decide (is_Some (countAfter out)))
                         then bump (clock d.2 - clock w) fs else fs),
                   d.2)
              end
          end
      end.
Proof.
  unfold Manager.syncUsers, caught, bind, now, ret.
  destruct (notify && negb (bool_decide (is_Some (countBefore out))));
    [reflexivity|].
  destruct (reference out) as [rd|t]; [|reflexivity].
  destruct (fetched out) as [[ws supa]|]; [|reflexivity].
  destruct (compareUsers ws supa) as [stats|]; [|reflexivity].
  cbv zeta.
  destruct (create_step (SyncManager.usersToCreate stats) rd w) as [c w1].
  cbn [fst snd].
  destruct (delete_step (SyncManager.usersToDelete stats) rd w1) as [d w2].
  cbn [fst snd].
  destruct (notify && negb (bool_decide (is_Some (countAfter out))));
    reflexivity.
Qed.

Lemma planned_creation_origin ws supa stats u :
  compareUsers ws supa = Some stats ->
  In u (SyncManager.usersToCreate stats) ->
  exists src,
    In src ws /\ mu_email u = ws_email src
    /\ expectedDepartment src = Some (mu_department u)
    /\ mu_department u <> DEKRET
    /\ Forall (fun s => toLowerCase (su_email s) <> toLowerCase (ws_email src))
         supa.
Proof.
  intros Hrun Hin. unfold SyncManager.usersToCreate in Hin.
  apply filter_In in Hin. destruct Hin as [Hin Hne].
  apply negb_true_iff, String.eqb_neq in Hne.
  destruct (report_global toLowerCase mapDepartment mappedDepartments
              ws supa stats Hrun) as (_ & _ & _ & Hm & _).
  rewrite Hm in Hin. apply list_elem_of_In, list_elem_of_omap in Hin.
  destruct Hin as (src & Hsrc & Hof). apply list_elem_of_In in Hsrc.
  unfold Report.missing_of in Hof.
  destruct (expectedDepartment src) as [d|] eqn:He; [|discriminate].
  destruct (Compare.index_by_email toLowerCase su_email supa
              !! Report.key_ws toLowerCase src) eqn:Hi; [discriminate|].
  injection Hof as <-. cbn [mu_department mu_email missing_entry] in *.
  exists src. split; [exact Hsrc|]. split; [reflexivity|].
  split; [exact He|]. split; [exact Hne|].
  apply (index_None toLowerCase mapDepartment) in Hi. exact Hi.
Qed.

Lemma planned_deletion_origin ws supa stats u :
  compareUsers ws supa = Some stats ->
  In u (SyncManager.usersToDelete stats) ->
  exists s d,
    In s supa /\ du_user_id u = su_user_id s
    /\ su_department_name s = Some d /\ d <> DEKRET
    /\ Forall (fun src => toLowerCase (ws_email src) <> toLowerCase (su_email s))
         ws.
Proof.
  intros Hrun Hin. unfold SyncManager.usersToDelete in Hin.
  apply filter_In in Hin. destruct Hin as [Hin Hne].
  apply negb_true_iff, String.eqb_neq in Hne.
  destruct (report_global toLowerCase mapDepartment mappedDepartments
              ws supa stats Hrun) as (_ & _ & _ & _ & Hd).
  rewrite Hd in Hin. apply list_elem_of_In, list_elem_of_omap in Hin.
  destruct Hin as (s & Hs & Hof). apply list_elem_of_In in Hs.
  unfold Report.deleted_of in Hof.
  destruct (su_department_name s) as [d|] eqn:Hdep; [|discriminate].
  destruct (JS.falsy d); [discriminate|].
  destruct (Compare.initial_departments mappedDepartments !! d);
    [|discriminate].
  destruct (Compare.index_by_email toLowerCase ws_email ws
              !! Report.key_su toLowerCase s) eqn:Hi; [discriminate|].
  injection Hof as <-.
  cbn [du_departmentName du_user_id deleted_entry] in *.
  exists s, d. split; [exact Hs|]. split; [reflexivity|].
  split; [exact Hdep|]. split; [exact Hne|].
  apply (index_None toLowerCase mapDepartment) in Hi. exact Hi.
Qed.

Lemma create_step_extends rd ws supa stats w :
  compareUsers ws supa = Some stats ->
  extends_with (touches_only_differences rd ws supa) w
    (create_step (SyncManager.usersToCreate stats) rd w).2.
Proof.
  intros Hrun. unfold Manager.create_step.
  destruct (Nat.ltb 0 _); [|apply extends_refl].
  unfold bind.
  pose proof (createUsers_extends remote rd cfg
                (SyncManager.usersToCreate stats) w) as Hext.
  destruct (UserCreate.createUsers remote cfg _ rd w) as [r w1].
  cbn [fst snd] in *.
  eapply extends_weaken; [|exact Hext].
  intros e. destruct e; cbn; auto.
  - intros (u & [Hin _] & -> & _ & ->).
    destruct (planned_creation_origin ws supa stats u Hrun Hin)
      as (src & Hsrc & Hem & He & Hne & Habs).
    exists src, (mu_department u).
    split; [exact Hsrc|]. split; [exact Hem|]. split; [exact He|].
    split; [exact Hne|]. split; [reflexivity|exact Habs].
  - intros (u & [Hin _] & -> & ->).
    destruct (planned_creation_origin ws supa stats u Hrun Hin)
      as (src & Hsrc & Hem & He & Hne & Habs).
    exists src, (mu_department u).
    split; [exact Hsrc|]. split; [exact Hem|]. split; [exact He|].
    split; [exact Hne|]. split; [reflexivity|exact Habs].
  - intros [].
Qed.

Lemma delete_step_extends rd ws supa stats w :
  compareUsers ws supa = Some stats ->
  extends_with (touches_only_differences rd ws supa) w
    (delete_step (SyncManager.usersToDelete stats) rd w).2.
Proof.
  intros Hrun. unfold Manager.delete_step.
  destruct (Nat.ltb 0 _); [|apply extends_refl].
  unfold bind.
  assert (Hext : extends_with
                   (Trail.reassignment_of rd cfg (SyncManager.usersToDelete stats))
                   w (UserDelete.softDeleteUsers remote cfg
                        (SyncManager.usersToDelete stats) rd w).2).
  { unfold UserDelete.softDeleteUsers. destruct (Config.dryRun cfg).
    - apply extends_refl.
    - apply emits_delete_loop. auto. }
  destruct (UserDelete.softDeleteUsers remote cfg _ rd w) as [r w1].
  cbn [fst snd] in *.
  eapply extends_weaken; [|exact Hext].
  intros e. destruct e; cbn; auto; try tauto.
  intros ((u & Hin & ->) & -> & ->).
  split; [reflexivity|]. split; [reflexivity|].
  destruct (planned_deletion_origin ws supa stats u Hrun Hin)
    as (s & d & Hs & Hid & Hdep & Hne & Habs).
  exists s, d.
  split; [exact Hs|]. split; [exact Hid|]. split; [exact Hdep|].
  split; [exact Hne|exact Habs].
Qed.


(** *** The mismatches of the report *)

Lemma insertion_order_In seen l d :
  In d (insertion_order seen l) <-> In d l /\ ~ In d seen.
Proof.
  revert seen. induction l as [|k l IH]; intros seen; cbn [insertion_order In].
  - tauto.
  - destruct (existsb (String.eqb k) seen) eqn:Hk.
    + rewrite IH. apply existsb_exists in Hk. destruct Hk as (x & Hx & Hkx).
      apply String.eqb_eq in Hkx. subst x.
      split; [tauto|]. intros [[->|Hd] Hn]; [contradiction|tauto].
    + cbn [In]. rewrite IH. cbn [In].
      assert (Hnk : ~ In k seen).
      { intros Hin. assert (existsb (String.eqb k) seen = true); [|congruence].
        apply existsb_exists. exists k. split; [exact Hin|apply String.eqb_refl]. }
      destruct (string_dec k d) as [->|Hne]; [tauto|].
      split; [intros [?|[? ?]]; [contradiction|tauto]|].
      intros [[?|?] ?]; [contradiction|]. right. tauto.
Qed.

Lemma insertion_order_NoDup seen l : List.NoDup (insertion_order seen l).
Proof.
  revert seen. induction l as [|k l IH]; intros seen; cbn [insertion_order].
  - constructor.
  - destruct (existsb (String.eqb k) seen); [apply IH|].
    constructor; [|apply IH].
    rewrite insertion_order_In. cbn [In]. tauto.
Qed.

Lemma department_order_In d :
  In d (department_order mappedDepartments)
  <-> d = DEKRET \/ In d mappedDepartments.
Proof.
  unfold department_order. rewrite insertion_order_In, in_app_iff.
  cbn [In]. intuition congruence.
Qed.

Lemma totalDifferences_length (m : gmap string DeptStats) :
  totalDifferences mappedDepartments m
  = length (differences_in_order mappedDepartments m).
Proof.
  unfold totalDifferences, differences_in_order.
  assert (H : forall l acc,
            fold_left (fun total dept =>
                         match m !! dept with
                         | Some deptStats =>
                             total + length (department_differences deptStats)
                         | None => total
                         end) l acc
            = acc + length (flat_map
                              (fun dept => match m !! dept with
                                           | Some deptStats =>
                                               department_differences deptStats
                                           | None => []
                                           end) l)).
  { induction l as [|d l IH]; intros acc; cbn [fold_left flat_map length];
      [lia|].
    rewrite IH, length_app. destruct (m !! d); cbn [length]; lia. }
  apply H.
Qed.

Lemma at_most_one_hit {B} (f : string -> option B) (d0 : string)
  (order : list string) :
  (forall d y, f d = Some y -> d = d0) ->
  List.NoDup order ->
  length (flat_map (fun d => match f d with
                             | Some y => [y]
                             | None => []
                             end) order) <= 1.
Proof.
  intros Hf Hnd. induction Hnd as [|d order Hnotin _ IH]; cbn [flat_map length];
    [lia|].
  rewrite length_app. destruct (f d) as [y|] eqn:Hd; cbn [length]; [|exact IH].
  apply Hf in Hd. subst d.
  assert (Hz : flat_map (fun d => match f d with
                                  | Some y => [y]
                                  | None => []
                                  end) order = []).
  { clear IH. induction order as [|x order IHx]; [reflexivity|].
    cbn [flat_map]. destruct (f x) as [y'|] eqn:Hx.
    - apply Hf in Hx. subst x. destruct Hnotin. left. reflexivity.
    - apply IHx. intros Hin. apply Hnotin. right. exact Hin. }
  rewrite Hz. cbn. lia.
Qed.

Lemma no_hit {B} (f : string -> option B) (order : list string) :
  (forall d, f d = None) ->
  flat_map (fun d => match f d with
                     | Some y => [y]
                     | None => []
                     end) order = [].
Proof.
  intros Hf. induction order as [|d order IH]; [reflexivity|].
  cbn [flat_map]. rewrite Hf, IH. reflexivity.
Qed.

(** Each source record is in the difference list of one department at
    most, and only when it is matched. *)
Lemma differences_at_most_matched idx (order : list string)
  (ws : list SourceUser) :
  List.NoDup order ->
  length (flat_map
            (fun d => omap (Report.difference_of toLowerCase mapDepartment idx d)
                        ws) order)
  <= length (List.filter (Report.is_matched toLowerCase mapDepartment idx) ws).
Proof.
  intros Hnd. induction ws as [|u ws IH].
  - cbn [omap list_omap List.filter length].
    induction order as [|d order IHo]; [reflexivity|].
    cbn [flat_map app]. apply IHo. inversion Hnd; assumption.
  - assert (Hsplit : forall l,
              length (flat_map
                        (fun d => omap (Report.difference_of toLowerCase
                                          mapDepartment idx d) (u :: ws)) l)
              = length (flat_map
                          (fun d =>
                             match Report.difference_of toLowerCase
                                     mapDepartment idx d u with
                             | Some y => [y]
                             | None => []
                             end) l)
                + length (flat_map
                            (fun d => omap (Report.difference_of toLowerCase
                                              mapDepartment idx d) ws) l)).
    { induction l as [|d l IHl]; [reflexivity|].
      cbn [flat_map]. rewrite !length_app, IHl.
      cbn [omap list_omap].
      destruct (Report.difference_of toLowerCase mapDepartment idx d u);
        cbn [length app]; lia. }
    rewrite Hsplit. cbn [List.filter].
    destruct (Report.is_matched toLowerCase mapDepartment idx u) eqn:Hm.
    + cbn [length].
      assert (Hone : length (flat_map
                               (fun d =>
                                  match Report.difference_of toLowerCase
                                          mapDepartment idx d u with
                                  | Some y => [y]
                                  | None => []
                                  end) order) <= 1).
      { unfold Report.is_matched in Hm.
        destruct (expectedDepartment u) as [d0|] eqn:He; [|discriminate].
        apply (at_most_one_hit _ d0); [|exact Hnd].
        intros d y. unfold Report.difference_of, Report.in_dept.
        rewrite He. destruct (bool_decide (Some d0 = Some d)) eqn:Hd;
          [|discriminate].
        apply bool_decide_eq_true in Hd. injection Hd as <-. reflexivity. }
      lia.
    + rewrite no_hit; [cbn [length]; exact IH|].
      intros d. unfold Report.is_matched in Hm.
      unfold Report.difference_of, Report.in_dept.
      destruct (expectedDepartment u) as [d0|].
      * destruct (idx !! Report.key_ws toLowerCase u); [discriminate|].
        destruct (bool_decide (Some d0 = Some d)); reflexivity.
      * rewrite bool_decide_false by discriminate. reflexivity.
Qed.

Lemma differences_in_order_closed ws supa stats :
  compareUsers ws supa = Some stats ->
  differences_in_order mappedDepartments (by_department stats)
  = flat_map
      (fun d => omap (Report.difference_of toLowerCase mapDepartment
                        (Compare.index_by_email toLowerCase su_email supa) d)
                  ws)
      (department_order mappedDepartments).
Proof.
  intros Hrun. unfold differences_in_order.
  assert (Hall : forall d, In d (department_order mappedDepartments) ->
            exists ds, by_department stats !! d = Some ds).
  { intros d Hd. apply department_order_In in Hd.
    rewrite (compareUsers_closed toLowerCase mapDepartment mappedDepartments)
      in Hrun.
    destruct (forallb _ ws && forallb _ supa); [|discriminate].
    injection Hrun as <-.
    cbn [Report.supa_closed Report.ws_closed Compare.initial by_department].
    rewrite !map_lookup_imap.
    assert (Hi : Compare.initial_departments mappedDepartments !! d
                 = Some empty_dept)
      by (apply (initial_lookup toLowerCase mapDepartment); auto).
    rewrite Hi. cbn. eauto. }
  induction (department_order mappedDepartments) as [|d order IH];
    [reflexivity|].
  cbn [flat_map]. rewrite IH by (intros x Hx; apply Hall; right; exact Hx).
  f_equal. destruct (Hall d) as [ds Hds]; [left; reflexivity|].
  rewrite Hds.
  destruct (report_department toLowerCase mapDepartment mappedDepartments
              ws supa stats d ds Hrun Hds) as [_ ->].
  reflexivity.
Qed.


(** *** Dry runs *)

Lemma dry_create_is_local rd items w :
  Config.dryRun cfg = true ->
  UserCreate.created (UserCreate.createUsers remote cfg items rd w).1 = 0
  /\ extends_with local_event w (UserCreate.createUsers remote cfg items rd w).2
  /\ auth_users (UserCreate.createUsers remote cfg items rd w).2 = auth_users w.
Proof.
  intros Hdry. rewrite createUsers_run. cbv zeta. rewrite Hdry.
  pose proof (start_world_extends local_event w (fun e H => H)) as Hstart.
  pose proof (start_world_store w) as Hstore.
  destruct (Nat.eqb (length _) 0).
  - cbn [fst snd]. split; [reflexivity|]. split; [|exact Hstore].
    eapply extends_trans; [exact Hstart|].
    apply (emits_clear local_event (fun e H => H)).
  - rewrite validate_all_spec. cbn [fst snd].
    destruct (Nat.eqb _ 0); cbn [fst snd UserCreate.created]; auto.
Qed.


End ManagerFacts.

(** ** Names in the mismatch lines *)

Section NameFacts.
Import Compare Manager.

(** X26.  The names of a mismatch line.  The first name is the first
    token of the display name and the last name everything after the
    first space, so the two always give the display name back; when the
    first name of the source record holds no space they are exactly its
    first and last name, a last name of several words included (the
    create phase, which keeps the second token only, would cut it). *)
Theorem mismatch_line_keeps_the_whole_name (u : SourceUser) (d : string)
  (s : SupaUser) :
  full_name (mm_first_name (mismatch_line (difference_entry u d s)))
    (mm_last_name (mismatch_line (difference_entry u d s)))
  = df_name (difference_entry u d s)
  /\ (JS.includes (ws_first_name u) " " = false ->
      mm_first_name (mismatch_line (difference_entry u d s)) = ws_first_name u
      /\ mm_last_name (mismatch_line (difference_entry u d s))
         = ws_last_name u).
Proof.
  cbn [mismatch_line difference_entry mm_first_name mm_last_name df_name].
  unfold rest_of_name, full_name, JS.at_or_empty.
  change (ws_first_name u +:+ " " +:+ ws_last_name u)
    with (ws_first_name u +:+ String " " (ws_last_name u)).
  rewrite split_space_app.
  pose proof (split_space_nonempty (ws_first_name u)) as Hne.
  pose proof (split_space_nonempty (ws_last_name u)) as Hne'.
  split.
  - pose proof (join_split_space
                  (ws_first_name u +:+ String " " (ws_last_name u))) as Hj.
    rewrite split_space_app in Hj.
    destruct (JS.split_space (ws_first_name u)) as [|t ts]; [congruence|].
    cbn [app nth tl] in *.
    destruct (ts ++ JS.split_space (ws_last_name u)) as [|t' r] eqn:Hr.
    + apply app_eq_nil in Hr. destruct Hr as [_ Hr]. congruence.
    + rewrite join_cons in Hj. exact Hj.
  - intros Hno. rewrite (split_no_space _ Hno). cbn [app nth tl].
    split; [reflexivity|apply join_split_space].
Qed.

End NameFacts.

(** ** Configuration and schedule *)

Section EnvFacts.
Import Env.
Variable isNaN_parseInt : string -> bool.

(** X27.  What [validateConfig] accepts and what it can never say.  It
    returns exactly when the four required values are set and, if both
    the bot token and the chat id are set, the chat id parses as a number
    and so does the second chat id when there is one.  Since Telegram is
    enabled only when token and chat id are both set, the two errors
    about a token or a chat id [required when Telegram is enabled] are
    never thrown, and without a token (or without a chat id) no chat id
    is checked at all. *)
Theorem validateConfig_accepts_exactly (env : Vars) :
  validateConfig isNaN_parseInt (config env)
  <> Some "TELEGRAM_BOT_TOKEN is required when Telegram is enabled"
  /\ validateConfig isNaN_parseInt (config env)
     <> Some "TELEGRAM_CHAT_ID is required when Telegram is enabled"
  /\ (validateConfig isNaN_parseInt (config env) = None
      <-> truthy (SUPABASE_URL env) = true
          /\ truthy (SUPABASE_SERVICE_ROLE_KEY env) = true
          /\ truthy (WORKSECTION_DOMAIN env) = true
          /\ truthy (WORKSECTION_HASH env) = true
          /\ (truthy (TELEGRAM_BOT_TOKEN env) = true ->
              truthy (TELEGRAM_CHAT_ID env) = true ->
              isNaN_parseInt (default EmptyString (TELEGRAM_CHAT_ID env))
              = false
              /\ (truthy (TELEGRAM_CHAT_ID_2 env) = true ->
                  isNaN_parseInt
                    (default EmptyString (TELEGRAM_CHAT_ID_2 env)) = false))).
Proof.
  unfold validateConfig, config, required.
  cbn [supabase_url supabase_key worksection_domain worksection_hash telegram
       enabled botToken chatId chatId2 List.filter snd].
  destruct (truthy (SUPABASE_URL env)),
    (truthy (SUPABASE_SERVICE_ROLE_KEY env)),
    (truthy (WORKSECTION_DOMAIN env)), (truthy (WORKSECTION_HASH env));
    cbn [negb length Nat.ltb Nat.leb map fst];
    try (split; [intros [= H]; cbn in H; discriminate H|];
         split; [intros [= H]; cbn in H; discriminate H|];
         split; [discriminate|intros (? & ? & ? & ? & _); discriminate]).
  destruct (truthy (TELEGRAM_BOT_TOKEN env)), (truthy (TELEGRAM_CHAT_ID env));
    cbn [andb negb];
    try (split; [discriminate|]; split; [discriminate|];
         split; [intros _; do 4 (split; [reflexivity|]); discriminate
                |reflexivity]).
  destruct (isNaN_parseInt (default EmptyString (TELEGRAM_CHAT_ID env))).
  { split; [intros [= H]; discriminate H|].
    split; [intros [= H]; discriminate H|].
    split; [discriminate|]. intros (_ & _ & _ & _ & H).
    destruct (H eq_refl eq_refl). discriminate. }
  destruct (truthy (TELEGRAM_CHAT_ID_2 env)); cbn [andb].
  - destruct (isNaN_parseInt (default EmptyString (TELEGRAM_CHAT_ID_2 env))).
    + split; [intros [= H]; discriminate H|].
      split; [intros [= H]; discriminate H|].
      split; [discriminate|]. intros (_ & _ & _ & _ & H).
      destruct (H eq_refl eq_refl) as [_ H2]. specialize (H2 eq_refl).
      discriminate.
    + split; [discriminate|]. split; [discriminate|].
      split; [intros _|reflexivity]. do 4 (split; [reflexivity|]).
      intros _ _. split; [reflexivity|]. intros _. reflexivity.
  - split; [discriminate|]. split; [discriminate|].
    split; [intros _|reflexivity]. do 4 (split; [reflexivity|]).
    intros _ _. split; [reflexivity|]. discriminate.
Qed.

End EnvFacts.

Section ScheduleFacts.
Import Sys Scheduled.
Variable remote : Remote.
Variable cfg : Config.sync.
Variable toLowerCase : string -> string.
Variable mapDepartment : string -> option string.
Variable mappedDepartments : list string.

Abbreviation main :=
  (Scheduled.main remote cfg toLowerCase mapDepartment mappedDepartments).
Abbreviation sync :=
  (Manager.syncUsers remote cfg toLowerCase mapDepartment mappedDepartments
     true).

Lemma nextHour_late h : 17 <= h -> nextHour h = 8.
Proof.
  intros Hh. unfold nextHour, SYNC_HOURS. cbn [List.find].
  assert (H8 : Nat.ltb h 8 = false) by (apply Nat.ltb_ge; lia).
  assert (H11 : Nat.ltb h 11 = false) by (apply Nat.ltb_ge; lia).
  assert (H14 : Nat.ltb h 14 = false) by (apply Nat.ltb_ge; lia).
  assert (H17 : Nat.ltb h 17 = false) by (apply Nat.ltb_ge; lia).
  rewrite H8, H11, H14, H17. reflexivity.
Qed.

Lemma nextHour_early h :
  h < 17 ->
  In (nextHour h) SYNC_HOURS /\ h < nextHour h
  /\ forall k, In k SYNC_HOURS -> h < k -> nextHour h <= k.
Proof.
  intros Hh. unfold nextHour, SYNC_HOURS. cbn [List.find In].
  destruct (Nat.ltb_spec h 8); [cbn; intuition lia|].
  destruct (Nat.ltb_spec h 11); [cbn; intuition lia|].
  destruct (Nat.ltb_spec h 14); [cbn; intuition lia|].
  destruct (Nat.ltb_spec h 17); [cbn; intuition lia|lia].
Qed.

(** X28.  The scheduled script.  When the hour it checks is not one of
    8, 11, 14, 17 it runs nothing, leaves the world as it is, and
    announces the first scheduled hour after the hour it read, or 8
    o'clock of the next day when none is left (exactly from 17 o'clock
    on).  When the checked hour is scheduled it runs the synchronisation
    with notifications once and exits with 0 exactly when that returned
    a report without errors. *)
Theorem scheduled_run_follows_the_hours (currentHour checkedHour : nat)
  (out : Manager.Outside) (w : World) :
  (shouldRunSync checkedHour = true <-> In checkedHour [8; 11; 14; 17])
  /\ (shouldRunSync checkedHour = false ->
      main currentHour checkedHour out w
      = (Skipped (nextHour currentHour) (Nat.leb 17 currentHour), w)
      /\ In (nextHour currentHour) [8; 11; 14; 17]
      /\ (currentHour < 17 ->
          currentHour < nextHour currentHour
          /\ forall k, In k [8; 11; 14; 17] -> currentHour < k ->
               nextHour currentHour <= k)
      /\ (17 <= currentHour -> nextHour currentHour = 8))
  /\ (shouldRunSync checkedHour = true ->
      (main currentHour checkedHour out w).2 = (sync out w).2
      /\ ((main currentHour checkedHour out w).1 = Ran 0
          <-> exists fs, (sync out w).1 = Some fs
                         /\ Manager.errors (Manager.users fs) = 0)
      /\ ((main currentHour checkedHour out w).1 = Ran 0
          \/ (main currentHour checkedHour out w).1 = Ran 1)).
Proof.
  split.
  { unfold shouldRunSync, SYNC_HOURS. cbn [existsb In].
    rewrite orb_false_r, !orb_true_iff, !Nat.eqb_eq. intuition congruence. }
  split.
  - intros Hno. unfold Scheduled.main. rewrite Hno. cbn [negb ret].
    destruct (Nat.le_gt_cases 17 currentHour) as [Hlate|Hearly].
    + rewrite (nextHour_late _ Hlate).
      assert (H1 : Nat.leb 8 currentHour = true) by (apply Nat.leb_le; lia).
      assert (H2 : Nat.leb 17 currentHour = true) by (apply Nat.leb_le; lia).
      rewrite H1, H2. split; [reflexivity|]. split; [cbn; tauto|].
      split; [lia|reflexivity].
    + destruct (nextHour_early _ Hearly) as (Hin & Hlt & Hmin).
      assert (H1 : Nat.leb (nextHour currentHour) currentHour = false)
        by (apply Nat.leb_gt; lia).
      assert (H2 : Nat.leb 17 currentHour = false) by (apply Nat.leb_gt; lia).
      rewrite H1, H2. split; [reflexivity|]. split; [exact Hin|].
      split; [auto|lia].
  - intros Hyes. unfold Scheduled.main. rewrite Hyes. cbn [negb].
    unfold bind. destruct (sync out w) as [[fs|] w1]; cbn [fst snd].
    + destruct (Nat.eqb_spec (Manager.errors (Manager.users fs)) 0) as [H0|H0];
        cbn [ret fst snd].
      * split; [reflexivity|]. split; [|left; reflexivity].
        split; [intros _; exists fs; auto|reflexivity].
      * split; [reflexivity|]. split; [|right; reflexivity].
        split; [discriminate|]. intros (fs' & [= <-] & H). contradiction.
    + cbn [ret fst snd]. split; [reflexivity|]. split; [|right; reflexivity].
      split; [discriminate|]. intros (fs' & H & _). discriminate.
Qed.

End ScheduleFacts.

(** ** After the create phase *)

Section Rerun.
Import Data Ledger Sys UserCreate Trail.
Variable remote : Remote.
Variable rd : RefData.

(** X30.  A real run of [createUsers] that reaches its loop leaves no
    ledger behind, however the loop ended: the ledger file is gone and the
    tracker is blank, also after a stop on the first error.  A later run
    therefore finds nothing recorded and takes up every item of the plan
    again, the ones already created included; the ledger only survives
    when the process itself is interrupted. *)
Theorem finished_create_phase_forgets_its_progress (cfg : Config.sync)
  (items : list MissingUser) (w : World) :
  Config.dryRun cfg = false ->
  Exists (fun u => valid u rd
                   && negb (existsb (String.eqb (mu_email u)) (recorded w))
                   = true) items ->
  fs_file (createUsers remote cfg items rd w).2 = None
  /\ tracker (createUsers remote cfg items rd w).2 = blank
  /\ recorded (createUsers remote cfg items rd w).2 = []
  /\ pending (createUsers remote cfg items rd w).2 items = items
  /\ Tracker.filterUnprocessed
       (tracker (start_world (createUsers remote cfg items rd w).2)) items
     = items.
Proof.
  intros Hdry Hex.
  assert (Hend : fs_file (createUsers remote cfg items rd w).2 = None
                 /\ tracker (createUsers remote cfg items rd w).2 = blank).
  { rewrite createUsers_run. cbv zeta. rewrite Hdry.
    apply List.Exists_exists in Hex. destruct Hex as (u & Hin & Hu).
    apply andb_true_iff in Hu. destruct Hu as [Hv Hnp].
    assert (Hunp : In u (Tracker.filterUnprocessed (tracker (start_world w))
                           items)).
    { apply filter_In. split; [exact Hin|].
      rewrite isProcessed_recorded. exact Hnp. }
    destruct (Nat.eqb (length _) 0) eqn:Hlen; [split; reflexivity|].
    rewrite validate_all_spec. cbn [fst snd].
    destruct (Nat.eqb (length (List.filter _ _)) 0) eqn:Hlen2;
      [|split; reflexivity].
    apply Nat.eqb_eq, length_zero_iff_nil in Hlen2.
    assert (Hin2 : In u (List.filter (fun u => valid u rd)
                           (Tracker.filterUnprocessed
                              (tracker (start_world w)) items))).
    { apply filter_In. auto. }
    rewrite Hlen2 in Hin2. destruct Hin2. }
  destruct Hend as [Hfile Htracker].
  assert (Hrec : recorded (createUsers remote cfg items rd w).2 = []).
  { unfold recorded. rewrite Hfile. reflexivity. }
  assert (Hall : forall l : list MissingUser,
            List.filter
              (fun u => negb (existsb (String.eqb (mu_email u)) [])) l = l).
  { induction l as [|x l IH]; [reflexivity|].
    cbn [List.filter].
    change (negb (existsb (String.eqb (mu_email x)) [])) with true.
    cbv iota. rewrite IH. reflexivity. }
  split; [exact Hfile|]. split; [exact Htracker|]. split; [exact Hrec|].
  split.
  - unfold pending. rewrite Hrec. apply Hall.
  - unfold Tracker.filterUnprocessed.
    rewrite <- (Hall items) at 2. apply filter_ext. intros u.
    rewrite isProcessed_recorded, Hrec. reflexivity.
Qed.

End Rerun.

(** ** The further properties on the sample data *)

Lemma loaded_reference_is_complete_witness :
  Data.departmentMap Sample.loaded !! Config.DELETED_DEPARTMENT
  = Some (Data.deletedDepartmentId Sample.loaded)
  /\ Data.deletedDepartmentId Sample.loaded = "dep:Удалены".
Proof.
  split; [|vm_compute; reflexivity].
  apply (loaded_reference_is_complete Sample.store Scenario.tracked ([], [])
           (Loader.loadReferenceData Sample.store Scenario.tracked ([], [])).2
           Sample.loaded).
  vm_compute. reflexivity.
Defined.

Lemma answered_queries_are_asked_once_witness :
  Trail.waits
    (Loader.loadReferenceData Sample.store Scenario.tracked ([], [])).2.2
  = [].
Proof.
  apply (answered_queries_are_asked_once Sample.store).
  - intros log q. eexists. reflexivity.
  - intros log q. eexists. reflexivity.
Defined.



Lemma finished_create_phase_forgets_its_progress_witness :
  Sys.fs_file
    (UserCreate.createUsers Scenario.refusing Scenario.live
       [Scenario.item 0; Scenario.item 1] Scenario.refData Scenario.fresh).2
  = None.
Proof.
  apply (finished_create_phase_forgets_its_progress Scenario.refusing
           Scenario.refData Scenario.live [Scenario.item 0; Scenario.item 1]
           Scenario.fresh).
  - reflexivity.
  - apply List.Exists_cons_hd. vm_compute. reflexivity.
Defined.
